(** * Head-pose tracking pipeline: camera calibration, pose solving,
      stabilisation and quality monitoring

    A shallow embedding of the numerical core of the repository
    (src/src/tracking/CameraCalibrator.js, AdvancedPoseEstimator.js,
    ProductionStabilizer.js, TrackingQualityMonitor.js, and the calibration
    step of ProfessionalFaceTracker.js), the properties its specification
    states about it, and further properties of the same code.

    Conventions.
    - A JavaScript number is an exact rational ([Q]): rounding, NaN and the
      infinities are not modelled, except where the source produces
      [Infinity] on purpose (the reprojection error of an empty projection
      set), which has its own type. Division is the field's; where the
      source could divide by zero (the visibility of an empty landmark
      array, the frame rate of two frames with one timestamp) the quotient
      is outside the model, and no property below depends on it.
    - The functions of [Math] that are not rational arithmetic ([hypot],
      [sqrt], [exp], [sin], [acos], [fround], the constant [PI]) and the
      operations of the three.js library, which is not part of the
      repository, are fields of an environment; the general theorems hold
      for every environment, under the stated laws only. A concrete
      environment in fixed-point arithmetic runs the examples.
    - [performance.now()] and [Math.random()] are inputs: each call that
      reads the clock takes the reading as an argument, and the random
      source is a stream of numbers indexed by draw.
    - Mutable objects are records; a method is a function from the record
      (and its arguments) to its result and the updated record. A callback
      is not run: a call of [_triggerCallback] is recorded, with the clock
      reading in force. *)

From Stdlib Require Import QArith Qround Qabs Lqa ZArith List Lia Bool.
From Stdlib Require Import Sorted Permutation.
Import ListNotations.
Open Scope Q_scope.

(* ================================================================== *)
(** * Part I: the model                                               *)
(* ================================================================== *)

(** ** JavaScript numbers and [Math] *)

Module JS.

(** [a < b] and [a <= b] as the booleans JavaScript computes. *)
Definition ltb (a b : Q) : bool := negb (Qle_bool b a).
Definition leb (a b : Q) : bool := Qle_bool a b.

(** [Math.max(a, b)] and [Math.abs]. *)
Definition max (a b : Q) : Q := if Qle_bool a b then b else a.
Definition abs (a : Q) : Q := Qabs a.

(** [o || d] for a numeric option: [undefined], [null] and [0] are falsy. *)
Definition or_default (o : option Q) (d : Q) : Q :=
  match o with
  | Some v => if Qeq_bool v 0 then d else v
  | None => d
  end.

(** Truthiness of a number that may be absent. *)
Definition truthy (o : option Q) : bool :=
  match o with
  | Some v => negb (Qeq_bool v 0)
  | None => false
  end.

(** [xs.reduce((a, b) => a + b, 0)]. *)
Definition sum (xs : list Q) : Q := fold_left Qplus xs 0.

(** A count as a number. *)
Definition ofNatQ (n : nat) : Q := inject_Z (Z.of_nat n).

(** The part of [Math] the sources call that is not rational arithmetic. *)
Class MathEnv : Type := {
  hypot : Q -> Q -> Q;
  hypot3 : Q -> Q -> Q -> Q;
  sqrt : Q -> Q;
  exp : Q -> Q;
  sin : Q -> Q;
  acos : Q -> Q;
  PI : Q;
  (** the rounding of a store into a [Float32Array] *)
  fround : Q -> Q
}.

(** What the theorems assume of it, where they assume anything. *)
Class MathLaws (M : MathEnv) : Prop := {
  hypot_nonneg : forall a b, 0 <= hypot a b;
  exp_pos : forall a, 0 < exp a
}.

(** A number that may be [Infinity]: the type of a reprojection error. *)
Inductive xnum : Type :=
| Fin (q : Q)
| Infinity.

(** [Math.max(0, 1 - e / 50)] for such a number: [1 - Infinity / 50] is
    [-Infinity], and the maximum is [0]. *)
Definition unitScore (e : xnum) : Q :=
  match e with
  | Fin q => max 0 (1 - q / 50)
  | Infinity => 0
  end.

(** [Math.random()]: the [k]-th draw of a run. *)
Definition randomSource : Type := nat -> Q.

(** A concrete environment for running the model on examples, in coarse
    fixed-point arithmetic: every result is rounded to a multiple of 2^-8;
    square roots are exact up to rounding down, the other functions are
    short series. It stands in for [Math] in examples only; no theorem
    depends on it. *)
Definition snap (q : Q) : Q :=
  Qred (Qfloor (q * (2 ^ 8 # 1) + (1 # 2)) # (2 ^ 8)).

Definition sqrt_down (q : Q) : Q :=
  Qred (Z.sqrt (Qfloor (q * (2 ^ 16 # 1))) # (2 ^ 8)).

Definition exp_rational (a : Q) : Q :=
  if Qle_bool 0 a then 1 + a + a * a / 2
  else 1 / (1 - a + a * a / 2).

Definition sin_series (a : Q) : Q :=
  snap (a - a * a * a / 6 + a * a * a * a * a / 120).

Definition cos_series (a : Q) : Q :=
  snap (1 - a * a / 2 + a * a * a * a / 24).

Definition asin_series (a : Q) : Q := snap (a + a * a * a / 6).

#[export] Instance approxMath : MathEnv := {
  hypot := fun a b => sqrt_down (a * a + b * b);
  hypot3 := fun a b c => sqrt_down (a * a + b * b + c * c);
  sqrt := sqrt_down;
  exp := exp_rational;
  sin := sin_series;
  acos := fun a => snap ((3141593 # 2000000) - asin_series a);
  PI := 3141593 # 1000000;
  fround := snap
}.

(** [xs.slice(-k)] for a positive count [k]: the last [k] elements, all of
    them when there are fewer. *)
Definition recent {A : Type} (k : nat) (xs : list A) : list A :=
  skipn (length xs - k) xs.

End JS.

(** ** three.js *)

(** The vectors, quaternions and Euler angles of three.js, and the
    operations on them the sources call. The library is not part of the
    repository: the operations that are not plain field updates are fields
    of an environment. *)
Module Three.
Import JS.

Record Vector3 : Type := mkVector3 {
  v_x : Q;
  v_y : Q;
  v_z : Q
}.

Record Quaternion : Type := mkQuaternion {
  q_x : Q;
  q_y : Q;
  q_z : Q;
  q_w : Q
}.

(** Euler angles, in the default order XYZ. *)
Record Euler : Type := mkEuler {
  e_x : Q;
  e_y : Q;
  e_z : Q
}.

(** [new THREE.Quaternion()] and [quaternion.identity()]. *)
Definition identityQuaternion : Quaternion := mkQuaternion 0 0 0 1.

Class ThreeEnv : Type := {
  (** [v.applyQuaternion(q)] *)
  applyQuaternion : Vector3 -> Quaternion -> Vector3;
  (** [q.setFromRotationMatrix(m)], [m] the upper 3x3 block by rows *)
  setFromRotationMatrix : list Q -> Quaternion;
  (** [euler.setFromQuaternion(q)] *)
  eulerFromQuaternion : Quaternion -> Euler;
  (** [q.setFromEuler(euler)] *)
  quaternionFromEuler : Euler -> Quaternion;
  (** [q.slerp(target, t)] *)
  slerp : Quaternion -> Quaternion -> Q -> Quaternion;
  (** [q.normalize()] *)
  normalize : Quaternion -> Quaternion;
  (** [a.multiply(b)] *)
  multiply : Quaternion -> Quaternion -> Quaternion;
  (** [q.conjugate()] *)
  conjugate : Quaternion -> Quaternion;
  (** [v.lerp(target, alpha)] *)
  lerp : Vector3 -> Vector3 -> Q -> Vector3
}.

(** An environment for running examples, after the formulas of three.js,
    over [approxMath]. *)
Definition applyQuaternion_formula (v : Vector3) (q : Quaternion) : Vector3 :=
  let tx := 2 * (q_y q * v_z v - q_z q * v_y v) in
  let ty := 2 * (q_z q * v_x v - q_x q * v_z v) in
  let tz := 2 * (q_x q * v_y v - q_y q * v_x v) in
  mkVector3 (snap (v_x v + q_w q * tx + q_y q * tz - q_z q * ty))
            (snap (v_y v + q_w q * ty + q_z q * tx - q_x q * tz))
            (snap (v_z v + q_w q * tz + q_x q * ty - q_y q * tx)).

Definition multiply_formula (a b : Quaternion) : Quaternion :=
  mkQuaternion
    (snap (q_x a * q_w b + q_w a * q_x b + q_y a * q_z b - q_z a * q_y b))
    (snap (q_y a * q_w b + q_w a * q_y b + q_z a * q_x b - q_x a * q_z b))
    (snap (q_z a * q_w b + q_w a * q_z b + q_x a * q_y b - q_y a * q_x b))
    (snap (q_w a * q_w b - q_x a * q_x b - q_y a * q_y b - q_z a * q_z b)).

Definition normalize_formula (q : Quaternion) : Quaternion :=
  let l := sqrt_down (q_x q * q_x q + q_y q * q_y q + q_z q * q_z q
                      + q_w q * q_w q) in
  if Qeq_bool l 0 then identityQuaternion
  else mkQuaternion (snap (q_x q / l)) (snap (q_y q / l))
                    (snap (q_z q / l)) (snap (q_w q / l)).

Definition quaternionFromEuler_formula (e : Euler) : Quaternion :=
  let c1 := cos_series (e_x e / 2) in
  let c2 := cos_series (e_y e / 2) in
  let c3 := cos_series (e_z e / 2) in
  let s1 := sin_series (e_x e / 2) in
  let s2 := sin_series (e_y e / 2) in
  let s3 := sin_series (e_z e / 2) in
  mkQuaternion (snap (s1 * c2 * c3 + c1 * s2 * s3))
               (snap (c1 * s2 * c3 - s1 * c2 * s3))
               (snap (c1 * c2 * s3 + s1 * s2 * c3))
               (snap (c1 * c2 * c3 - s1 * s2 * s3)).

Definition atan2_coarse (y x : Q) : Q :=
  if Qeq_bool x 0 then 0 else snap (y / x).

Definition eulerFromQuaternion_formula (q : Quaternion) : Euler :=
  let m11 := 1 - 2 * (q_y q * q_y q + q_z q * q_z q) in
  let m12 := 2 * (q_x q * q_y q - q_z q * q_w q) in
  let m13 := 2 * (q_x q * q_z q + q_y q * q_w q) in
  let m23 := 2 * (q_y q * q_z q - q_x q * q_w q) in
  let m33 := 1 - 2 * (q_x q * q_x q + q_y q * q_y q) in
  mkEuler (atan2_coarse (- m23) m33) (asin_series m13)
          (atan2_coarse (- m12) m11).

Definition setFromRotationMatrix_formula (m : list Q) : Quaternion :=
  let e := fun i => nth i m 0 in
  let trace := e 0%nat + e 4%nat + e 8%nat in
  if ltb 0 trace then
    let s := (1 # 2) / sqrt_down (trace + 1) in
    mkQuaternion (snap ((e 7%nat - e 5%nat) * s))
                 (snap ((e 2%nat - e 6%nat) * s))
                 (snap ((e 3%nat - e 1%nat) * s))
                 (snap ((1 # 4) / s))
  else identityQuaternion.

Definition slerp_formula (a b : Quaternion) (t : Q) : Quaternion :=
  normalize_formula
    (mkQuaternion (q_x a + (q_x b - q_x a) * t) (q_y a + (q_y b - q_y a) * t)
                  (q_z a + (q_z b - q_z a) * t) (q_w a + (q_w b - q_w a) * t)).

#[export] Instance approxThree : ThreeEnv := {
  applyQuaternion := applyQuaternion_formula;
  setFromRotationMatrix := setFromRotationMatrix_formula;
  eulerFromQuaternion := eulerFromQuaternion_formula;
  quaternionFromEuler := quaternionFromEuler_formula;
  slerp := slerp_formula;
  normalize := normalize_formula;
  multiply := multiply_formula;
  conjugate := fun q => mkQuaternion (- q_x q) (- q_y q) (- q_z q) (q_w q);
  lerp := fun v w a =>
    mkVector3 (v_x v + (v_x w - v_x v) * a) (v_y v + (v_y w - v_y v) * a)
              (v_z v + (v_z w - v_z v) * a)
}.

End Three.

(** ** Landmarks (the detector's output) *)

(** A landmark as the detector delivers it: normalised image coordinates,
    relative depth, and an optional presence score. *)
Record landmark : Type := mkLandmark {
  lm_x : Q;
  lm_y : Q;
  lm_z : Q;
  lm_presence : option Q
}.

(** A JavaScript array of landmarks; an entry may be [undefined]. *)
Definition landmarks : Type := list (option landmark).

(** [landmarks[i]]: [undefined] out of range. *)
Definition landmarkAt (ls : landmarks) (i : nat) : option landmark :=
  match nth_error ls i with
  | Some (Some l) => Some l
  | _ => None
  end.

(** ** CameraCalibrator.js *)

Module CameraCalibrator.
Import JS.

Record sample : Type := mkSample {
  value : Q;
  timestamp : Q
}.

Record t : Type := mkCalibrator {
  samples : list sample;
  maxSamples : nat;
  minSamples : nat;
  calibratedFocal : option Q;
  lastCalibrationTime : Q;
  REAL_IPD_MM : Q;
  EYE_left : nat;
  EYE_right : nat
}.

(** [new CameraCalibrator()]. *)
Definition new : t := {|
  samples := [];
  maxSamples := 15;
  minSamples := 8;
  calibratedFocal := None;
  lastCalibrationTime := 0;
  REAL_IPD_MM := 63;
  EYE_left := 33;
  EYE_right := 263
|}.

Section WithMath.
Context {M : MathEnv}.

(** The pixel distance between the two eye landmarks. *)
Definition pixelDistance (leftEye rightEye : landmark) (imageWidth : Q) : Q :=
  hypot ((lm_x rightEye - lm_x leftEye) * imageWidth)
        ((lm_y rightEye - lm_y leftEye) * imageWidth).

(** The focal-length candidate derived from a pixel distance. *)
Definition focalCandidate (c : t) (d : Q) : Q := d * REAL_IPD_MM c / 30.

(** The distance [estimateFocalLength] computes for an input, when both eye
    landmarks are there. *)
Definition eyePixelDistance (c : t) (ls : option landmarks) (imageWidth : Q)
  : option Q :=
  match ls with
  | None => None
  | Some ls =>
    match landmarkAt ls (EYE_left c), landmarkAt ls (EYE_right c) with
    | Some leftEye, Some rightEye => Some (pixelDistance leftEye rightEye imageWidth)
    | _, _ => None
    end
  end.

(** [estimateFocalLength(landmarks, imageWidth)]. The argument is [None]
    when [landmarks] is [null] or [undefined]: indexing it throws, and the
    [catch] returns [null]. *)
Definition estimateFocalLength (c : t) (ls : option landmarks) (imageWidth : Q)
  : option Q :=
  match ls with
  | None => None
  | Some ls =>
    match landmarkAt ls (EYE_left c), landmarkAt ls (EYE_right c) with
    | Some leftEye, Some rightEye =>
      let d := pixelDistance leftEye rightEye imageWidth in
      if ltb d 20 || ltb 200 d then None
      else
        let focalLength := focalCandidate c d in
        if ltb focalLength 500 || ltb 3000 focalLength then None
        else Some focalLength
    | _, _ => None
    end
  end.

(** [addSample(focalLength)] at clock reading [now]. *)
Definition addSample (c : t) (focalLength : option Q) (now : Q) : bool * t :=
  if negb (truthy focalLength) then (false, c)
  else
    let pushed := samples c ++ [mkSample (or_default focalLength 0) now] in
    let kept := if (maxSamples c <? length pushed)%nat then tl pushed else pushed in
    (true, {| samples := kept;
              maxSamples := maxSamples c;
              minSamples := minSamples c;
              calibratedFocal := calibratedFocal c;
              lastCalibrationTime := lastCalibrationTime c;
              REAL_IPD_MM := REAL_IPD_MM c;
              EYE_left := EYE_left c;
              EYE_right := EYE_right c |}).

(** [_calculateVariance()]. *)
Definition _calculateVariance (c : t) : Q :=
  if (length (samples c) <? 2)%nat then 0
  else
    let n := inject_Z (Z.of_nat (length (samples c))) in
    let mean := sum (map value (samples c)) / n in
    sum (map (fun s => (value s - mean) * (value s - mean)) (samples c)) / n.

(** The exponentially time-weighted average of the samples: the loop of
    [getCalibratedFocalLength], returning [weightedSum / totalWeight]. The
    divisor is a sum of exponentials, positive by [exp_pos] when there is a
    sample. *)
Definition weightedSums (now : Q) (ss : list sample) : Q * Q :=
  fold_left
    (fun acc s =>
       let age := now - timestamp s in
       let weight := exp (- age / 5000) in
       (fst acc + value s * weight, snd acc + weight))
    ss (0, 0).

Definition weightedAverage (c : t) (now : Q) : Q :=
  let ws := weightedSums now (samples c) in
  fst ws / snd ws.

(** [getCalibratedFocalLength()] at clock reading [now]. *)
Definition getCalibratedFocalLength (c : t) (now : Q) : option Q * t :=
  if (length (samples c) <? minSamples c)%nat then (None, c)
  else
    let focal := weightedAverage c now in
    if ltb focal 500 || ltb 3000 focal then (None, c)
    else
      let variance := _calculateVariance c in
      if ltb 10000 variance then (None, c)
      else
        (Some focal,
         {| samples := samples c;
            maxSamples := maxSamples c;
            minSamples := minSamples c;
            calibratedFocal := Some focal;
            lastCalibrationTime := now;
            REAL_IPD_MM := REAL_IPD_MM c;
            EYE_left := EYE_left c;
            EYE_right := EYE_right c |}).

(** [isStable()] at clock reading [now]. *)
Definition isStable (c : t) (now : Q) : bool :=
  if negb (truthy (calibratedFocal c)) then false
  else
    ltb (_calculateVariance c) 5000
    && ltb (now - lastCalibrationTime c) 10000.

(** [reset()]. *)
Definition reset (c : t) : t := {|
  samples := [];
  maxSamples := maxSamples c;
  minSamples := minSamples c;
  calibratedFocal := None;
  lastCalibrationTime := 0;
  REAL_IPD_MM := REAL_IPD_MM c;
  EYE_left := EYE_left c;
  EYE_right := EYE_right c
|}.

(** The calls a client makes on a calibrator, and a run of them. *)
Inductive call : Type :=
| CallAddSample (focalLength : option Q) (now : Q)
| CallGetCalibrated (now : Q)
| CallReset.

Definition step (c : t) (k : call) : t :=
  match k with
  | CallAddSample f now => snd (addSample c f now)
  | CallGetCalibrated now => snd (getCalibratedFocalLength c now)
  | CallReset => reset c
  end.

Definition run (c : t) (ks : list call) : t := fold_left step ks c.

(** The three reasons for which [getCalibratedFocalLength] rejects, in the
    words of its specification. *)
Definition tooFewSamples (c : t) : Prop :=
  (length (samples c) < minSamples c)%nat.
Definition averageOutOfRange (c : t) (now : Q) : Prop :=
  weightedAverage c now < 500 \/ 3000 < weightedAverage c now.
Definition varianceTooHigh (c : t) : Prop :=
  10000 < _calculateVariance c.

(** A stored calibration, when there is one, is a plausible focal length. *)
Definition storedInRange (c : t) : Prop :=
  match calibratedFocal c with
  | Some f => 500 <= f /\ f <= 3000
  | None => True
  end.

End WithMath.

(** *** Example inputs *)


(** A calibrator after eight samples of 900 pixels, 100 ms apart. *)
Definition eightSamples : t :=
  run new (map (fun k => CallAddSample (Some 900) (inject_Z (Z.of_nat k) * 100))
               (seq 0 8)).

(** *** The status report, and the samples of a run *)

(** [getStatus()] at clock reading [now]. *)
Record status : Type := mkStatus {
  st_samples : nat;
  st_maxSamples : nat;
  st_minSamples : nat;
  st_calibrated : bool;
  st_focalLength : option Q;
  st_stable : bool;
  st_variance : Q
}.

Definition getStatus (c : t) (now : Q) : status := {|
  st_samples := length (samples c);
  st_maxSamples := maxSamples c;
  st_minSamples := minSamples c;
  st_calibrated := truthy (calibratedFocal c);
  st_focalLength := calibratedFocal c;
  st_stable := isStable c now;
  st_variance := _calculateVariance c
|}.

(** The samples a run of calls has had accepted since its latest
    [reset()], oldest first: every [addSample] of a truthy focal length
    adds one. *)
Definition acceptedStep (acc : list sample) (k : call) : list sample :=
  match k with
  | CallAddSample f now =>
    if truthy f then acc ++ [mkSample (or_default f 0) now] else acc
  | CallGetCalibrated _ => acc
  | CallReset => []
  end.

Definition acceptedSamples (ks : list call) : list sample :=
  fold_left acceptedStep ks [].


End CameraCalibrator.

(** ** ProfessionalFaceTracker.js: the calibration step *)

(** The tracker that owns the calibrator calls it from one place,
    [_attemptCalibration], on every frame while its calibration state is
    ['CALIBRATING']. *)
Module ProfessionalFaceTracker.
Import JS.

Inductive calibrationState : Type :=
| LOADING
| CALIBRATING
| CALIBRATED.

(** [this.cameraIntrinsics], once calibrated. *)
Record intrinsics : Type := mkIntrinsics {
  in_focalLength : Q;
  in_cx : Q;
  in_cy : Q;
  in_width : Q;
  in_height : Q
}.

(** The part of the tracker the calibration step reads and writes. *)
Record t : Type := mkTracker {
  calibrator : CameraCalibrator.t;
  cameraIntrinsics : option intrinsics;
  calibration : calibrationState
}.

(** The constructor's values, once the profile lookup has found nothing
    and set the state to ['CALIBRATING']. *)
Definition calibrating : t := {|
  calibrator := CameraCalibrator.new;
  cameraIntrinsics := None;
  calibration := CALIBRATING
|}.

Section WithMath.
Context {M : MathEnv}.

(** [_attemptCalibration(landmarks)] for a video of the given size, with
    [now_add] and [now_get] the clock readings of [addSample] and of
    [getCalibratedFocalLength]. Saving the profile, informing the pose
    estimator and the progress callbacks are outside the model. *)
Definition _attemptCalibration (s : t) (ls : option landmarks)
    (videoWidth videoHeight now_add now_get : Q) : t :=
  let focal :=
    CameraCalibrator.estimateFocalLength (calibrator s) ls videoWidth in
  if truthy focal then
    let '(_, c1) := CameraCalibrator.addSample (calibrator s) focal now_add in
    let '(calibrated, c2) :=
      CameraCalibrator.getCalibratedFocalLength c1 now_get in
    if truthy calibrated then
      {| calibrator := c2;
         cameraIntrinsics :=
           Some (mkIntrinsics (or_default calibrated 0) (videoWidth / 2)
                              (videoHeight / 2) videoWidth videoHeight);
         calibration := CALIBRATED |}
    else
      {| calibrator := c2;
         cameraIntrinsics := cameraIntrinsics s;
         calibration := calibration s |}
  else s.

(** A frame of the tracker, as far as calibration goes: the landmarks and
    the video size, with the two clock readings. *)
Record frame : Type := mkFrame {
  fr_landmarks : option landmarks;
  fr_width : Q;
  fr_height : Q;
  fr_now_add : Q;
  fr_now_get : Q
}.

(** The calibration step of the frame handler. *)
Definition calibrationStep (s : t) (f : frame) : t :=
  match calibration s with
  | CALIBRATING =>
    _attemptCalibration s (fr_landmarks f) (fr_width f) (fr_height f)
                        (fr_now_add f) (fr_now_get f)
  | _ => s
  end.

End WithMath.

End ProfessionalFaceTracker.

(** ** TrackingQualityMonitor.js *)

Module TrackingQualityMonitor.
Import JS.

(** [QUALITY_THRESHOLDS]. *)
Definition QUALITY_excellent : Q := 9 # 10.
Definition QUALITY_good : Q := 75 # 100.
Definition QUALITY_acceptable : Q := 5 # 10.
Definition QUALITY_poor : Q := 3 # 10.
Definition QUALITY_critical : Q := 15 # 100.

(** [TRACKING_STATES]. *)
Inductive trackingState : Type :=
| INITIALIZING
| TRACKING_EXCELLENT
| TRACKING_GOOD
| TRACKING_ACCEPTABLE
| TRACKING_POOR
| RECOVERING
| LOST
| ERROR.

Definition trackingState_eqb (a b : trackingState) : bool :=
  match a, b with
  | INITIALIZING, INITIALIZING
  | TRACKING_EXCELLENT, TRACKING_EXCELLENT
  | TRACKING_GOOD, TRACKING_GOOD
  | TRACKING_ACCEPTABLE, TRACKING_ACCEPTABLE
  | TRACKING_POOR, TRACKING_POOR
  | RECOVERING, RECOVERING
  | LOST, LOST
  | ERROR, ERROR => true
  | _, _ => false
  end.

(** [RECOVERY_STRATEGIES]. *)
Inductive strategy : Type :=
| NONE
| REINITIALIZE
| RESET_FILTERS
| ADJUST_THRESHOLDS
| REDUCE_QUALITY
| FULL_RESET.

(** *** QualityMetric *)

Record QualityMetric : Type := mkMetric {
  weight : Q;
  historySize : nat;
  threshold : Q;
  history : list Q;
  current : Q;
  average : Q;
  trend : Q
}.

(** [new QualityMetric(name, { weight, threshold })]. *)
Definition newMetric (w th : option Q) : QualityMetric := {|
  weight := or_default w 1;
  historySize := 30;
  threshold := or_default th (1 # 2);
  history := [];
  current := 0;
  average := 0;
  trend := 0
|}.

Definition ofNat (n : nat) : Q := inject_Z (Z.of_nat n).

(** [history.reduce((a, b, i) => a + i * b, 0)]. *)
Fixpoint sumIndexed (i : nat) (xs : list Q) (acc : Q) : Q :=
  match xs with
  | [] => acc
  | b :: rest => sumIndexed (S i) rest (acc + ofNat i * b)
  end.

(** The regression slope [update] stores as the trend. *)
Definition slope (h : list Q) : Q :=
  let n := ofNat (length h) in
  let sumX := n * (n - 1) / 2 in
  let sumY := sum h in
  let sumXY := sumIndexed 0 h 0 in
  let sumX2 := n * (n - 1) * (2 * n - 1) / 6 in
  (n * sumXY - sumX * sumY) / (n * sumX2 - sumX * sumX).

(** [QualityMetric.update(value)]. *)
Definition metricUpdate (m : QualityMetric) (v : Q) : QualityMetric :=
  let pushed := history m ++ [v] in
  let h := if (historySize m <? length pushed)%nat then tl pushed else pushed in
  {| weight := weight m;
     historySize := historySize m;
     threshold := threshold m;
     history := h;
     current := v;
     average := sum h / ofNat (length h);
     trend := if (5 <=? length h)%nat then slope h else trend m |}.

Definition isBelowThreshold (m : QualityMetric) : bool :=
  ltb (current m) (threshold m).

Definition getWeightedScore (m : QualityMetric) : Q := current m * weight m.

Definition metricReset (m : QualityMetric) : QualityMetric := {|
  weight := weight m;
  historySize := historySize m;
  threshold := threshold m;
  history := [];
  current := 0;
  average := 0;
  trend := 0
|}.

(** *** The monitor's configuration, metrics and state *)

(** [this.config]. A callback field says whether a function is registered
    under that name. *)
Record config : Type := mkConfig {
  excellentThreshold : Q;
  goodThreshold : Q;
  acceptableThreshold : Q;
  poorThreshold : Q;
  criticalThreshold : Q;
  recoveryEnabled : bool;
  recoveryDelay : Q;
  maxRecoveryAttempts : Q;
  recoveryCooldown : Q;
  predictionEnabled : bool;
  predictionWindow : Q;
  onQualityChange : bool;
  onStateChange : bool;
  onRecoveryAttempt : bool;
  onTrackingLost : bool;
  onTrackingRecovered : bool
}.

(** The constructor's [options]. *)
Record options : Type := mkOptions {
  opt_excellentThreshold : option Q;
  opt_goodThreshold : option Q;
  opt_acceptableThreshold : option Q;
  opt_poorThreshold : option Q;
  opt_criticalThreshold : option Q;
  opt_recoveryEnabled : option bool;
  opt_recoveryDelay : option Q;
  opt_maxRecoveryAttempts : option Q;
  opt_recoveryCooldown : option Q;
  opt_predictionEnabled : option bool;
  opt_predictionWindow : option Q;
  opt_onQualityChange : bool;
  opt_onStateChange : bool;
  opt_onRecoveryAttempt : bool;
  opt_onTrackingLost : bool;
  opt_onTrackingRecovered : bool
}.

(** [options.flag !== false]. *)
Definition notFalse (o : option bool) : bool :=
  match o with
  | Some false => false
  | _ => true
  end.

Definition makeConfig (o : options) : config := {|
  excellentThreshold := or_default (opt_excellentThreshold o) QUALITY_excellent;
  goodThreshold := or_default (opt_goodThreshold o) QUALITY_good;
  acceptableThreshold := or_default (opt_acceptableThreshold o) QUALITY_acceptable;
  poorThreshold := or_default (opt_poorThreshold o) QUALITY_poor;
  criticalThreshold := or_default (opt_criticalThreshold o) QUALITY_critical;
  recoveryEnabled := notFalse (opt_recoveryEnabled o);
  recoveryDelay := or_default (opt_recoveryDelay o) 500;
  maxRecoveryAttempts := or_default (opt_maxRecoveryAttempts o) 3;
  recoveryCooldown := or_default (opt_recoveryCooldown o) 2000;
  predictionEnabled := notFalse (opt_predictionEnabled o);
  predictionWindow := or_default (opt_predictionWindow o) 10;
  onQualityChange := opt_onQualityChange o;
  onStateChange := opt_onStateChange o;
  onRecoveryAttempt := opt_onRecoveryAttempt o;
  onTrackingLost := opt_onTrackingLost o;
  onTrackingRecovered := opt_onTrackingRecovered o
|}.

(** No option given, every callback registered. *)
Definition listeningOptions : options := {|
  opt_excellentThreshold := None;
  opt_goodThreshold := None;
  opt_acceptableThreshold := None;
  opt_poorThreshold := None;
  opt_criticalThreshold := None;
  opt_recoveryEnabled := None;
  opt_recoveryDelay := None;
  opt_maxRecoveryAttempts := None;
  opt_recoveryCooldown := None;
  opt_predictionEnabled := None;
  opt_predictionWindow := None;
  opt_onQualityChange := true;
  opt_onStateChange := true;
  opt_onRecoveryAttempt := true;
  opt_onTrackingLost := true;
  opt_onTrackingRecovered := true
|}.

(** [this.metrics], in the order [Object.values] lists them. *)
Record metricSet : Type := mkMetrics {
  landmarkConfidence : QualityMetric;
  poseStability : QualityMetric;
  reprojectionError : QualityMetric;
  faceVisibility : QualityMetric;
  motionConsistency : QualityMetric;
  occlusionLevel : QualityMetric
}.

Definition metricValues (ms : metricSet) : list QualityMetric :=
  [landmarkConfidence ms; poseStability ms; reprojectionError ms;
   faceVisibility ms; motionConsistency ms; occlusionLevel ms].

Definition mapMetrics (f : QualityMetric -> QualityMetric) (ms : metricSet)
  : metricSet := {|
  landmarkConfidence := f (landmarkConfidence ms);
  poseStability := f (poseStability ms);
  reprojectionError := f (reprojectionError ms);
  faceVisibility := f (faceVisibility ms);
  motionConsistency := f (motionConsistency ms);
  occlusionLevel := f (occlusionLevel ms)
|}.

Definition newMetrics : metricSet := {|
  landmarkConfidence := newMetric (Some (25 # 100)) (Some (6 # 10));
  poseStability := newMetric (Some (2 # 10)) (Some (5 # 10));
  reprojectionError := newMetric (Some (15 # 100)) (Some (7 # 10));
  faceVisibility := newMetric (Some (2 # 10)) (Some (7 # 10));
  motionConsistency := newMetric (Some (1 # 10)) (Some (5 # 10));
  occlusionLevel := newMetric (Some (1 # 10)) (Some (6 # 10))
|}.

Record t : Type := mkMonitor {
  cfg : config;
  metrics : metricSet;
  state : trackingState;
  previousState : option trackingState;
  overallQuality : Q;
  qualityHistory : list Q;
  recoveryAttempts : nat;
  lastRecoveryTime : Q;
  recoveryInProgress : bool;
  lossStartTime : option Q;
  lossDuration : Q;
  predictedLoss : bool;
  frameCount : nat;
  lastFrameTime : Q;
  fps : Q
}.

(** [new TrackingQualityMonitor(options)]. *)
Definition new (o : options) : t := {|
  cfg := makeConfig o;
  metrics := newMetrics;
  state := INITIALIZING;
  previousState := None;
  overallQuality := 0;
  qualityHistory := [];
  recoveryAttempts := 0;
  lastRecoveryTime := 0;
  recoveryInProgress := false;
  lossStartTime := None;
  lossDuration := 0;
  predictedLoss := false;
  frameCount := 0;
  lastFrameTime := 0;
  fps := 0
|}.

(** The tracking result [update] is given; a field is [None] when the
    property is [undefined]. *)
Record trackingData : Type := mkTrackingData {
  td_confidence : option Q;
  td_poseStability : option Q;
  td_velocity : option (Q * Q * Q);
  td_reprojectionError : option xnum;
  td_faceVisibility : option Q;
  td_occlusionLevel : option Q;
  td_landmarks : option landmarks
}.

(** *** Callbacks *)

(** A call of [_triggerCallback(name, data)]: the name and the data. *)
Inductive callback : Type :=
| OnTrackingLost
| OnTrackingRecovered
| OnStateChange (from to : trackingState)
| OnQualityChange (quality : Q)
| OnRecoveryAttempt (attempt : nat) (s : strategy).

(** A firing: the trigger, and the clock reading in force when it is
    made (the value of the last [performance.now()] before it). *)
Record firing : Type := mkFiring {
  firedAt : Q;
  fired : callback
}.

(** Whether a function is registered for a trigger: [_triggerCallback]
    invokes it exactly then. *)
Definition registered (c : config) (cb : callback) : bool :=
  match cb with
  | OnTrackingLost => onTrackingLost c
  | OnTrackingRecovered => onTrackingRecovered c
  | OnStateChange _ _ => onStateChange c
  | OnQualityChange _ => onQualityChange c
  | OnRecoveryAttempt _ _ => onRecoveryAttempt c
  end.

(** *** Metric estimation *)

Section WithMath.
Context {M : MathEnv}.

(** [_estimatePoseStability(trackingData)]. *)
Definition _estimatePoseStability (d : trackingData) : Q :=
  match td_velocity d with
  | Some (vx, vy, vz) => max 0 (1 - hypot3 vx vy vz / 100)
  | None => 7 # 10
  end.

(** [_estimateFaceVisibility(trackingData)]: [None] when the loop reads
    [lm.x] of an [undefined] entry, which throws. *)
Definition inFrame (l : landmark) : bool :=
  leb 0 (lm_x l) && leb (lm_x l) 1 && leb 0 (lm_y l) && leb (lm_y l) 1.

Fixpoint countVisible (ls : landmarks) (visibleCount : nat) : option nat :=
  match ls with
  | [] => Some visibleCount
  | None :: _ => None
  | Some l :: rest =>
    countVisible rest (if inFrame l then S visibleCount else visibleCount)
  end.

Definition _estimateFaceVisibility (d : trackingData) : option Q :=
  match td_landmarks d with
  | None => Some 0
  | Some ls =>
    match countVisible ls 0 with
    | Some visibleCount => Some (ofNat visibleCount / ofNat (length ls))
    | None => None
    end
  end.

(** [_calculateVariance(arr)]. *)
Definition _calculateVariance (arr : list Q) : Q :=
  match arr with
  | [] => 0
  | _ =>
    let mean := sum arr / ofNat (length arr) in
    sum (map (fun b => (b - mean) * (b - mean)) arr) / ofNat (length arr)
  end.

(** [arr.slice(-k)]. *)
Definition lastN {A : Type} (k : nat) (xs : list A) : list A :=
  skipn (length xs - k) xs.

(** [_estimateMotionConsistency(trackingData)]. *)
Definition _estimateMotionConsistency (qualityHistory : list Q) : Q :=
  if (length qualityHistory <? 3)%nat then 1
  else max 0 (1 - _calculateVariance (lastN 5 qualityHistory) * 5).

(** [_estimateOcclusion(trackingData)]. *)
Definition occluded (e : option landmark) : bool :=
  match e with
  | None => true
  | Some l =>
    match lm_presence l with
    | Some p => ltb p (1 # 2)
    | None => false
    end
  end.

Definition _estimateOcclusion (d : trackingData) : Q :=
  match td_landmarks d with
  | None => 1
  | Some ls =>
    ofNat (length (filter occluded ls)) / ofNat (length ls)
  end.

(** [_updateMetrics(trackingData)]: the metrics after the call, and whether
    the call returned ([false]: it threw in [_estimateFaceVisibility],
    after the first three metrics were updated). *)
Definition _updateMetrics (qualityHistory : list Q) (ms : metricSet)
    (data : option trackingData) : metricSet * bool :=
  match data with
  | None => (mapMetrics (fun m => metricUpdate m 0) ms, true)
  | Some d =>
    let lc :=
      match td_confidence d with
      | Some c => metricUpdate (landmarkConfidence ms) c
      | None => landmarkConfidence ms
      end in
    let ps :=
      match td_poseStability d with
      | Some v => metricUpdate (poseStability ms) v
      | None => metricUpdate (poseStability ms) (_estimatePoseStability d)
      end in
    let re :=
      match td_reprojectionError d with
      | Some e => metricUpdate (reprojectionError ms) (unitScore e)
      | None => reprojectionError ms
      end in
    let visibility :=
      match td_faceVisibility d with
      | Some v => Some v
      | None => _estimateFaceVisibility d
      end in
    match visibility with
    | None =>
      ({| landmarkConfidence := lc;
          poseStability := ps;
          reprojectionError := re;
          faceVisibility := faceVisibility ms;
          motionConsistency := motionConsistency ms;
          occlusionLevel := occlusionLevel ms |}, false)
    | Some v =>
      let occlusion :=
        match td_occlusionLevel d with
        | Some o => o
        | None => _estimateOcclusion d
        end in
      ({| landmarkConfidence := lc;
          poseStability := ps;
          reprojectionError := re;
          faceVisibility := metricUpdate (faceVisibility ms) v;
          motionConsistency :=
            metricUpdate (motionConsistency ms)
                         (_estimateMotionConsistency qualityHistory);
          occlusionLevel := metricUpdate (occlusionLevel ms) (1 - occlusion) |},
       true)
    end
  end.

End WithMath.

(** *** Quality, state and recovery *)

(** [_calculateOverallQuality()]: the value it stores. *)
Definition weightedTotals (ms : list QualityMetric) : Q * Q :=
  fold_left
    (fun acc m => (fst acc + getWeightedScore m, snd acc + weight m))
    ms (0, 0).

Definition _calculateOverallQuality (ms : metricSet) : Q :=
  let '(weightedSum, totalWeight) := weightedTotals (metricValues ms) in
  if ltb 0 totalWeight then weightedSum / totalWeight else 0.

(** The state [_updateState] selects for a quality. *)
Definition selectState (c : config) (q : Q) : trackingState :=
  if leb (excellentThreshold c) q then TRACKING_EXCELLENT
  else if leb (goodThreshold c) q then TRACKING_GOOD
  else if leb (acceptableThreshold c) q then TRACKING_ACCEPTABLE
  else if leb (poorThreshold c) q then TRACKING_POOR
  else if leb (criticalThreshold c) q then RECOVERING
  else LOST.

(** The clock readings an [update] call may take: at its start, in
    [_handleStateChange] when the state becomes [LOST], and in
    [_attemptRecovery]. *)
Record clock : Type := mkClock {
  now_update : Q;
  now_stateChange : Q;
  now_recovery : Q
}.

(** [_handleStateChange(from, to)]. *)
Definition _handleStateChange (m : t) (from to : trackingState) (clk : clock)
  : t * list firing :=
  let entersLost :=
    trackingState_eqb to LOST && negb (trackingState_eqb from LOST) in
  let leavesLost :=
    trackingState_eqb from LOST && negb (trackingState_eqb to LOST) in
  let at_ := if entersLost then now_stateChange clk else now_update clk in
  ({| cfg := cfg m;
      metrics := metrics m;
      state := state m;
      previousState := Some from;
      overallQuality := overallQuality m;
      qualityHistory := qualityHistory m;
      recoveryAttempts := if leavesLost then 0%nat else recoveryAttempts m;
      lastRecoveryTime := lastRecoveryTime m;
      recoveryInProgress := recoveryInProgress m;
      lossStartTime :=
        if leavesLost then None
        else if entersLost then Some (now_stateChange clk)
        else lossStartTime m;
      lossDuration := if leavesLost then 0 else lossDuration m;
      predictedLoss := predictedLoss m;
      frameCount := frameCount m;
      lastFrameTime := lastFrameTime m;
      fps := fps m |},
   (if entersLost then [mkFiring at_ OnTrackingLost] else [])
   ++ (if leavesLost then [mkFiring at_ OnTrackingRecovered] else [])
   ++ [mkFiring at_ (OnStateChange from to);
       mkFiring at_ (OnQualityChange (overallQuality m))]).

(** [_updateState()]. *)
Definition _updateState (m : t) (clk : clock) : t * list firing :=
  let previous := state m in
  let next := selectState (cfg m) (overallQuality m) in
  let m1 := {|
    cfg := cfg m;
    metrics := metrics m;
    state := next;
    previousState := previousState m;
    overallQuality := overallQuality m;
    qualityHistory := qualityHistory m;
    recoveryAttempts := recoveryAttempts m;
    lastRecoveryTime := lastRecoveryTime m;
    recoveryInProgress := recoveryInProgress m;
    lossStartTime := lossStartTime m;
    lossDuration := lossDuration m;
    predictedLoss := predictedLoss m;
    frameCount := frameCount m;
    lastFrameTime := lastFrameTime m;
    fps := fps m |} in
  if trackingState_eqb previous next then (m1, [])
  else _handleStateChange m1 previous next clk.

(** [_predictLoss()]: the flag it stores. *)
Definition _predictLoss (m : t) : bool :=
  let decliningCount :=
    length (filter (fun mt => ltb (trend mt) (- (1 # 100)))
                   (metricValues (metrics m))) in
  (3 <=? decliningCount)%nat
  && ltb (overallQuality m) (goodThreshold (cfg m)).

(** [_determineRecoveryStrategy()]. *)
Definition _determineRecoveryStrategy (m : t) : strategy :=
  let ms := metrics m in
  if isBelowThreshold (landmarkConfidence ms)
     && isBelowThreshold (faceVisibility ms) then REDUCE_QUALITY
  else if isBelowThreshold (poseStability ms) then RESET_FILTERS
  else if isBelowThreshold (reprojectionError ms) then ADJUST_THRESHOLDS
  else if (2 <=? recoveryAttempts m)%nat then FULL_RESET
  else REINITIALIZE.

(** The monitor with the recovery fields replaced. *)
Definition withRecovery (m : t) (duration : Q) (inProgress : bool)
    (attempts : nat) (lastTime : Q) : t := {|
  cfg := cfg m;
  metrics := metrics m;
  state := state m;
  previousState := previousState m;
  overallQuality := overallQuality m;
  qualityHistory := qualityHistory m;
  recoveryAttempts := attempts;
  lastRecoveryTime := lastTime;
  recoveryInProgress := inProgress;
  lossStartTime := lossStartTime m;
  lossDuration := duration;
  predictedLoss := predictedLoss m;
  frameCount := frameCount m;
  lastFrameTime := lastFrameTime m;
  fps := fps m
|}.

(** [_attemptRecovery()], with [now] the reading of its
    [performance.now()]. *)
Definition _attemptRecovery (m : t) (now : Q) : t * list firing :=
  let duration :=
    match lossStartTime m with
    | Some t0 => if truthy (Some t0) then now - t0 else lossDuration m
    | None => lossDuration m
    end in
  let m1 := withRecovery m duration (recoveryInProgress m)
                         (recoveryAttempts m) (lastRecoveryTime m) in
  if ltb duration (recoveryDelay (cfg m)) then (m1, [])
  else if recoveryInProgress m then (m1, [])
  else if leb (maxRecoveryAttempts (cfg m)) (ofNat (recoveryAttempts m))
  then (m1, [])
  else if ltb (now - lastRecoveryTime m) (recoveryCooldown (cfg m))
  then (m1, [])
  else
    match _determineRecoveryStrategy m1 with
    | NONE => (m1, [])
    | s =>
      (withRecovery m duration true (S (recoveryAttempts m)) now,
       [mkFiring now (OnRecoveryAttempt (S (recoveryAttempts m)) s)])
    end.

(** [_getAssessment()]. *)
Record assessment : Type := mkAssessment {
  a_quality : Q;
  a_state : trackingState;
  a_previousState : option trackingState;
  a_isTracking : bool;
  a_isRecovering : bool;
  a_isLost : bool;
  a_predictedLoss : bool;
  a_lossDuration : Q;
  a_recoveryAttempts : nat;
  a_recommendedStrategy : strategy;
  a_frameCount : nat;
  a_fps : Q
}.

Definition _getAssessment (m : t) : assessment := {|
  a_quality := overallQuality m;
  a_state := state m;
  a_previousState := previousState m;
  a_isTracking :=
    negb (trackingState_eqb (state m) LOST)
    && negb (trackingState_eqb (state m) ERROR);
  a_isRecovering := trackingState_eqb (state m) RECOVERING;
  a_isLost := trackingState_eqb (state m) LOST;
  a_predictedLoss := predictedLoss m;
  a_lossDuration := lossDuration m;
  a_recoveryAttempts := recoveryAttempts m;
  a_recommendedStrategy :=
    if trackingState_eqb (state m) LOST then _determineRecoveryStrategy m
    else NONE;
  a_frameCount := frameCount m;
  a_fps := fps m
|}.

(** The monitor with the frame counters, metrics, quality and quality
    history replaced. *)
Definition withFrame (m : t) (ms : metricSet) (quality : Q) (qh : list Q)
    (predicted : bool) (count : nat) (frameTime fps' : Q) : t := {|
  cfg := cfg m;
  metrics := ms;
  state := state m;
  previousState := previousState m;
  overallQuality := quality;
  qualityHistory := qh;
  recoveryAttempts := recoveryAttempts m;
  lastRecoveryTime := lastRecoveryTime m;
  recoveryInProgress := recoveryInProgress m;
  lossStartTime := lossStartTime m;
  lossDuration := lossDuration m;
  predictedLoss := predicted;
  frameCount := count;
  lastFrameTime := frameTime;
  fps := fps'
|}.

Section WithMath.
Context {M : MathEnv}.

(** [update(trackingData)]: the assessment it returns ([None] when it
    throws), the monitor afterwards, and the callbacks it triggered, in
    order. *)
Definition update (m : t) (data : option trackingData) (clk : clock)
  : option assessment * t * list firing :=
  let now := now_update clk in
  let fps' :=
    if ltb 0 (lastFrameTime m) then 1000 / (now - lastFrameTime m) else fps m in
  let '(ms, returned) := _updateMetrics (qualityHistory m) (metrics m) data in
  if negb returned then
    (None,
     withFrame m ms (overallQuality m) (qualityHistory m) (predictedLoss m)
               (S (frameCount m)) now fps',
     [])
  else
    let m1 := withFrame m ms (_calculateOverallQuality ms) (qualityHistory m)
                        (predictedLoss m) (S (frameCount m)) now fps' in
    let '(m2, fired1) := _updateState m1 clk in
    let m3 :=
      if predictionEnabled (cfg m2) then
        withFrame m2 (metrics m2) (overallQuality m2) (qualityHistory m2)
                  (_predictLoss m2) (frameCount m2) (lastFrameTime m2) (fps m2)
      else m2 in
    let '(m4, fired2) :=
      if recoveryEnabled (cfg m3) && trackingState_eqb (state m3) LOST
      then _attemptRecovery m3 (now_recovery clk)
      else (m3, []) in
    let pushed := qualityHistory m4 ++ [overallQuality m4] in
    let qh := if (100 <? length pushed)%nat then tl pushed else pushed in
    let m5 := withFrame m4 (metrics m4) (overallQuality m4) qh
                        (predictedLoss m4) (frameCount m4) (lastFrameTime m4)
                        (fps m4) in
    (Some (_getAssessment m5), m5, fired1 ++ fired2).

End WithMath.

(** [recoveryComplete(success)]. *)
Definition recoveryComplete (m : t) (success : bool) : t := {|
  cfg := cfg m;
  metrics := metrics m;
  state := state m;
  previousState := previousState m;
  overallQuality := overallQuality m;
  qualityHistory := qualityHistory m;
  recoveryAttempts := if success then 0%nat else recoveryAttempts m;
  lastRecoveryTime := lastRecoveryTime m;
  recoveryInProgress := false;
  lossStartTime := if success then None else lossStartTime m;
  lossDuration := if success then 0 else lossDuration m;
  predictedLoss := predictedLoss m;
  frameCount := frameCount m;
  lastFrameTime := lastFrameTime m;
  fps := fps m
|}.

(** [reset()]. *)
Definition reset (m : t) : t := {|
  cfg := cfg m;
  metrics := mapMetrics metricReset (metrics m);
  state := INITIALIZING;
  previousState := None;
  overallQuality := 0;
  qualityHistory := [];
  recoveryAttempts := 0;
  lastRecoveryTime := 0;
  recoveryInProgress := false;
  lossStartTime := None;
  lossDuration := 0;
  predictedLoss := false;
  frameCount := 0;
  lastFrameTime := lastFrameTime m;
  fps := fps m
|}.

(** *** Executions *)

(** The calls a client makes on a monitor. *)
Inductive call : Type :=
| CallUpdate (data : option trackingData) (clk : clock)
| CallRecoveryComplete (success : bool)
| CallReset.

(** What an execution leaves in its log: the callbacks triggered, and the
    [recoveryComplete] and [reset] calls made. *)
Inductive item : Type :=
| Fired (f : firing)
| Completed (success : bool)
| WasReset.

Section WithMath.
Context {M : MathEnv}.

(** One call: the monitor afterwards and the items it adds, oldest
    first. *)
Definition step (m : t) (k : call) : t * list item :=
  match k with
  | CallUpdate data clk =>
    let '(_, m', fs) := update m data clk in (m', map Fired fs)
  | CallRecoveryComplete success =>
    (recoveryComplete m success, [Completed success])
  | CallReset => (reset m, [WasReset])
  end.

(** A run of calls from monitor [m] with log [log]. The log is kept most
    recent first. *)
Fixpoint runFrom (m : t) (log : list item) (ks : list call) : t * list item :=
  match ks with
  | [] => (m, log)
  | k :: rest =>
    let '(m', added) := step m k in
    runFrom m' (rev added ++ log) rest
  end.

Definition run (m : t) (ks : list call) : t * list item := runFrom m [] ks.

End WithMath.

(** *** Reading a log (most recent first) *)

(** How often [onTrackingLost] was triggered. *)
Definition isTrackingLost (i : item) : bool :=
  match i with
  | Fired (mkFiring _ OnTrackingLost) => true
  | _ => false
  end.

Definition countTrackingLost (log : list item) : nat :=
  length (filter isTrackingLost log).

(** The time of the latest entry into [LOST], provided that since then
    the state has not changed, the monitor has not been reset and no
    recovery has been reported successful. *)
Fixpoint lostSince (log : list item) : option Q :=
  match log with
  | [] => None
  | Fired (mkFiring t0 OnTrackingLost) :: _ => Some t0
  | Fired (mkFiring _ (OnStateChange _ LOST)) :: older => lostSince older
  | Fired (mkFiring _ (OnStateChange _ _)) :: _ => None
  | Fired (mkFiring _ OnTrackingRecovered) :: _ => None
  | Completed true :: _ => None
  | WasReset :: _ => None
  | _ :: older => lostSince older
  end.

(** The number of recovery attempts since the latest recovery: a
    transition out of [LOST], a [recoveryComplete(true)], or (when
    [resets] is set) a [reset()]. *)
Fixpoint attemptsSince (resets : bool) (log : list item) : nat :=
  match log with
  | [] => 0
  | Fired (mkFiring _ (OnRecoveryAttempt _ _)) :: older =>
    S (attemptsSince resets older)
  | Fired (mkFiring _ OnTrackingRecovered) :: _ => 0
  | Completed true :: _ => 0
  | WasReset :: older => if resets then 0%nat else attemptsSince resets older
  | _ :: older => attemptsSince resets older
  end.

(** The time of the latest recovery attempt; when [resets] is set, only
    attempts after the latest [reset()] count. *)
Fixpoint lastAttempt (resets : bool) (log : list item) : option Q :=
  match log with
  | [] => None
  | Fired (mkFiring t (OnRecoveryAttempt _ _)) :: _ => Some t
  | WasReset :: older => if resets then None else lastAttempt resets older
  | _ :: older => lastAttempt resets older
  end.

(** The three guards of a recovery attempt triggered at time [now], read
    against the log [older] of what happened before it. *)
Definition dwelt (c : config) (now : Q) (older : list item) : Prop :=
  exists t0, lostSince older = Some t0 /\ recoveryDelay c <= now - t0.

Definition belowMaximum (resets : bool) (c : config) (older : list item)
  : Prop :=
  ofNat (attemptsSince resets older) < maxRecoveryAttempts c.

Definition cooledDown (resets : bool) (c : config) (now : Q)
    (older : list item) : Prop :=
  match lastAttempt resets older with
  | Some t' => recoveryCooldown c <= now - t'
  | None => True
  end.

(** Every recovery attempt of a log passed the three guards. *)
Fixpoint attemptsGuarded (resets : bool) (c : config) (log : list item)
  : Prop :=
  match log with
  | [] => True
  | i :: older =>
    match i with
    | Fired (mkFiring now (OnRecoveryAttempt _ _)) =>
      dwelt c now older
      /\ belowMaximum resets c older
      /\ cooledDown resets c now older
    | _ => True
    end
    /\ attemptsGuarded resets c older
  end.

(** Logs and runs without a [reset()]. *)
Definition isReset (i : item) : bool :=
  match i with
  | WasReset => true
  | _ => false
  end.

Definition callIsReset (k : call) : bool :=
  match k with
  | CallReset => true
  | _ => false
  end.

Definition noReset (log : list item) : Prop :=
  forallb (fun i => negb (isReset i)) log = true.

Definition resetFree (ks : list call) : Prop :=
  forallb (fun k => negb (callIsReset k)) ks = true.

(** The fields of a monitor that guard recovery, as the log determines
    them: the invariant of every execution. *)
Definition consistent (c : config) (m : t) (log : list item) : Prop :=
  cfg m = c
  /\ lossStartTime m = lostSince log
  /\ (state m <> LOST -> lossStartTime m = None)
  /\ (truthy (lossStartTime m) = false -> lossDuration m = 0)
  /\ recoveryAttempts m = attemptsSince true log
  /\ lastRecoveryTime m
     = match lastAttempt true log with Some t' => t' | None => 0 end.

Definition isAttempt (f : firing) : bool :=
  match fired f with
  | OnRecoveryAttempt _ _ => true
  | _ => false
  end.

(** A run in which the monitor is reset between two losses: frames
    without data at 1000 ms and 3000 ms, [reset()], frames without data
    at 3100 ms and 3700 ms. *)
Definition at_ (ms : Q) : clock := mkClock ms ms ms.

Definition resetRun : list call :=
  [CallUpdate None (at_ 1000); CallUpdate None (at_ 3000);
   CallReset;
   CallUpdate None (at_ 3100); CallUpdate None (at_ 3700)].

(** The recovery attempts of a log, oldest first: time and number. *)
Definition attemptsOf (log : list item) : list (Q * nat) :=
  rev (flat_map
         (fun i =>
            match i with
            | Fired (mkFiring t0 (OnRecoveryAttempt n _)) => [(t0, n)]
            | _ => []
            end)
         log).

(** A frame whose metrics make the overall quality exactly 0.75 on a
    fresh monitor: the motion-consistency metric is 1 there, the five
    others are 13/18. *)
Definition boundaryFrame : trackingData := {|
  td_confidence := Some (13 # 18);
  td_poseStability := Some (13 # 18);
  td_velocity := None;
  td_reprojectionError := Some (Fin (250 # 18));
  td_faceVisibility := Some (13 # 18);
  td_occlusionLevel := Some (5 # 18);
  td_landmarks := None
|}.

(** *** The state for a quality, in the words of the specification *)

Definition stateOfQuality (q : Q) : trackingState :=
  if leb (9 # 10) q then TRACKING_EXCELLENT
  else if leb (75 # 100) q then TRACKING_GOOD
  else if leb (5 # 10) q then TRACKING_ACCEPTABLE
  else if leb (3 # 10) q then TRACKING_POOR
  else if leb (15 # 100) q then RECOVERING
  else LOST.

Definition defaultThresholds (c : config) : Prop :=
  excellentThreshold c = QUALITY_excellent
  /\ goodThreshold c = QUALITY_good
  /\ acceptableThreshold c = QUALITY_acceptable
  /\ poorThreshold c = QUALITY_poor
  /\ criticalThreshold c = QUALITY_critical.

Definition positiveThresholds (c : config) : Prop :=
  0 < excellentThreshold c
  /\ 0 < goodThreshold c
  /\ 0 < acceptableThreshold c
  /\ 0 < poorThreshold c
  /\ 0 < criticalThreshold c.

(** *** The getters *)

(** [xs.slice(start)] for an integer [start]: a negative one counts from
    the end of the array. *)
Definition sliceFrom {A : Type} (start : Z) (xs : list A) : list A :=
  if (start <? 0)%Z then skipn (length xs - Z.to_nat (- start)) xs
  else skipn (Z.to_nat start) xs.

(** [getQualityHistory(count)] for an integer count; [None] is the call
    without argument, with the default of 30. *)
Definition getQualityHistory (m : t) (count : option Z) : list Q :=
  let count := match count with Some n => n | None => 30%Z end in
  sliceFrom (- count) (qualityHistory m).

Definition getState (m : t) : trackingState := state m.

Definition getQuality (m : t) : Q := overallQuality m.

Definition isTrackingGood (m : t) : bool :=
  leb (goodThreshold (cfg m)) (overallQuality m).

Definition isTrackingAcceptable (m : t) : bool :=
  leb (acceptableThreshold (cfg m)) (overallQuality m).

(** What [getRecommendedAction()] returns: a recovery strategy, or one of
    the strings ['stabilize'], ['improve_conditions'], ['continue']. *)
Inductive action : Type :=
| Recover (s : strategy)
| Stabilize
| ImproveConditions
| Continue.

Definition getRecommendedAction (m : t) : action :=
  if trackingState_eqb (state m) LOST then Recover (_determineRecoveryStrategy m)
  else if predictedLoss m then Stabilize
  else if trackingState_eqb (state m) TRACKING_POOR then ImproveConditions
  else Continue.

(** *** More readings of a log and of a run *)

Definition isTrackingRecovered (i : item) : bool :=
  match i with
  | Fired (mkFiring _ OnTrackingRecovered) => true
  | _ => false
  end.

Definition countTrackingRecovered (log : list item) : nat :=
  length (filter isTrackingRecovered log).

Definition isAttemptItem (i : item) : bool :=
  match i with
  | Fired f => isAttempt f
  | _ => false
  end.

Definition countAttempts (log : list item) : nat :=
  length (filter isAttemptItem log).

(** Whether the latest of the [onTrackingLost] and [onTrackingRecovered]
    triggers since the latest [reset()] is an [onTrackingLost]. *)
Fixpoint lostOpen (log : list item) : bool :=
  match log with
  | [] => false
  | Fired (mkFiring _ OnTrackingLost) :: _ => true
  | Fired (mkFiring _ OnTrackingRecovered) :: _ => false
  | WasReset :: _ => false
  | _ :: older => lostOpen older
  end.

(** The two triggers alternate: a loss is reported only when none is
    open, a recovery only when one is. *)
Fixpoint alternating (log : list item) : Prop :=
  match log with
  | [] => True
  | i :: older =>
    match i with
    | Fired (mkFiring _ OnTrackingLost) => lostOpen older = false
    | Fired (mkFiring _ OnTrackingRecovered) => lostOpen older = true
    | _ => True
    end
    /\ alternating older
  end.

(** Whether a recovery attempt has been triggered since the latest
    [recoveryComplete] or [reset()]. *)
Fixpoint pendingAttempt (log : list item) : bool :=
  match log with
  | [] => false
  | Fired f :: older => isAttempt f || pendingAttempt older
  | Completed _ :: _ => false
  | WasReset :: _ => false
  end.

(** No recovery attempt is triggered while an earlier one is pending. *)
Fixpoint attemptsAcknowledged (log : list item) : Prop :=
  match log with
  | [] => True
  | i :: older =>
    (isAttemptItem i = true -> pendingAttempt older = false)
    /\ attemptsAcknowledged older
  end.

(** The number of [update] calls of a run since its latest [reset()]. *)
Definition framesStep (n : nat) (k : call) : nat :=
  match k with
  | CallUpdate _ _ => S n
  | CallRecoveryComplete _ => n
  | CallReset => 0%nat
  end.

Definition framesSinceReset (ks : list call) : nat :=
  fold_left framesStep ks 0%nat.

(** Runs that consist of [update] calls only. *)
Definition callIsUpdate (k : call) : bool :=
  match k with
  | CallUpdate _ _ => true
  | _ => false
  end.

Definition updatesOnly (ks : list call) : Prop :=
  forallb callIsUpdate ks = true.

(** Tracking data whose scores are scores: the confidence, stability,
    visibility and occlusion given lie in [0, 1], the reprojection error is
    not negative, and the landmark array, if there is one, is not empty. *)
Definition unitInterval (q : Q) : Prop := 0 <= q /\ q <= 1.

Definition optUnit (o : option Q) : Prop :=
  match o with
  | Some q => unitInterval q
  | None => True
  end.

Definition plausible (d : trackingData) : Prop :=
  optUnit (td_confidence d)
  /\ optUnit (td_poseStability d)
  /\ match td_reprojectionError d with
     | Some (Fin e) => 0 <= e
     | _ => True
     end
  /\ optUnit (td_faceVisibility d)
  /\ optUnit (td_occlusionLevel d)
  /\ td_landmarks d <> Some [].

Definition plausibleCall (k : call) : Prop :=
  match k with
  | CallUpdate (Some d) _ => plausible d
  | _ => True
  end.

(** The metrics of a monitor all hold a current value in [0, 1] and a
    weight that is not negative. *)
Definition unitMetrics (ms : metricSet) : Prop :=
  Forall (fun mt => unitInterval (current mt) /\ 0 <= weight mt)
         (metricValues ms).



(** Five frames without data, 1500 ms apart. *)
Definition lostRun : list call :=
  [CallUpdate None (at_ 1000); CallUpdate None (at_ 2500);
   CallUpdate None (at_ 4000); CallUpdate None (at_ 5500);
   CallUpdate None (at_ 7000)].

(** A frame of a face well inside the image and fully detected. *)
Definition goodFrame : trackingData := {|
  td_confidence := Some (95 # 100);
  td_poseStability := None;
  td_velocity := Some (3, 4, 0);
  td_reprojectionError := Some (Fin 2);
  td_faceVisibility := None;
  td_occlusionLevel := None;
  td_landmarks :=
    Some [Some (mkLandmark (1 # 2) (1 # 2) 0 None);
          Some (mkLandmark (1 # 4) (3 # 4) 0 (Some (9 # 10)))]
|}.

End TrackingQualityMonitor.

(** ** AdvancedPoseEstimator.js *)

Module AdvancedPoseEstimator.
Import JS Three.

(** *** The canonical face model *)

(** [CANONICAL_FACE_MODEL.vertices], by triples (millimetres). *)
Definition CANONICAL_vertices : list Vector3 := [
  mkVector3 (325 # 10) (85 # 10) (85 # 10);
  mkVector3 0 (- (52 # 10)) (185 # 10);
  mkVector3 0 (- 55) 5;
  mkVector3 (- (325 # 10)) (85 # 10) (85 # 10);
  mkVector3 24 (- 30) 10;
  mkVector3 (- 24) (- 30) 10;
  mkVector3 40 20 6;
  mkVector3 (- 40) 20 6;
  mkVector3 0 35 8;
  mkVector3 0 5 10;
  mkVector3 75 (- 5) (- 5);
  mkVector3 (- 75) (- 5) (- 5);
  mkVector3 (125 # 10) (85 # 10) 10;
  mkVector3 (- (125 # 10)) (85 # 10) 10;
  mkVector3 12 (- 15) 15;
  mkVector3 (- 12) (- 15) 15;
  mkVector3 50 (- 10) 10;
  mkVector3 (- 50) (- 10) 10;
  mkVector3 45 (- 45) 0;
  mkVector3 (- 45) (- 45) 0;
  mkVector3 0 (- 25) 12;
  mkVector3 0 (- 35) 10
].

(** [CANONICAL_FACE_MODEL.landmarkToModel], as written. *)
Definition landmarkToModel : list (nat * nat) := [
  (33, 0); (1, 1); (152, 2); (263, 3); (61, 4); (291, 5); (70, 6);
  (300, 7); (10, 8); (6, 9); (234, 10); (454, 11); (133, 12); (362, 13);
  (98, 14); (327, 15); (50, 16); (280, 17); (172, 18); (397, 19);
  (13, 20); (14, 21)
]%nat.

(** [Object.entries] of an object with integer keys lists them in
    ascending order of the key. *)
Fixpoint insertEntry (e : nat * nat) (es : list (nat * nat))
  : list (nat * nat) :=
  match es with
  | [] => [e]
  | e' :: rest =>
    if (fst e <=? fst e')%nat then e :: es else e' :: insertEntry e rest
  end.

Definition entries (o : list (nat * nat)) : list (nat * nat) :=
  fold_right insertEntry [] o.

Record FaceModel3D : Type := mkFaceModel {
  vertices : list Vector3;
  landmarkIndices : list nat
}.

(** [new FaceModel3D()]. *)
Definition newFaceModel : FaceModel3D := {|
  vertices :=
    map (fun e => nth (snd e) CANONICAL_vertices (mkVector3 0 0 0))
        (entries landmarkToModel);
  landmarkIndices := map fst (entries landmarkToModel)
|}.

(** *** CameraIntrinsics *)

Record CameraIntrinsics : Type := mkCamera {
  width : Q;
  height : Q;
  focalLength : Q;
  cx : Q;
  cy : Q
}.

(** [new CameraIntrinsics(width, height, focalLength)]. *)
Definition newCamera (w h : Q) (f : option Q) : CameraIntrinsics := {|
  width := w;
  height := h;
  focalLength := or_default f (max w h);
  cx := w / 2;
  cy := h / 2
|}.

(** [camera.update(width, height, focalLength)]. *)
Definition cameraUpdate (c : CameraIntrinsics) (w h : Q) (f : option Q)
  : CameraIntrinsics := {|
  width := w;
  height := h;
  focalLength := or_default f (focalLength c);
  cx := w / 2;
  cy := h / 2
|}.

Record point2 : Type := mkPoint2 {
  p_x : Q;
  p_y : Q
}.

(** [camera.project(point3D)]. *)
Definition project (c : CameraIntrinsics) (p : Vector3) : option point2 :=
  let z := v_z p in
  if leb z 0 then None
  else Some (mkPoint2 (focalLength c * v_x p / z + cx c)
                      (focalLength c * v_y p / z + cy c)).


(** *** Correspondences *)

Record correspondence : Type := mkCorrespondence {
  image : point2;
  model : Vector3;
  landmarkIdx : nat
}.

(** [Number.isFinite] of a coordinate: the numbers of the model are
    finite. *)
Definition isFinite (q : Q) : bool := true.

(** [_buildCorrespondences(landmarks, width, height)]. *)
Fixpoint buildLoop (ls : landmarks) (w h : Q)
    (indices : list nat) (modelVertices : list Vector3)
  : list correspondence :=
  match indices, modelVertices with
  | landmarkIdx :: indices', v :: vertices' =>
    match landmarkAt ls landmarkIdx with
    | Some l =>
      if isFinite (lm_x l) && isFinite (lm_y l) then
        mkCorrespondence (mkPoint2 (lm_x l * w) (lm_y l * h)) v landmarkIdx
        :: buildLoop ls w h indices' vertices'
      else buildLoop ls w h indices' vertices'
    | None => buildLoop ls w h indices' vertices'
    end
  | _, _ => []
  end.

Definition _buildCorrespondences (fm : FaceModel3D) (ls : landmarks) (w h : Q)
  : list correspondence :=
  buildLoop ls w h (landmarkIndices fm) (vertices fm).


(** *** RANSAC *)

Record RANSAC : Type := mkRANSAC {
  maxIterations : nat;
  inlierThreshold : Q;
  minInliers : nat
}.

(** [o || d] for a count. *)
Definition nat_or_default (o : option nat) (d : nat) : nat :=
  match o with
  | Some 0%nat | None => d
  | Some n => n
  end.

(** [new RANSAC(options)]. *)
Definition newRANSAC (iterations : option nat) (thresholdPx : option Q)
    (inliers : option nat) : RANSAC := {|
  maxIterations := nat_or_default iterations 100;
  inlierThreshold := or_default thresholdPx 10;
  minInliers := nat_or_default inliers 6
|}.

(** [indices.splice(idx, 1)]: the list without its element [idx]. *)
Fixpoint removeAt {A : Type} (idx : nat) (xs : list A) : list A :=
  match idx, xs with
  | _, [] => []
  | O, _ :: rest => rest
  | S i, x :: rest => x :: removeAt i rest
  end.

(** [_randomSample(n, k)], drawing from [rand] at draw [d] on: the sample
    and the next draw. A draw is a number in [0, 1), so the index
    [Math.floor(Math.random() * indices.length)] is within range. *)
Fixpoint sampleLoop (rand : randomSource) (d k : nat) (indices sample : list nat)
  : list nat * nat :=
  match k with
  | O => (sample, d)
  | S k' =>
    match indices with
    | [] => (sample, d)
    | _ =>
      let idx := Z.to_nat (Qfloor (rand d * ofNatQ (length indices))) in
      sampleLoop rand (S d) k' (removeAt idx indices)
                 (sample ++ [nth idx indices 0%nat])
    end
  end.

Definition _randomSample (rand : randomSource) (d n k : nat) : list nat * nat :=
  sampleLoop rand d k (seq 0 n) [].

(** The triangle test of [_isValidSample] on three image points. *)
Definition area (a b c : point2) : Q :=
  abs ((p_x b - p_x a) * (p_y c - p_y a) - (p_x c - p_x a) * (p_y b - p_y a)).

(** Whether some triple of the points, in the order of the three nested
    loops, has an area below 100. *)
Fixpoint pairsCollinear (a b : point2) (rest : list point2) : bool :=
  match rest with
  | [] => false
  | c :: rest' => ltb (area a b c) 100 || pairsCollinear a b rest'
  end.

Fixpoint fromCollinear (a : point2) (rest : list point2) : bool :=
  match rest with
  | [] => false
  | b :: rest' => pairsCollinear a b rest' || fromCollinear a rest'
  end.

Fixpoint anyCollinear (points : list point2) : bool :=
  match points with
  | [] => false
  | a :: rest => fromCollinear a rest || anyCollinear rest
  end.

Definition noCorrespondence : correspondence :=
  mkCorrespondence (mkPoint2 0 0) (mkVector3 0 0 0) 0.

(** [_isValidSample(correspondences, sample)]. *)
Definition _isValidSample (cs : list correspondence) (sample : list nat) : bool :=
  if (length sample <? 3)%nat then true
  else negb (anyCollinear (map (fun i => image (nth i cs noCorrespondence)) sample)).

Section WithMath.
Context {M : MathEnv}.

(** The inner loop of [findInliers]: the indices of the points whose
    projection lies within the threshold of their image point, and the sum
    of their errors. *)
Fixpoint scoreLoop (threshold : Q) (projectFn : Vector3 -> option point2)
    (i : nat) (cs : list correspondence) (inliers : list nat) (totalError : Q)
  : list nat * Q :=
  match cs with
  | [] => (inliers, totalError)
  | c :: rest =>
    match projectFn (model c) with
    | Some projected =>
      let error := hypot (p_x projected - p_x (image c))
                         (p_y projected - p_y (image c)) in
      if ltb error threshold
      then scoreLoop threshold projectFn (S i) rest (inliers ++ [i])
                     (totalError + error)
      else scoreLoop threshold projectFn (S i) rest inliers totalError
    | None => scoreLoop threshold projectFn (S i) rest inliers totalError
    end
  end.

Definition scoreInliers (threshold : Q) (projectFn : Vector3 -> option point2)
    (cs : list correspondence) : list nat * Q :=
  scoreLoop threshold projectFn 0 cs [] 0.

(** [totalError < bestError], the latter [Infinity] at first. *)
Definition belowBest (totalError : Q) (bestError : xnum) : bool :=
  match bestError with
  | Fin b => ltb totalError b
  | Infinity => true
  end.

(** The iterations of [findInliers]: the best inliers and the next draw. *)
Fixpoint ransacLoop (r : RANSAC) (rand : randomSource)
    (projectFn : Vector3 -> option point2) (cs : list correspondence)
    (iterations d : nat) (bestInliers : list nat) (bestError : xnum)
  : list nat * nat :=
  match iterations with
  | O => (bestInliers, d)
  | S iterations' =>
    let n := length cs in
    let '(sample, d') := _randomSample rand d n 4 in
    if negb (_isValidSample cs sample)
    then ransacLoop r rand projectFn cs iterations' d' bestInliers bestError
    else
      let '(inliers, totalError) := scoreInliers (inlierThreshold r) projectFn cs in
      let better :=
        (length bestInliers <? length inliers)%nat
        || ((length inliers =? length bestInliers)%nat
            && belowBest totalError bestError) in
      let bestInliers' := if better then inliers else bestInliers in
      let bestError' := if better then Fin totalError else bestError in
      if leb (ofNatQ n * (8 # 10)) (ofNatQ (length bestInliers'))
      then (bestInliers', d')
      else ransacLoop r rand projectFn cs iterations' d' bestInliers' bestError'
  end.

(** [findInliers(correspondences, projectFn)]: the inlier indices and the
    next draw. *)
Definition findInliers (r : RANSAC) (rand : randomSource) (d : nat)
    (cs : list correspondence) (projectFn : Vector3 -> option point2)
  : list nat * nat :=
  let n := length cs in
  if (n <? minInliers r)%nat then (seq 0 n, d)
  else
    let '(bestInliers, d') :=
      ransacLoop r rand projectFn cs (maxIterations r) d [] Infinity in
    (if (minInliers r <=? length bestInliers)%nat then bestInliers else seq 0 n,
     d').

End WithMath.

(** *** Pose solving *)

Definition triple : Type := (Q * Q * Q)%type.

Record pose : Type := mkPose {
  rotation : triple;
  translation : triple;
  quaternion : Quaternion;
  euler : Euler
}.

Definition tiny : Q := 1 # 10000000000.
Definition eps : Q := 1 # 1000000.
Definition tolerance : Q := 1 # 1000000.

Section WithEnv.
Context {M : MathEnv} {T : ThreeEnv}.

(** The two rows [_initialEstimateDLT] adds for a correspondence. *)
Definition dltRows (c : CameraIntrinsics) (k : correspondence) : list (list Q) :=
  let x := v_x (model k) in
  let y := v_y (model k) in
  let z := v_z (model k) in
  let un := (p_x (image k) - cx c) / focalLength c in
  let vn := (p_y (image k) - cy c) / focalLength c in
  [[x; y; z; 1; 0; 0; 0; 0; - un * x; - un * y; - un * z; - un];
   [0; 0; 0; 0; x; y; z; 1; - vn * x; - vn * y; - vn * z; - vn]].

Definition at12 (v : list Q) (i : nat) : Q := nth i v 0.

(** One power iteration of [_solveSVD]: [None] when the norm vanishes. *)
Definition powerStep (ATA : list (list Q)) (v : list Q) : option (list Q) :=
  let vNew :=
    map (fun row =>
           fold_left (fun acc j => fround (acc + at12 row j * at12 v j))
                     (seq 0 12) 0)
        ATA in
  let norm := sqrt (fold_left (fun acc x => acc + x * x) vNew 0) in
  if ltb norm tiny then None
  else Some (map (fun x => fround (x / norm)) vNew).

Fixpoint powerLoop (ATA : list (list Q)) (iterations : nat) (v : list Q)
  : option (list Q) :=
  match iterations with
  | O => Some v
  | S iterations' =>
    match powerStep ATA v with
    | Some v' => powerLoop ATA iterations' v'
    | None => None
    end
  end.

(** [_solveSVD(A)], drawing the start vector from [rand] at draw [d] on. *)
Definition _solveSVD (A : list (list Q)) (rand : randomSource) (d : nat)
  : option (list Q) * nat :=
  let ATA :=
    map (fun i =>
           map (fun j =>
                  fround (fold_left (fun acc row => acc + at12 row i * at12 row j)
                                    A 0))
               (seq 0 12))
        (seq 0 12) in
  let v := map (fun i => fround (rand (d + i)%nat - (1 # 2))) (seq 0 12) in
  (powerLoop ATA 100 v, (d + 12)%nat).

(** [_decomposePoseMatrix(pose)]. *)
Definition _decomposePoseMatrix (p : list Q) : option pose :=
  let r00 := at12 p 0 in let r01 := at12 p 1 in let r02 := at12 p 2 in
  let r10 := at12 p 4 in let r11 := at12 p 5 in let r12 := at12 p 6 in
  let r20 := at12 p 8 in let r21 := at12 p 9 in let r22 := at12 p 10 in
  let tx := at12 p 3 in let ty := at12 p 7 in let tz := at12 p 11 in
  let scale := sqrt (r00 * r00 + r10 * r10 + r20 * r20) in
  if ltb scale tiny then None
  else
    let q := setFromRotationMatrix
               [r00 / scale; r01 / scale; r02 / scale;
                r10 / scale; r11 / scale; r12 / scale;
                r20 / scale; r21 / scale; r22 / scale] in
    let e := eulerFromQuaternion q in
    let angle := 2 * acos (q_w q) in
    let rot :=
      if ltb eps angle then
        let s := sin (angle / 2) in
        (q_x q / s * angle, q_y q / s * angle, q_z q / s * angle)
      else (0, 0, 0) in
    Some {| rotation := rot;
            translation := (tx / scale, ty / scale, tz / scale);
            quaternion := q;
            euler := e |}.

(** [_initialEstimateDLT(correspondences)]. *)
Definition _initialEstimateDLT (c : CameraIntrinsics) (cs : list correspondence)
    (rand : randomSource) (d : nat) : option pose * nat :=
  let A := flat_map (dltRows c) cs in
  match _solveSVD A rand d with
  | (Some p, d') => (_decomposePoseMatrix p, d')
  | (None, d') => (None, d')
  end.

(** A model point under a pose: rotated, then translated. *)
Definition transform (q : Quaternion) (t : triple) (v : Vector3) : Vector3 :=
  let r := applyQuaternion v q in
  let '(tx, ty, tz) := t in
  mkVector3 (v_x r + tx) (v_y r + ty) (v_z r + tz).

(** [_perturbPose(pose, paramIndex, eps)] (the object it returns has no
    [rotation]; the model keeps the pose's). *)
Definition _perturbPose (p : pose) (paramIndex : nat) (e : Q) : pose :=
  let '(tx, ty, tz) := translation p in
  let eu := euler p in
  let eu' :=
    match paramIndex with
    | 0%nat => mkEuler (e_x eu + e) (e_y eu) (e_z eu)
    | 1%nat => mkEuler (e_x eu) (e_y eu + e) (e_z eu)
    | 2%nat => mkEuler (e_x eu) (e_y eu) (e_z eu + e)
    | _ => eu
    end in
  let t' :=
    match paramIndex with
    | 3%nat => (tx + e, ty, tz)
    | 4%nat => (tx, ty + e, tz)
    | 5%nat => (tx, ty, tz + e)
    | _ => (tx, ty, tz)
    end in
  {| rotation := rotation p;
     translation := t';
     quaternion := quaternionFromEuler eu';
     euler := eu' |}.

(** The row of the Jacobian for a correspondence whose projection is
    [projected]: two entries per pose parameter, zeros where the perturbed
    point has no projection. *)
Definition jacobianRow (c : CameraIntrinsics) (p : pose) (k : correspondence)
    (projected : point2) : list Q :=
  flat_map
    (fun param =>
       let posePlus := _perturbPose p param eps in
       match project c (transform (quaternion posePlus) (translation posePlus)
                                  (model k)) with
       | Some projectedPlus =>
         [(p_x projectedPlus - p_x projected) / eps;
          (p_y projectedPlus - p_y projected) / eps]
       | None => [0; 0]
       end)
    (seq 0 6).

(** [_computeJacobian(pose, correspondences)]: [J] and [r]. *)
Fixpoint _computeJacobian (c : CameraIntrinsics) (p : pose)
    (cs : list correspondence) : list (list Q) * list Q :=
  match cs with
  | [] => ([], [])
  | k :: rest =>
    let '(J, r) := _computeJacobian c p rest in
    match project c (transform (quaternion p) (translation p) (model k)) with
    | None => (J, r)
    | Some projected =>
      (jacobianRow c p k projected :: J,
       (p_x (image k) - p_x projected) :: (p_y (image k) - p_y projected) :: r)
    end
  end.

(** [array[i] = v]. *)
Fixpoint setAt (i : nat) (v : Q) (xs : list Q) : list Q :=
  match i, xs with
  | _, [] => []
  | O, _ :: rest => v :: rest
  | S i', x :: rest => x :: setAt i' v rest
  end.

(** The accumulation of [J^T J] and [J^T r] in [_solveNormalEquations],
    row by row of [J], each store rounded. *)
Fixpoint normalSums (J : list (list Q)) (r : list Q)
    (JTJ : list (list Q)) (JTr : list Q) : list (list Q) * list Q :=
  match J with
  | [] => (JTJ, JTr)
  | row :: J' =>
    let r0 := nth 0 r 0 in
    let r1 := nth 1 r 0 in
    let JTJ' :=
      map (fun j =>
             map (fun k =>
                    fround (at12 (nth j JTJ []) k
                            + (at12 row (j * 2) * at12 row (k * 2)
                               + at12 row (j * 2 + 1) * at12 row (k * 2 + 1))))
                 (seq 0 6))
          (seq 0 6) in
    let JTr' :=
      map (fun j =>
             fround (at12 JTr j
                     + (at12 row (j * 2) * r0 + at12 row (j * 2 + 1) * r1)))
          (seq 0 6) in
    normalSums J' (skipn 2 r) JTJ' JTr'
  end.

(** One Gauss-Seidel sweep over the six unknowns. *)
Definition sweep (JTJ : list (list Q)) (JTr delta : list Q) : list Q :=
  fold_left
    (fun dl i =>
       let s :=
         fold_left
           (fun acc j =>
              if (i =? j)%nat then acc
              else acc - at12 (nth i JTJ []) j * at12 dl j)
           (seq 0 6) (at12 JTr i) in
       setAt i (fround (s / (at12 (nth i JTJ []) i + tiny))) dl)
    (seq 0 6) delta.

Fixpoint sweeps (n : nat) (JTJ : list (list Q)) (JTr delta : list Q) : list Q :=
  match n with
  | O => delta
  | S n' => sweeps n' JTJ JTr (sweep JTJ JTr delta)
  end.

(** [_solveNormalEquations(J, r)]. *)
Definition _solveNormalEquations (J : list (list Q)) (r : list Q) : list Q :=
  let zero6 := repeat 0 6 in
  let '(JTJ, JTr) := normalSums J r (repeat zero6 6) zero6 in
  sweeps 50 JTJ JTr zero6.

(** [_updatePose(pose, delta)]. *)
Definition _updatePose (p : pose) (delta : list Q) : pose :=
  let eu := mkEuler (e_x (euler p) + at12 delta 0)
                    (e_y (euler p) + at12 delta 1)
                    (e_z (euler p) + at12 delta 2) in
  let '(tx, ty, tz) := translation p in
  {| rotation := (e_x eu, e_y eu, e_z eu);
     translation := (tx + at12 delta 3, ty + at12 delta 4, tz + at12 delta 5);
     quaternion := quaternionFromEuler eu;
     euler := eu |}.

(** [_iterativeRefinement(pose, correspondences)]. *)
Fixpoint refineLoop (c : CameraIntrinsics) (cs : list correspondence)
    (iterations : nat) (currentPose : pose) : pose :=
  match iterations with
  | O => currentPose
  | S iterations' =>
    let '(J, r) := _computeJacobian c currentPose cs in
    let delta := _solveNormalEquations J r in
    let next := _updatePose currentPose delta in
    let deltaNorm := sqrt (fold_left (fun acc dl => acc + dl * dl) delta 0) in
    if ltb deltaNorm tolerance then next
    else refineLoop c cs iterations' next
  end.

Definition _iterativeRefinement (c : CameraIntrinsics) (p : pose)
    (cs : list correspondence) : pose :=
  refineLoop c cs 10 p.

(** [_solvePnP(correspondences)]. *)
Definition _solvePnP (c : CameraIntrinsics) (cs : list correspondence)
    (rand : randomSource) (d : nat) : option pose * nat :=
  if (length cs <? 4)%nat then (None, d)
  else
    match _initialEstimateDLT c cs rand d with
    | (Some initialPose, d') => (Some (_iterativeRefinement c initialPose cs), d')
    | (None, d') => (None, d')
    end.

(** The loop of [_calculateReprojectionError]: the sum of the errors of the
    points that project, and their number. *)
Fixpoint errorLoop (c : CameraIntrinsics) (p : pose) (cs : list correspondence)
    (totalError : Q) (count : nat) : Q * nat :=
  match cs with
  | [] => (totalError, count)
  | k :: rest =>
    match project c (transform (quaternion p) (translation p) (model k)) with
    | Some projected =>
      let error := hypot (p_x (image k) - p_x projected)
                         (p_y (image k) - p_y projected) in
      errorLoop c p rest (totalError + error) (S count)
    | None => errorLoop c p rest totalError count
    end
  end.

(** [_calculateReprojectionError(pose, correspondences)]. *)
Definition _calculateReprojectionError (c : CameraIntrinsics) (p : pose)
    (cs : list correspondence) : xnum :=
  let '(totalError, count) := errorLoop c p cs 0 0 in
  if (0 <? count)%nat then Fin (totalError / ofNatQ count) else Infinity.

End WithEnv.

(** *** Reading the solver's loops *)

Section WithEnv.
Context {M : MathEnv} {T : ThreeEnv}.

(** Whether a model point lies in front of the camera under a pose. *)
Definition inFront (p : pose) (k : correspondence) : bool :=
  ltb 0 (v_z (transform (quaternion p) (translation p) (model k))).



End WithEnv.

(** *** The estimator *)

Record result : Type := mkResult {
  r_rotation : triple;
  r_translation : triple;
  r_quaternion : Quaternion;
  r_euler : Euler;
  r_reprojectionError : xnum;
  r_confidence : Q;
  r_inlierRatio : Q;
  r_timestamp : Q
}.

Record t : Type := mkEstimator {
  useRANSAC : bool;
  refinePose : bool;
  faceModel : FaceModel3D;
  camera : CameraIntrinsics;
  ransac : RANSAC;
  previousPose : option result;
  poseHistory : list result;
  maxHistoryLength : nat
}.

(** [new AdvancedPoseEstimator(options)]. *)
Definition new (optRANSAC optRefine : option bool) (r : RANSAC) : t := {|
  useRANSAC := match optRANSAC with Some false => false | _ => true end;
  refinePose := match optRefine with Some false => false | _ => true end;
  faceModel := newFaceModel;
  camera := newCamera 640 480 None;
  ransac := r;
  previousPose := None;
  poseHistory := [];
  maxHistoryLength := 10
|}.

Definition withCamera (e : t) (c : CameraIntrinsics) : t := {|
  useRANSAC := useRANSAC e;
  refinePose := refinePose e;
  faceModel := faceModel e;
  camera := c;
  ransac := ransac e;
  previousPose := previousPose e;
  poseHistory := poseHistory e;
  maxHistoryLength := maxHistoryLength e
|}.

(** [_updateHistory(pose)]. *)
Definition _updateHistory (e : t) (r : result) : t :=
  let pushed := poseHistory e ++ [r] in
  {| useRANSAC := useRANSAC e;
     refinePose := refinePose e;
     faceModel := faceModel e;
     camera := camera e;
     ransac := ransac e;
     previousPose := Some r;
     poseHistory :=
       if (maxHistoryLength e <? length pushed)%nat then tl pushed else pushed;
     maxHistoryLength := maxHistoryLength e |}.

(** The camera [estimate] works with: updated when the frame's dimensions
    differ from the camera's. *)
Definition frameCamera (e : t) (optWidth optHeight : option Q) : CameraIntrinsics :=
  let w := or_default optWidth (width (camera e)) in
  let h := or_default optHeight (height (camera e)) in
  if negb (Qeq_bool w (width (camera e))) || negb (Qeq_bool h (height (camera e)))
  then cameraUpdate (camera e) w h None
  else camera e.

(** The correspondences [estimate] builds for a frame. *)
Definition frameCorrespondences (e : t) (ls : landmarks)
    (optWidth optHeight : option Q) : list correspondence :=
  _buildCorrespondences (faceModel e) ls
    (or_default optWidth (width (camera e)))
    (or_default optHeight (height (camera e))).

Section WithEnv.
Context {M : MathEnv} {T : ThreeEnv}.

(** [estimate(landmarks, { width, height })] at clock reading [now], with
    the random source at draw [d]: the result ([None] for [null]), the
    estimator afterwards and the next draw. *)
Definition estimate (e : t) (ls : option landmarks)
    (optWidth optHeight : option Q) (now : Q) (rand : randomSource) (d : nat)
  : option result * t * nat :=
  match ls with
  | None => (None, e, d)
  | Some [] => (None, e, d)
  | Some ls =>
    let cam := frameCamera e optWidth optHeight in
    let e1 := withCamera e cam in
    let correspondences := frameCorrespondences e ls optWidth optHeight in
    if (length correspondences <? 6)%nat then (None, e1, d)
    else
      let '(inlierIndices, d1) :=
        if useRANSAC e
        then findInliers (ransac e) rand d correspondences (project cam)
        else (seq 0 (length correspondences), d) in
      let inlierCorrespondences :=
        map (fun i => nth i correspondences noCorrespondence) inlierIndices in
      match _solvePnP cam inlierCorrespondences rand d1 with
      | (None, d2) => (None, e1, d2)
      | (Some p, d2) =>
        let reprojectionError :=
          _calculateReprojectionError cam p correspondences in
        let r := {|
          r_rotation := rotation p;
          r_translation := translation p;
          r_quaternion := quaternion p;
          r_euler := euler p;
          r_reprojectionError := reprojectionError;
          r_confidence := unitScore reprojectionError;
          r_inlierRatio :=
            ofNatQ (length inlierIndices) / ofNatQ (length correspondences);
          r_timestamp := now |} in
        (Some r, _updateHistory e1 r, d2)
      end
  end.

End WithEnv.

(** [reset()]. *)
Definition reset (e : t) : t := {|
  useRANSAC := useRANSAC e;
  refinePose := refinePose e;
  faceModel := faceModel e;
  camera := camera e;
  ransac := ransac e;
  previousPose := None;
  poseHistory := [];
  maxHistoryLength := maxHistoryLength e
|}.

(** [setCameraIntrinsics(width, height, focalLength)]. *)
Definition setCameraIntrinsics (e : t) (w h : Q) (f : option Q) : t :=
  withCamera e (cameraUpdate (camera e) w h f).

Section WithMath.
Context {M : MathEnv}.


End WithMath.

(** *** Executions *)

(** The calls a client makes on an estimator. *)
Inductive call : Type :=
| CallEstimate (ls : option landmarks) (optWidth optHeight : option Q) (now : Q)
| CallSetCamera (w h : Q) (f : option Q)
| CallReset.

Section WithEnv.
Context {M : MathEnv} {T : ThreeEnv}.

(** One call, on an estimator with the random source at draw [d]. *)
Definition step (rand : randomSource) (s : t * nat) (k : call) : t * nat :=
  let '(e, d) := s in
  match k with
  | CallEstimate ls optWidth optHeight now =>
    let '(_, e', d') := estimate e ls optWidth optHeight now rand d in (e', d')
  | CallSetCamera w h f => (setCameraIntrinsics e w h f, d)
  | CallReset => (reset e, d)
  end.

Definition run (rand : randomSource) (e : t) (ks : list call) : t * nat :=
  fold_left (step rand) ks (e, 0%nat).

End WithEnv.

(** A camera whose principal point is the centre of its image. *)
Definition centred (c : CameraIntrinsics) : Prop :=
  cx c == width c / 2 /\ cy c == height c / 2.

(** Whether a call sets the focal length: [setCameraIntrinsics] with a
    truthy third argument. *)
Definition setsFocalLength (k : call) : bool :=
  match k with
  | CallSetCamera _ _ f => truthy f
  | _ => false
  end.

(** The newest entry of a history. *)
Definition newest {A : Type} (xs : list A) : option A :=
  match rev xs with
  | [] => None
  | x :: _ => Some x
  end.

(** *** Example frames *)

(** The landmarks of a face seen frontally: every mapped landmark is the
    projection, by a 640x480 camera of focal length 640, of its canonical
    vertex moved by [offset]; the other landmarks are missing. *)
Definition landmarkOf (offset : triple) (v : Vector3) : landmark :=
  let '(tx, ty, tz) := offset in
  mkLandmark ((640 * (v_x v + tx) / (v_z v + tz) + 320) / 640)
             ((640 * (v_y v + ty) / (v_z v + tz) + 240) / 480)
             0 None.

Fixpoint placeLandmarks (offset : triple) (indices : list nat)
    (vs : list Vector3) (i n : nat) : landmarks :=
  match n with
  | O => []
  | S n' =>
    match indices, vs with
    | idx :: indices', v :: vs' =>
      if (i =? idx)%nat
      then Some (landmarkOf offset v)
           :: placeLandmarks offset indices' vs' (S i) n'
      else None :: placeLandmarks offset indices vs (S i) n'
    | _, _ => None :: placeLandmarks offset indices vs (S i) n'
    end
  end.

Definition frontalFace (offset : triple) : landmarks :=
  placeLandmarks offset (landmarkIndices newFaceModel) (vertices newFaceModel)
                 0 478.

(** The same face with one landmark (the nose tip, landmark 1) moved by
    half the image width. *)
Definition withOutlier (ls : landmarks) : landmarks :=
  match ls with
  | l0 :: Some l1 :: rest =>
    l0 :: Some (mkLandmark (lm_x l1 + (1 # 2)) (lm_y l1) (lm_z l1) None) :: rest
  | _ => ls
  end.


(** A face of which eight were: landmarks 1, 6, 10, 13, 14, 33, 50, 61. *)
Definition eightPoints (offset : triple) : landmarks :=
  firstn 62 (frontalFace offset).

(** A face of which six were, seen from 10 mm. *)
Definition sixPoints : landmarks := firstn 34 (frontalFace (0, 0, 10)).

(** The estimator the tracker constructs. *)
Definition defaultEstimator : t := new None None (newRANSAC None None None).

(** A vertex moved by an offset, and the pixel a 640x480 camera of focal
    length 640 sees it at. *)
Definition moved (offset : triple) (v : Vector3) : Vector3 :=
  let '(tx, ty, tz) := offset in
  mkVector3 (v_x v + tx) (v_y v + ty) (v_z v + tz).

(** Whether the image point of a correspondence is, exactly, the
    projection of its model point moved by [offset], shifted by [dx]
    pixels to the right. *)
Definition seenAt (c : CameraIntrinsics) (offset : triple) (dx : Q)
    (k : correspondence) : bool :=
  match project c (moved offset (model k)) with
  | Some uv =>
    Qeq_bool (p_x (image k)) (p_x uv + dx) && Qeq_bool (p_y (image k)) (p_y uv)
  | None => false
  end.

(** A random source: a fixed cycle of draws in [0, 1). *)
Definition cycle (k : nat) : Q :=
  ofNatQ ((k * 7 + 3) mod 16) / 16.

End AdvancedPoseEstimator.

(** ** ProductionStabilizer.js *)

Module ProductionStabilizer.
Import JS Three.

(** *** The scalar filters *)

(** [LowPassFilter]. *)
Record LowPassFilter : Type := mkLowPass {
  lp_x : option Q
}.

Definition lowPassFilter (f : LowPassFilter) (x alpha : Q) : Q * LowPassFilter :=
  match lp_x f with
  | None => (x, mkLowPass (Some x))
  | Some prev =>
    let y := alpha * x + (1 - alpha) * prev in
    (y, mkLowPass (Some y))
  end.

(** [OneEuroFilter]. *)
Record OneEuroFilter : Type := mkOneEuro {
  minCutoff : Q;
  beta : Q;
  dCutoff : Q;
  oe_x : option Q;
  oe_dx : Q;
  lastX : option Q;
  lastTime : option Q;
  xFilter : LowPassFilter;
  dxFilter : LowPassFilter
}.

(** [new OneEuroFilter({ minCutoff, beta })]. *)
Definition newOneEuro (cutoff b : Q) : OneEuroFilter := {|
  minCutoff := or_default (Some cutoff) 1;
  beta := or_default (Some b) (7 # 1000);
  dCutoff := 1;
  oe_x := None;
  oe_dx := 0;
  lastX := None;
  lastTime := None;
  xFilter := mkLowPass None;
  dxFilter := mkLowPass None
|}.

Definition oneEuroReset (f : OneEuroFilter) : OneEuroFilter := {|
  minCutoff := minCutoff f;
  beta := beta f;
  dCutoff := dCutoff f;
  oe_x := None;
  oe_dx := 0;
  lastX := None;
  lastTime := None;
  xFilter := mkLowPass None;
  dxFilter := mkLowPass None
|}.

(** [setParams({ minCutoff })]. *)
Definition setMinCutoff (f : OneEuroFilter) (cutoff : Q) : OneEuroFilter := {|
  minCutoff := cutoff;
  beta := beta f;
  dCutoff := dCutoff f;
  oe_x := oe_x f;
  oe_dx := oe_dx f;
  lastX := lastX f;
  lastTime := lastTime f;
  xFilter := xFilter f;
  dxFilter := dxFilter f
|}.

Section WithMath.
Context {M : MathEnv}.

(** [_alpha(dt, cutoff)]. *)
Definition _alpha (dt cutoff : Q) : Q :=
  let te := 1 / (2 * PI * cutoff) in
  1 / (1 + te / dt).

(** [OneEuroFilter.filter(x, timestamp)]. *)
Definition oneEuroFilter (f : OneEuroFilter) (x timestamp : Q)
  : Q * OneEuroFilter :=
  match lastTime f with
  | None =>
    (x, {| minCutoff := minCutoff f; beta := beta f; dCutoff := dCutoff f;
           oe_x := Some x; oe_dx := oe_dx f; lastX := Some x;
           lastTime := Some timestamp;
           xFilter := xFilter f; dxFilter := dxFilter f |})
  | Some previous =>
    let dt := JS.max (timestamp - previous) (1 # 1000) in
    let dx := (x - or_default (lastX f) 0) / dt in
    let '(edx, dxF) := lowPassFilter (dxFilter f) dx (_alpha dt (dCutoff f)) in
    let cutoff := minCutoff f + beta f * JS.abs edx in
    let '(y, xF) := lowPassFilter (xFilter f) x (_alpha dt cutoff) in
    (y, {| minCutoff := minCutoff f; beta := beta f; dCutoff := dCutoff f;
           oe_x := Some y; oe_dx := edx; lastX := Some x;
           lastTime := Some timestamp;
           xFilter := xF; dxFilter := dxF |})
  end.

End WithMath.

(** [DoubleExponentialSmoother]. *)
Record DoubleExponentialSmoother : Type := mkSmoother {
  de_alpha : Q;
  de_gamma : Q;
  level : option Q;
  trend : option Q;
  de_initialized : bool
}.

Definition newSmoother (a g : Q) : DoubleExponentialSmoother :=
  mkSmoother a g None None false.

Definition smooth (f : DoubleExponentialSmoother) (value : Q)
  : Q * DoubleExponentialSmoother :=
  if negb (de_initialized f)
  then (value, mkSmoother (de_alpha f) (de_gamma f) (Some value) (Some 0) true)
  else
    let prevLevel := or_default (level f) 0 in
    let tr := or_default (trend f) 0 in
    let lv := de_alpha f * value + (1 - de_alpha f) * (prevLevel + tr) in
    let tr' := de_gamma f * (lv - prevLevel) + (1 - de_gamma f) * tr in
    (lv, mkSmoother (de_alpha f) (de_gamma f) (Some lv) (Some tr') true).

Definition smootherReset (f : DoubleExponentialSmoother)
  : DoubleExponentialSmoother :=
  mkSmoother (de_alpha f) (de_gamma f) None None false.

(** [JitterSuppressor]. *)
Record JitterSuppressor : Type := mkSuppressor {
  windowSize : nat;
  js_threshold : Q;
  js_history : list Q;
  js_variance : Q
}.

Definition newSuppressor (th : Q) : JitterSuppressor :=
  mkSuppressor 5 (or_default (Some th) (1 # 100)) [] 0.

(** [process(value)]. *)
Definition process (f : JitterSuppressor) (value : Q) : Q * JitterSuppressor :=
  let pushed := js_history f ++ [value] in
  let h := if (windowSize f <? length pushed)%nat then tl pushed else pushed in
  if (length h <? 3)%nat
  then (value, mkSuppressor (windowSize f) (js_threshold f) h (js_variance f))
  else
    let n := ofNatQ (length h) in
    let mean := sum h / n in
    let variance := sum (map (fun b => (b - mean) * (b - mean)) h) / n in
    (if ltb (js_threshold f) variance then mean else value,
     mkSuppressor (windowSize f) (js_threshold f) h variance).

Definition suppressorReset (f : JitterSuppressor) : JitterSuppressor :=
  mkSuppressor (windowSize f) (js_threshold f) [] 0.

(** *** PoseKalmanFilter *)

(** The state vector and the covariances are [Float32Array]s: flat lists,
    every store rounded. *)
Record PoseKalmanFilter : Type := mkKalman {
  k_state : list Q;
  k_P : list Q;
  k_Q : list Q;
  k_R : list Q;
  k_initialized : bool
}.

Definition stateDim : nat := 13.

Definition getAt (xs : list Q) (i : nat) : Q := nth i xs 0.

Fixpoint putAt (i : nat) (v : Q) (xs : list Q) : list Q :=
  match i, xs with
  | _, [] => []
  | O, _ :: rest => v :: rest
  | S i', x :: rest => x :: putAt i' v rest
  end.

(** [_initCovariance(variance)]. *)
Definition _initCovariance (variance : Q) : list Q :=
  flat_map
    (fun i => map (fun j => if (i =? j)%nat then variance else 0) (seq 0 stateDim))
    (seq 0 stateDim).

Definition initialState : list Q := [0; 0; 0; 0; 0; 0; 1; 0; 0; 0; 0; 0; 0].

(** [new PoseKalmanFilter()]. *)
Definition newKalman : PoseKalmanFilter := {|
  k_state := initialState;
  k_P := _initCovariance 100;
  k_Q := _initCovariance (1 # 10);
  k_R := _initCovariance 1;
  k_initialized := false
|}.

Definition kalmanReset (k : PoseKalmanFilter) : PoseKalmanFilter := {|
  k_state := initialState;
  k_P := _initCovariance 100;
  k_Q := k_Q k;
  k_R := k_R k;
  k_initialized := false
|}.

Definition getPosition (k : PoseKalmanFilter) : Vector3 :=
  mkVector3 (getAt (k_state k) 0) (getAt (k_state k) 1) (getAt (k_state k) 2).

Definition getQuaternion (k : PoseKalmanFilter) : Quaternion :=
  mkQuaternion (getAt (k_state k) 3) (getAt (k_state k) 4)
               (getAt (k_state k) 5) (getAt (k_state k) 6).

Section WithEnv.
Context {M : MathEnv} {T : ThreeEnv}.

(** The state after [this.state[i] = v] for each pair, in order. *)
Definition store (st : list Q) (writes : list (nat * Q)) : list Q :=
  fold_left (fun acc w => putAt (fst w) (fround (snd w)) acc) writes st.

(** [_computeJacobian(dt)] of the filter. *)
Definition transition (dt : Q) : list Q :=
  flat_map
    (fun i =>
       map (fun j =>
              if (i =? j)%nat then 1
              else if (i <? 3)%nat && (j =? i + 7)%nat then fround dt
              else 0)
           (seq 0 stateDim))
    (seq 0 stateDim).

(** [_updateCovariance(F)]. *)
Definition _updateCovariance (F P Qn : list Q) : list Q :=
  let n := stateDim in
  let FP :=
    flat_map
      (fun i =>
         map (fun j =>
                fround (fold_left
                          (fun acc k =>
                             acc + getAt F (i * n + k) * getAt P (k * n + j))
                          (seq 0 n) 0))
             (seq 0 n))
      (seq 0 n) in
  flat_map
    (fun i =>
       map (fun j =>
              fround (fold_left
                        (fun acc k =>
                           acc + getAt FP (i * n + k) * getAt F (j * n + k))
                        (seq 0 n) 0
                      + getAt Qn (i * n + j)))
           (seq 0 n))
    (seq 0 n).

(** [predict(dt)]. *)
Definition predict (k : PoseKalmanFilter) (dt : Q) : PoseKalmanFilter :=
  let st := k_state k in
  let st1 := store st [(0%nat, getAt st 0 + getAt st 7 * dt)] in
  let st2 := store st1 [(1%nat, getAt st1 1 + getAt st1 8 * dt)] in
  let st3 := store st2 [(2%nat, getAt st2 2 + getAt st2 9 * dt)] in
  let wx := getAt st3 10 * dt * (1 # 2) in
  let wy := getAt st3 11 * dt * (1 # 2) in
  let wz := getAt st3 12 * dt * (1 # 2) in
  let dq := normalize (mkQuaternion wx wy wz 1) in
  let q := multiply (mkQuaternion (getAt st3 3) (getAt st3 4)
                                  (getAt st3 5) (getAt st3 6)) dq in
  let st4 := store st3 [(3%nat, q_x q); (4%nat, q_y q);
                        (5%nat, q_z q); (6%nat, q_w q)] in
  {| k_state := st4;
     k_P := _updateCovariance (transition dt) (k_P k) (k_Q k);
     k_Q := k_Q k;
     k_R := k_R k;
     k_initialized := k_initialized k |}.

(** The gain [update] computes for component [i]: zero unless the
    innovation variance passes the test. *)
Definition gain (P R : list Q) (i : nat) : Q :=
  let s := getAt P (i * stateDim + i) + getAt R (i * 7 + i) in
  if ltb (1 # 10000000000) s then fround (getAt P (i * stateDim + i) / s)
  else 0.

(** [update(measurement)] of the filter. *)
Definition kalmanUpdate (k : PoseKalmanFilter) (position : Vector3)
    (q : Quaternion) : PoseKalmanFilter :=
  if negb (k_initialized k) then
    {| k_state :=
         store (k_state k)
               [(0%nat, v_x position); (1%nat, v_y position);
                (2%nat, v_z position); (3%nat, q_x q); (4%nat, q_y q);
                (5%nat, q_z q); (6%nat, q_w q)];
       k_P := k_P k;
       k_Q := k_Q k;
       k_R := k_R k;
       k_initialized := true |}
  else
    let st := k_state k in
    let qPred := mkQuaternion (getAt st 3) (getAt st 4) (getAt st 5) (getAt st 6) in
    let qError := multiply (conjugate q) qPred in
    let y := map fround
                 [v_x position - getAt st 0; v_y position - getAt st 1;
                  v_z position - getAt st 2;
                  q_x qError; q_y qError; q_z qError; q_w qError] in
    let st1 :=
      fold_left
        (fun acc i =>
           putAt i (fround (getAt acc i + gain (k_P k) (k_R k) i * getAt y i)) acc)
        (seq 0 7) st in
    let qNorm := sqrt (getAt st1 3 * getAt st1 3 + getAt st1 4 * getAt st1 4
                       + getAt st1 5 * getAt st1 5 + getAt st1 6 * getAt st1 6) in
    let st2 :=
      if ltb (1 # 10000000000) qNorm then
        store st1 [(3%nat, getAt st1 3 / qNorm); (4%nat, getAt st1 4 / qNorm);
                   (5%nat, getAt st1 5 / qNorm); (6%nat, getAt st1 6 / qNorm)]
      else st1 in
    let P' :=
      fold_left
        (fun acc i =>
           putAt (i * stateDim + i)
                 (fround (getAt acc (i * stateDim + i)
                          * (1 - gain (k_P k) (k_R k) i)))
                 acc)
        (seq 0 7) (k_P k) in
    {| k_state := st2;
       k_P := P';
       k_Q := k_Q k;
       k_R := k_R k;
       k_initialized := true |}.

End WithEnv.

(** *** The stabilizer *)

Record config : Type := mkConfig {
  positionMinCutoff : Q;
  positionBeta : Q;
  rotationMinCutoff : Q;
  rotationBeta : Q;
  scaleMinCutoff : Q;
  scaleBeta : Q;
  useKalman : bool;
  useDoubleExponential : bool;
  cfg_alpha : Q;
  cfg_gamma : Q;
  useJitterSuppression : bool;
  jitterThreshold : Q;
  predictionSteps : Q;
  adaptiveSmoothing : bool
}.

(** The constructor's [options]. *)
Record options : Type := mkOptions {
  opt_positionMinCutoff : option Q;
  opt_positionBeta : option Q;
  opt_rotationMinCutoff : option Q;
  opt_rotationBeta : option Q;
  opt_scaleMinCutoff : option Q;
  opt_scaleBeta : option Q;
  opt_useKalman : option bool;
  opt_useDoubleExponential : option bool;
  opt_alpha : option Q;
  opt_gamma : option Q;
  opt_useJitterSuppression : option bool;
  opt_jitterThreshold : option Q;
  opt_predictionSteps : option Q;
  opt_adaptiveSmoothing : option bool
}.

Definition notFalse (o : option bool) : bool :=
  match o with
  | Some false => false
  | _ => true
  end.

Definition makeConfig (o : options) : config := {|
  positionMinCutoff := or_default (opt_positionMinCutoff o) (8 # 10);
  positionBeta := or_default (opt_positionBeta o) (5 # 1000);
  rotationMinCutoff := or_default (opt_rotationMinCutoff o) (12 # 10);
  rotationBeta := or_default (opt_rotationBeta o) (1 # 100);
  scaleMinCutoff := or_default (opt_scaleMinCutoff o) (5 # 10);
  scaleBeta := or_default (opt_scaleBeta o) (2 # 1000);
  useKalman := notFalse (opt_useKalman o);
  useDoubleExponential := notFalse (opt_useDoubleExponential o);
  cfg_alpha := or_default (opt_alpha o) (3 # 10);
  cfg_gamma := or_default (opt_gamma o) (1 # 10);
  useJitterSuppression := notFalse (opt_useJitterSuppression o);
  jitterThreshold := or_default (opt_jitterThreshold o) (5 # 1000);
  predictionSteps := or_default (opt_predictionSteps o) (5 # 10);
  adaptiveSmoothing := notFalse (opt_adaptiveSmoothing o)
|}.

Definition noOptions : options :=
  mkOptions None None None None None None None None None None None None None
            None.

(** One filter per axis. *)
Record perAxis (A : Type) : Type := mkAxes {
  on_x : A;
  on_y : A;
  on_z : A
}.
Arguments mkAxes {A} _ _ _.
Arguments on_x {A} _.
Arguments on_y {A} _.
Arguments on_z {A} _.

Definition mapAxes {A B : Type} (f : A -> B) (a : perAxis A) : perAxis B :=
  mkAxes (f (on_x a)) (f (on_y a)) (f (on_z a)).

Record metrics : Type := mkMetrics {
  jitterLevel : Q;
  smoothness : Q;
  latency : Q
}.

Record t : Type := mkStabilizer {
  cfg : config;
  positionFilters : perAxis OneEuroFilter;
  rotationFilters : perAxis OneEuroFilter;
  scaleFilters : perAxis OneEuroFilter;
  kalman : PoseKalmanFilter;
  doubleExp : perAxis DoubleExponentialSmoother;
  jitterSuppressors : perAxis JitterSuppressor;
  position : Vector3;
  quaternion : Quaternion;
  scale : Vector3;
  velocity : Vector3;
  initialized : bool;
  lastTimestamp : option Q;
  lastConfidence : Q;
  stats : metrics
}.

(** [new ProductionStabilizer(options)]. *)
Definition new (o : options) : t :=
  let c := makeConfig o in
  {| cfg := c;
     positionFilters :=
       mkAxes (newOneEuro (positionMinCutoff c) (positionBeta c))
              (newOneEuro (positionMinCutoff c) (positionBeta c))
              (newOneEuro (positionMinCutoff c * (15 # 10)) (positionBeta c));
     rotationFilters :=
       mkAxes (newOneEuro (rotationMinCutoff c) (rotationBeta c))
              (newOneEuro (rotationMinCutoff c) (rotationBeta c))
              (newOneEuro (rotationMinCutoff c) (rotationBeta c));
     scaleFilters :=
       mkAxes (newOneEuro (scaleMinCutoff c) (scaleBeta c))
              (newOneEuro (scaleMinCutoff c) (scaleBeta c))
              (newOneEuro (scaleMinCutoff c) (scaleBeta c));
     kalman := newKalman;
     doubleExp :=
       mkAxes (newSmoother (cfg_alpha c) (cfg_gamma c))
              (newSmoother (cfg_alpha c) (cfg_gamma c))
              (newSmoother (cfg_alpha c) (cfg_gamma c));
     jitterSuppressors :=
       mkAxes (newSuppressor (jitterThreshold c))
              (newSuppressor (jitterThreshold c))
              (newSuppressor (jitterThreshold c));
     position := mkVector3 0 0 0;
     quaternion := identityQuaternion;
     scale := mkVector3 1 1 1;
     velocity := mkVector3 0 0 0;
     initialized := false;
     lastTimestamp := None;
     lastConfidence := 1;
     stats := mkMetrics 0 1 0 |}.

(** [reset()]. *)
Definition reset (s : t) : t := {|
  cfg := cfg s;
  positionFilters := mapAxes oneEuroReset (positionFilters s);
  rotationFilters := mapAxes oneEuroReset (rotationFilters s);
  scaleFilters := mapAxes oneEuroReset (scaleFilters s);
  kalman := kalmanReset (kalman s);
  doubleExp := mapAxes smootherReset (doubleExp s);
  jitterSuppressors := mapAxes suppressorReset (jitterSuppressors s);
  position := mkVector3 0 0 0;
  quaternion := identityQuaternion;
  scale := mkVector3 1 1 1;
  velocity := mkVector3 0 0 0;
  initialized := false;
  lastTimestamp := None;
  lastConfidence := 1;
  stats := stats s
|}.

(** The pose [update] is given. *)
Record poseInput : Type := mkPoseInput {
  in_position : Vector3;
  in_quaternion : Quaternion;
  in_scale : option Vector3;
  in_confidence : option Q
}.

(** [_getResult()]. *)
Record stabilized : Type := mkStabilized {
  out_position : Vector3;
  out_quaternion : Quaternion;
  out_scale : Vector3;
  out_velocity : Vector3;
  out_confidence : Q;
  out_metrics : metrics
}.

Definition _getResult (s : t) : stabilized := {|
  out_position := position s;
  out_quaternion := quaternion s;
  out_scale := scale s;
  out_velocity := velocity s;
  out_confidence := lastConfidence s;
  out_metrics := stats s
|}.

(** The stabilizer with its filters, or its pose, replaced. *)
Definition withFilters (s : t)
    (pf rf sf : perAxis OneEuroFilter) (k : PoseKalmanFilter)
    (de : perAxis DoubleExponentialSmoother) (js : perAxis JitterSuppressor)
  : t := {|
  cfg := cfg s;
  positionFilters := pf;
  rotationFilters := rf;
  scaleFilters := sf;
  kalman := k;
  doubleExp := de;
  jitterSuppressors := js;
  position := position s;
  quaternion := quaternion s;
  scale := scale s;
  velocity := velocity s;
  initialized := initialized s;
  lastTimestamp := lastTimestamp s;
  lastConfidence := lastConfidence s;
  stats := stats s
|}.

Definition withPose (s : t) (p : Vector3) (q : Quaternion) (sc v : Vector3)
  : t := {|
  cfg := cfg s;
  positionFilters := positionFilters s;
  rotationFilters := rotationFilters s;
  scaleFilters := scaleFilters s;
  kalman := kalman s;
  doubleExp := doubleExp s;
  jitterSuppressors := jitterSuppressors s;
  position := p;
  quaternion := q;
  scale := sc;
  velocity := v;
  initialized := initialized s;
  lastTimestamp := lastTimestamp s;
  lastConfidence := lastConfidence s;
  stats := stats s
|}.

Definition withClock (s : t) (init : bool) (ts : option Q) (confidence : Q)
    (m : metrics) : t := {|
  cfg := cfg s;
  positionFilters := positionFilters s;
  rotationFilters := rotationFilters s;
  scaleFilters := scaleFilters s;
  kalman := kalman s;
  doubleExp := doubleExp s;
  jitterSuppressors := jitterSuppressors s;
  position := position s;
  quaternion := quaternion s;
  scale := scale s;
  velocity := velocity s;
  initialized := init;
  lastTimestamp := ts;
  lastConfidence := confidence;
  stats := m
|}.

Section WithEnv.
Context {M : MathEnv} {T : ThreeEnv}.

(** [_initialize(pose)], with [now] the reading of its
    [performance.now()]. *)
Definition _initialize (s : t) (pose : poseInput) (now : Q) : t :=
  let s1 :=
    withPose s (in_position pose) (in_quaternion pose)
             (match in_scale pose with Some sc => sc | None => scale s end)
             (velocity s) in
  let s2 := withClock s1 true (Some (now / 1000)) (lastConfidence s1) (stats s1) in
  withFilters s2 (positionFilters s2) (rotationFilters s2) (scaleFilters s2)
              (kalmanUpdate (kalman s2) (position s2) (quaternion s2))
              (doubleExp s2) (jitterSuppressors s2).

(** [_adaptSmoothing(confidence)]. *)
Definition _adaptSmoothing (s : t) (confidence : Q) : t :=
  if negb (adaptiveSmoothing (cfg s)) then s
  else
    let factor := JS.max (1 # 2) confidence in
    let posMinCutoff := positionMinCutoff (cfg s) * factor in
    let rotMinCutoff := rotationMinCutoff (cfg s) * factor in
    withFilters s
      (mapAxes (fun f => setMinCutoff f posMinCutoff) (positionFilters s))
      (mapAxes (fun f => setMinCutoff f rotMinCutoff) (rotationFilters s))
      (scaleFilters s) (kalman s) (doubleExp s) (jitterSuppressors s).

(** [_processPosition(position, timestamp, dt)]. *)
Definition _processPosition (s : t) (p : Vector3) (timestamp dt : Q) : t :=
  let '(x1, jx, y1, jy, z1, jz) :=
    if useJitterSuppression (cfg s) then
      let '(x1, jx) := process (on_x (jitterSuppressors s)) (v_x p) in
      let '(y1, jy) := process (on_y (jitterSuppressors s)) (v_y p) in
      let '(z1, jz) := process (on_z (jitterSuppressors s)) (v_z p) in
      (x1, jx, y1, jy, z1, jz)
    else (v_x p, on_x (jitterSuppressors s), v_y p, on_y (jitterSuppressors s),
          v_z p, on_z (jitterSuppressors s)) in
  let '(x2, fx) := oneEuroFilter (on_x (positionFilters s)) x1 timestamp in
  let '(y2, fy) := oneEuroFilter (on_y (positionFilters s)) y1 timestamp in
  let '(z2, fz) := oneEuroFilter (on_z (positionFilters s)) z1 timestamp in
  let '(x3, dx, y3, dy, z3, dz) :=
    if useDoubleExponential (cfg s) then
      let '(x3, dx) := smooth (on_x (doubleExp s)) x2 in
      let '(y3, dy) := smooth (on_y (doubleExp s)) y2 in
      let '(z3, dz) := smooth (on_z (doubleExp s)) z2 in
      (x3, dx, y3, dy, z3, dz)
    else (x2, on_x (doubleExp s), y2, on_y (doubleExp s),
          z2, on_z (doubleExp s)) in
  let predicting := ltb 0 (predictionSteps (cfg s)) in
  let vx := or_default (trend dx) 0 in
  let vy := or_default (trend dy) 0 in
  let vz := or_default (trend dz) 0 in
  let x4 := if predicting then x3 + vx * predictionSteps (cfg s) * dt else x3 in
  let y4 := if predicting then y3 + vy * predictionSteps (cfg s) * dt else y3 in
  let z4 := if predicting then z3 + vz * predictionSteps (cfg s) * dt else z3 in
  let s1 :=
    withFilters s (mkAxes fx fy fz) (rotationFilters s) (scaleFilters s)
                (kalman s) (mkAxes dx dy dz) (mkAxes jx jy jz) in
  withPose s1 (mkVector3 x4 y4 z4) (quaternion s1) (scale s1)
           (if predicting then mkVector3 vx vy vz else velocity s1).

(** [_processRotation(quaternion, timestamp)]. *)
Definition _processRotation (s : t) (q : Quaternion) (timestamp : Q) : t :=
  let e := eulerFromQuaternion q in
  let '(rx, fx) := oneEuroFilter (on_x (rotationFilters s)) (e_x e) timestamp in
  let '(ry, fy) := oneEuroFilter (on_y (rotationFilters s)) (e_y e) timestamp in
  let '(rz, fz) := oneEuroFilter (on_z (rotationFilters s)) (e_z e) timestamp in
  let filtered := quaternionFromEuler (mkEuler rx ry rz) in
  let q' := if initialized s then slerp filtered q (1 # 10) else filtered in
  let s1 :=
    withFilters s (positionFilters s) (mkAxes fx fy fz) (scaleFilters s)
                (kalman s) (doubleExp s) (jitterSuppressors s) in
  withPose s1 (position s1) q' (scale s1) (velocity s1).

(** [_processScale(scale, timestamp)]. *)
Definition _processScale (s : t) (sc : option Vector3) (timestamp : Q) : t :=
  match sc with
  | None => s
  | Some sc =>
    let '(sx, fx) := oneEuroFilter (on_x (scaleFilters s)) (v_x sc) timestamp in
    let '(sy, fy) := oneEuroFilter (on_y (scaleFilters s)) (v_y sc) timestamp in
    let '(sz, fz) := oneEuroFilter (on_z (scaleFilters s)) (v_z sc) timestamp in
    let s1 :=
      withFilters s (positionFilters s) (rotationFilters s) (mkAxes fx fy fz)
                  (kalman s) (doubleExp s) (jitterSuppressors s) in
    withPose s1 (position s1) (quaternion s1) (mkVector3 sx sy sz) (velocity s1)
  end.

(** The Kalman step of [update]: [predict], [update], and
    [_blendKalmanOutput]. *)
Definition kalmanStep (s : t) (dt : Q) : t :=
  if negb (useKalman (cfg s)) then s
  else
    let k := kalmanUpdate (predict (kalman s) dt) (position s) (quaternion s) in
    let blend := lastConfidence s * (3 # 10) in
    let s1 :=
      withFilters s (positionFilters s) (rotationFilters s) (scaleFilters s) k
                  (doubleExp s) (jitterSuppressors s) in
    withPose s1 (lerp (position s1) (getPosition k) blend)
             (slerp (quaternion s1) (getQuaternion k) blend)
             (scale s1) (velocity s1).

(** [_updateMetrics()]. *)
Definition _updateMetrics (s : t) : t :=
  let level :=
    (sqrt (js_variance (on_x (jitterSuppressors s)))
     + sqrt (js_variance (on_y (jitterSuppressors s)))
     + sqrt (js_variance (on_z (jitterSuppressors s)))) / 3 in
  withClock s (initialized s) (lastTimestamp s) (lastConfidence s)
            (mkMetrics level (JS.max 0 (1 - level * 10))
                       (predictionSteps (cfg s) * (1667 # 100))).

(** The clock readings an [update] call may take: for a missing
    timestamp, and in [_initialize]. *)
Record clock : Type := mkClock {
  now_update : Q;
  now_initialize : Q
}.

(** [update(pose, timestamp)]: the stabilized pose returned and the
    stabilizer afterwards. *)
Definition update (s : t) (pose : poseInput) (timestamp : option Q) (clk : clock)
  : stabilized * t :=
  let ts := if truthy timestamp then or_default timestamp 0
            else now_update clk / 1000 in
  if negb (initialized s) then
    let s1 := _initialize s pose (now_initialize clk) in
    (_getResult s1, s1)
  else
    let dt :=
      if truthy (lastTimestamp s) then ts - or_default (lastTimestamp s) 0
      else 16 # 1000 in
    let s1 := withClock s (initialized s) (Some ts)
                        (or_default (in_confidence pose) 1) (stats s) in
    let s2 := _adaptSmoothing s1 (lastConfidence s1) in
    let s3 := _processPosition s2 (in_position pose) ts dt in
    let s4 := _processRotation s3 (in_quaternion pose) ts in
    let s5 := _processScale s4 (in_scale pose) ts in
    let s6 := kalmanStep s5 dt in
    let s7 := _updateMetrics s6 in
    (_getResult s7, s7).

End WithEnv.

(** A measurement, with and without a scale. *)
Definition samplePose : poseInput := {|
  in_position := mkVector3 12 (- 7) 480;
  in_quaternion := mkQuaternion (1 # 10) (- (2 # 10)) (3 # 10) (9 # 10);
  in_scale := Some (mkVector3 (11 # 10) (11 # 10) (11 # 10));
  in_confidence := Some (6 # 10)
|}.

(** The measurement of the next frame: moved by a millimetre. *)
Definition nextPose : poseInput := {|
  in_position := mkVector3 13 (- 7) 481;
  in_quaternion := in_quaternion samplePose;
  in_scale := in_scale samplePose;
  in_confidence := Some (9 # 10)
|}.

(** *** Runs of the scalar filters *)


Section WithMath.
Context {M : MathEnv}.

(** [JitterSuppressor.getJitterLevel()]. *)
Definition getJitterLevel (f : JitterSuppressor) : Q := sqrt (js_variance f).

(** The outputs of a One-Euro filter given values and timestamps in
    order, and the filter afterwards. *)
Fixpoint oneEuroRun (f : OneEuroFilter) (inputs : list (Q * Q))
  : list Q * OneEuroFilter :=
  match inputs with
  | [] => ([], f)
  | (x, timestamp) :: rest =>
    let '(y, f1) := oneEuroFilter f x timestamp in
    let '(ys, f2) := oneEuroRun f1 rest in
    (y :: ys, f2)
  end.

End WithMath.





(** A pose as given, but without a confidence. *)
Definition withoutConfidence (pose : poseInput) : poseInput := {|
  in_position := in_position pose;
  in_quaternion := in_quaternion pose;
  in_scale := in_scale pose;
  in_confidence := None
|}.

End ProductionStabilizer.

(* ================================================================== *)
(** * Part II: the properties                                         *)
(* ================================================================== *)

(** ** Arithmetic of the comparisons *)

Module JSFacts.
Import JS.

Lemma ltb_true (a b : Q) : ltb a b = true <-> a < b.
Proof.
  unfold ltb. rewrite negb_true_iff. split.
  - intros H. apply Qnot_le_lt. intros L.
    apply Qle_bool_iff in L. congruence.
  - intros H. destruct (Qle_bool b a) eqn:E; [|reflexivity].
    apply Qle_bool_iff in E. lra.
Qed.

Lemma ltb_false (a b : Q) : ltb a b = false <-> b <= a.
Proof.
  unfold ltb. rewrite negb_false_iff. apply Qle_bool_iff.
Qed.

Lemma leb_true (a b : Q) : leb a b = true <-> a <= b.
Proof. apply Qle_bool_iff. Qed.

Lemma leb_false (a b : Q) : leb a b = false <-> b < a.
Proof.
  unfold leb. split.
  - intros H. apply Qnot_le_lt. intros L.
    apply Qle_bool_iff in L. congruence.
  - intros H. destruct (Qle_bool a b) eqn:E; [|reflexivity].
    apply Qle_bool_iff in E. lra.
Qed.

Lemma max_l (a b : Q) : a <= max a b.
Proof.
  unfold max. destruct (Qle_bool a b) eqn:E; [|lra].
  now apply Qle_bool_iff.
Qed.


Lemma max_cases (a b : Q) :
  (a <= b /\ max a b = b) \/ (b < a /\ max a b = a).
Proof.
  unfold max. destruct (Qle_bool a b) eqn:E.
  - left. split; [now apply Qle_bool_iff | reflexivity].
  - right. split; [now apply leb_false | reflexivity].
Qed.

Lemma sqrt_down_nonneg (q : Q) : 0 <= sqrt_down q.
Proof.
  unfold sqrt_down. rewrite Qred_correct. unfold Qle. cbn.
  rewrite Z.mul_1_r. apply Z.sqrt_nonneg.
Qed.

Lemma exp_rational_pos (a : Q) : 0 < exp_rational a.
Proof.
  unfold exp_rational. destruct (Qle_bool 0 a) eqn:E.
  - apply Qle_bool_iff in E.
    assert (0 <= a * a) by (apply Qmult_le_0_compat; assumption).
    unfold Qdiv. cbn [Qinv Qnum Qden]. lra.
  - assert (N : a < 0).
    { apply Qnot_le_lt. intros L. apply Qle_bool_iff in L. congruence. }
    assert (0 <= a * a).
    { setoid_replace (a * a) with ((- a) * (- a)) by ring.
      apply Qmult_le_0_compat; lra. }
    unfold Qdiv at 1. rewrite Qmult_1_l. apply Qinv_lt_0_compat.
    unfold Qdiv. cbn [Qinv Qnum Qden]. lra.
Qed.

#[export] Instance approxMath_laws : MathLaws approxMath.
Proof.
  split.
  - intros a b. apply sqrt_down_nonneg.
  - apply exp_rational_pos.
Qed.

End JSFacts.

(** Division by a numeral, put in the form linear arithmetic reads. *)
Ltac qlra := unfold Qdiv in *; cbn [Qinv Qnum Qden] in *; lra.

(** ** CameraCalibrator *)

Module CameraCalibratorSpec.
Import JS JSFacts CameraCalibrator.

Section WithMath.
Context {M : MathEnv}.

(** With the constants of [new CameraCalibrator()] the candidate is
    [2.1 * pixelDistance]: a distance the first test accepts (at most 200)
    gives a candidate of at most 420, below the floor of the second test. *)
Lemma focalCandidate_new (d : Q) : focalCandidate new d == d * (21 # 10).
Proof. unfold focalCandidate; cbn [REAL_IPD_MM new]. qlra. Qed.

Lemma estimateFocalLength_unfold (c : t) (ls : option landmarks) (w : Q) :
  estimateFocalLength c ls w =
  match eyePixelDistance c ls w with
  | None => None
  | Some d =>
    if ltb d 20 || ltb 200 d then None
    else if ltb (focalCandidate c d) 500 || ltb 3000 (focalCandidate c d)
         then None
         else Some (focalCandidate c d)
  end.
Proof.
  unfold estimateFocalLength, eyePixelDistance.
  destruct ls as [ls|]; [|reflexivity].
  destruct (landmarkAt ls (EYE_left c)); [|reflexivity].
  destruct (landmarkAt ls (EYE_right c)); reflexivity.
Qed.

(** A calibrator built by the constructor never accepts a frame: whatever
    the landmarks, [estimateFocalLength] is [null]. *)
Lemma estimateFocalLength_new_none (ls : option landmarks) (w : Q) :
  estimateFocalLength new ls w = None.
Proof.
  rewrite estimateFocalLength_unfold.
  destruct (eyePixelDistance new ls w) as [d|]; [|reflexivity].
  destruct (ltb d 20 || ltb 200 d) eqn:E1; [reflexivity|].
  apply orb_false_iff in E1 as [_ E1]. apply ltb_false in E1.
  assert (L : ltb (focalCandidate new d) 500 = true).
  { apply ltb_true. rewrite focalCandidate_new. lra. }
  now rewrite L.
Qed.


(** The weighted average divides by a positive number: the weights are
    exponentials. *)
Lemma weightedSums_positive {Laws : MathLaws M} (now : Q) (ss : list sample)
    (acc : Q * Q) :
  0 <= snd acc ->
  (ss <> [] \/ 0 < snd acc) ->
  0 < snd (fold_left
             (fun acc s =>
                let age := now - timestamp s in
                let weight := exp (- age / 5000) in
                (fst acc + value s * weight, snd acc + weight))
             ss acc).
Proof.
  revert acc. induction ss as [|s ss IH]; intros acc A H.
  - destruct H as [H|H]; [congruence | exact H].
  - cbn [fold_left]. pose proof (exp_pos (- (now - timestamp s) / 5000)) as E.
    apply IH; cbn [snd]; [lra | right; lra].
Qed.

Lemma weightedAverage_divisor_positive {Laws : MathLaws M} (c : t) (now : Q) :
  ~ tooFewSamples c -> (0 < minSamples c)%nat ->
  0 < snd (weightedSums now (samples c)).
Proof.
  unfold tooFewSamples. intros H P. unfold weightedSums.
  apply weightedSums_positive; cbn [snd]; [lra|].
  left. intros E. rewrite E in H. cbn in H. lia.
Qed.

(** *** Rejection by [getCalibratedFocalLength] *)

Lemma getCalibratedFocalLength_cases (c : t) (now : Q) :
  (getCalibratedFocalLength c now = (None, c)
   /\ (tooFewSamples c \/ averageOutOfRange c now \/ varianceTooHigh c))
  \/ (exists c',
        getCalibratedFocalLength c now = (Some (weightedAverage c now), c')
        /\ calibratedFocal c' = Some (weightedAverage c now)
        /\ lastCalibrationTime c' = now
        /\ samples c' = samples c
        /\ 500 <= weightedAverage c now /\ weightedAverage c now <= 3000
        /\ ~ tooFewSamples c /\ ~ varianceTooHigh c).
Proof.
  unfold getCalibratedFocalLength, tooFewSamples, averageOutOfRange,
    varianceTooHigh.
  destruct (length (samples c) <? minSamples c)%nat eqn:E0.
  { left. split; [reflexivity|]. left. now apply Nat.ltb_lt. }
  apply Nat.ltb_ge in E0.
  destruct (ltb (weightedAverage c now) 500 || ltb 3000 (weightedAverage c now))
    eqn:E1.
  { left. split; [reflexivity|]. right; left.
    apply orb_true_iff in E1 as [E1|E1]; apply ltb_true in E1; tauto. }
  apply orb_false_iff in E1 as [E1a E1b]. apply ltb_false in E1a, E1b.
  destruct (ltb 10000 (_calculateVariance c)) eqn:E2.
  { left. split; [reflexivity|]. right; right. now apply ltb_true. }
  apply ltb_false in E2.
  right. eexists. split; [reflexivity|]. cbn.
  repeat split; try assumption; try reflexivity; lia || lra.
Qed.

Lemma step_storedInRange (c : t) (k : call) :
  storedInRange c -> storedInRange (step c k).
Proof.
  intros H. destruct k as [f now|now|]; cbn [step].
  - unfold addSample. destruct (negb (truthy f)); exact H.
  - destruct (getCalibratedFocalLength_cases c now)
      as [[E _]|(c' & E & Hf & _ & _ & Hlo & Hhi & _)]; rewrite E; cbn [snd].
    + exact H.
    + unfold storedInRange. rewrite Hf. split; assumption.
  - exact I.
Qed.

Lemma run_storedInRange (ks : list call) (c : t) :
  storedInRange c -> storedInRange (run c ks).
Proof.
  revert c. induction ks as [|k ks IH]; intros c H; [exact H|].
  cbn [run fold_left]. apply IH, step_storedInRange, H.
Qed.


End WithMath.


(** Eight samples of 900 pixels taken 100 ms apart are accepted at
    [now = 1000], and the accepted value is stored. *)
Example getCalibratedFocalLength_accepts :
  match getCalibratedFocalLength eightSamples 1000 with
  | (Some f, c') => f == 900 /\ calibratedFocal c' = Some f
                    /\ lastCalibrationTime c' = 1000
  | (None, _) => False
  end.
Proof. vm_compute. repeat split. Qed.


End CameraCalibratorSpec.

(** ** TrackingQualityMonitor *)

Module TrackingQualityMonitorSpec.
Import JS JSFacts TrackingQualityMonitor.

(** *** What each step of [update] leaves alone *)

Lemma trackingState_eqb_eq (a b : trackingState) :
  trackingState_eqb a b = true <-> a = b.
Proof. destruct a, b; cbn; split; congruence. Qed.

Lemma trackingState_eqb_refl (a : trackingState) : trackingState_eqb a a = true.
Proof. now apply trackingState_eqb_eq. Qed.

Lemma trackingState_eqb_neq (a b : trackingState) :
  trackingState_eqb a b = false <-> a <> b.
Proof.
  split.
  - intros H E. apply trackingState_eqb_eq in E. congruence.
  - intros H. destruct (trackingState_eqb a b) eqn:E; [|reflexivity].
    apply trackingState_eqb_eq in E. contradiction.
Qed.

Lemma _handleStateChange_fields (m : t) (from to : trackingState) (clk : clock) :
  let m' := fst (_handleStateChange m from to clk) in
  state m' = state m /\ cfg m' = cfg m /\ overallQuality m' = overallQuality m
  /\ lastRecoveryTime m' = lastRecoveryTime m
  /\ recoveryInProgress m' = recoveryInProgress m.
Proof. cbn. repeat split. Qed.

Lemma _updateState_fields (m : t) (clk : clock) :
  let m' := fst (_updateState m clk) in
  state m' = selectState (cfg m) (overallQuality m)
  /\ cfg m' = cfg m /\ overallQuality m' = overallQuality m
  /\ lastRecoveryTime m' = lastRecoveryTime m
  /\ recoveryInProgress m' = recoveryInProgress m.
Proof.
  unfold _updateState.
  destruct (trackingState_eqb (state m) (selectState (cfg m) (overallQuality m)));
    cbn; repeat split.
Qed.

Lemma _attemptRecovery_fields (m : t) (now : Q) :
  let m' := fst (_attemptRecovery m now) in
  state m' = state m /\ cfg m' = cfg m /\ overallQuality m' = overallQuality m
  /\ lossStartTime m' = lossStartTime m.
Proof.
  unfold _attemptRecovery.
  repeat match goal with
         | |- context [if ?b then _ else _] => destruct b
         | |- context [match _determineRecoveryStrategy ?x with _ => _ end] =>
           destruct (_determineRecoveryStrategy x)
         end; cbn; repeat split.
Qed.

Section WithMath.
Context {M : MathEnv}.

(** The shape of a returning [update]: the state is selected from the new
    quality, and the later steps change neither. *)
Lemma update_returned (m : t) (data : option trackingData) (clk : clock)
    (a : assessment) (m' : t) (fs : list firing) :
  update m data clk = (Some a, m', fs) ->
  state m' = selectState (cfg m) (overallQuality m')
  /\ cfg m' = cfg m
  /\ overallQuality m'
     = _calculateOverallQuality
         (fst (_updateMetrics (qualityHistory m) (metrics m) data))
  /\ a = _getAssessment m'.
Proof.
  unfold update.
  destruct (_updateMetrics (qualityHistory m) (metrics m) data) as [ms returned].
  destruct returned; cbn [negb fst]; [|discriminate].
  set (m1 := withFrame m ms _ _ _ _ _ _).
  destruct (_updateState m1 clk) as [m2 fired1] eqn:E2.
  pose proof (_updateState_fields m1 clk) as F2. rewrite E2 in F2.
  cbn [fst] in F2. destruct F2 as (S2 & C2 & Q2 & _).
  set (m3 := if predictionEnabled (cfg m2) then _ else m2).
  assert (F3 : state m3 = state m2 /\ cfg m3 = cfg m2
               /\ overallQuality m3 = overallQuality m2).
  { subst m3. destruct (predictionEnabled (cfg m2)); cbn; repeat split. }
  destruct F3 as (S3 & C3 & Q3).
  destruct (if recoveryEnabled (cfg m3) && trackingState_eqb (state m3) LOST
            then _attemptRecovery m3 (now_recovery clk) else (m3, []))
    as [m4 fired2] eqn:E4.
  assert (F4 : state m4 = state m3 /\ cfg m4 = cfg m3
               /\ overallQuality m4 = overallQuality m3).
  { destruct (recoveryEnabled (cfg m3) && trackingState_eqb (state m3) LOST).
    - pose proof (_attemptRecovery_fields m3 (now_recovery clk)) as F.
      rewrite E4 in F. cbn [fst] in F. tauto.
    - injection E4 as <- _. repeat split. }
  destruct F4 as (S4 & C4 & Q4).
  intros H. injection H as <- <- _.
  cbn [state cfg overallQuality withFrame].
  rewrite S4, S3, S2, C4, C3, C2, Q4, Q3, Q2. subst m1. cbn.
  repeat split.
Qed.

(** C6. After an [update] that returns, the state is a function of the
    overall quality alone: the first threshold, from the highest down, that
    the quality reaches. With the thresholds of [QUALITY_THRESHOLDS] that is
    [TRACKING_EXCELLENT] from 0.9, [TRACKING_GOOD] from 0.75,
    [TRACKING_ACCEPTABLE] from 0.5, [TRACKING_POOR] from 0.3, [RECOVERING]
    from 0.15 and [LOST] below; a quality of exactly 0.75 is
    [TRACKING_GOOD]. The assessment returned carries the same state and
    quality. *)
Theorem update_state_is_threshold_function
    (m : t) (data : option trackingData) (clk : clock)
    (a : assessment) (m' : t) (fs : list firing) :
  update m data clk = (Some a, m', fs) ->
  defaultThresholds (cfg m) ->
  state m' = stateOfQuality (overallQuality m')
  /\ a_state a = state m'
  /\ a_quality a = overallQuality m'
  /\ stateOfQuality (75 # 100) = TRACKING_GOOD
  /\ (forall q,
        (9 # 10 <= q -> stateOfQuality q = TRACKING_EXCELLENT)
        /\ (75 # 100 <= q < 9 # 10 -> stateOfQuality q = TRACKING_GOOD)
        /\ (5 # 10 <= q < 75 # 100 -> stateOfQuality q = TRACKING_ACCEPTABLE)
        /\ (3 # 10 <= q < 5 # 10 -> stateOfQuality q = TRACKING_POOR)
        /\ (15 # 100 <= q < 3 # 10 -> stateOfQuality q = RECOVERING)
        /\ (q < 15 # 100 -> stateOfQuality q = LOST)).
Proof.
  intros U (T1 & T2 & T3 & T4 & T5).
  apply update_returned in U as (S & C & _ & A).
  split; [|split; [|split; [|split]]].
  - rewrite S. unfold selectState, stateOfQuality.
    rewrite T1, T2, T3, T4, T5. reflexivity.
  - subst a. reflexivity.
  - subst a. reflexivity.
  - reflexivity.
  - intros q. unfold stateOfQuality.
    repeat split; intros H;
      repeat match goal with
             | |- context [leb ?x q] =>
               let E := fresh "E" in
               destruct (leb x q) eqn:E;
               [apply leb_true in E | apply leb_false in E]
             end; try reflexivity; exfalso; lra.
Qed.

(** *** Frames without tracking data *)

Lemma sum_zero_scores (ms : metricSet) :
  _calculateOverallQuality (mapMetrics (fun m => metricUpdate m 0) ms) == 0.
Proof.
  unfold _calculateOverallQuality, weightedTotals, metricValues, mapMetrics,
    getWeightedScore.
  cbn [fold_left fst snd current weight metricUpdate landmarkConfidence
       poseStability reprojectionError faceVisibility motionConsistency
       occlusionLevel].
  match goal with |- (if ?b then _ else _) == 0 => destruct b end;
    [|reflexivity].
  unfold Qdiv. ring.
Qed.

Lemma selectState_zero (c : config) (q : Q) :
  positiveThresholds c -> q == 0 -> selectState c q = LOST.
Proof.
  intros (P1 & P2 & P3 & P4 & P5) Hq. unfold selectState.
  repeat match goal with
         | |- context [leb ?x q] =>
           let E := fresh "E" in
           destruct (leb x q) eqn:E; [apply leb_true in E; exfalso; lra|]
         end.
  reflexivity.
Qed.

Lemma _updateState_lost_count (m : t) (clk : clock) :
  selectState (cfg m) (overallQuality m) = LOST ->
  countTrackingLost (map Fired (snd (_updateState m clk)))
  = if trackingState_eqb (state m) LOST then 0%nat else 1%nat.
Proof.
  intros H. unfold _updateState. rewrite H.
  destruct (trackingState_eqb (state m) LOST) eqn:E; [reflexivity|].
  unfold _handleStateChange. cbn [trackingState_eqb].
  rewrite E. reflexivity.
Qed.

Lemma _attemptRecovery_lost_count (m : t) (now : Q) :
  countTrackingLost (map Fired (snd (_attemptRecovery m now))) = 0%nat.
Proof.
  unfold _attemptRecovery.
  repeat match goal with
         | |- context [if ?b then _ else _] => destruct b
         | |- context [match _determineRecoveryStrategy ?x with _ => _ end] =>
           destruct (_determineRecoveryStrategy x)
         end; reflexivity.
Qed.

Lemma countTrackingLost_app (l1 l2 : list item) :
  countTrackingLost (l1 ++ l2)
  = (countTrackingLost l1 + countTrackingLost l2)%nat.
Proof.
  unfold countTrackingLost. now rewrite filter_app, length_app.
Qed.

Lemma countTrackingLost_rev (l : list item) :
  countTrackingLost (rev l) = countTrackingLost l.
Proof.
  unfold countTrackingLost.
  induction l as [|i l IH]; [reflexivity|].
  cbn [rev]. rewrite filter_app, length_app, IH. cbn [filter].
  destruct (isTrackingLost i); cbn [length]; lia.
Qed.

(** One frame without data: the update returns, the state is [LOST]
    afterwards, and [onTrackingLost] is triggered once if the state was
    not [LOST] before and not at all if it was. *)
Lemma update_without_data (m : t) (clk : clock) :
  positiveThresholds (cfg m) ->
  exists a m' fs,
    update m None clk = (Some a, m', fs)
    /\ state m' = LOST
    /\ cfg m' = cfg m
    /\ countTrackingLost (map Fired fs)
       = if trackingState_eqb (state m) LOST then 0%nat else 1%nat.
Proof.
  intros P.
  destruct (update m None clk) as [[oa m'] fs] eqn:U.
  assert (R : exists a, oa = Some a).
  { unfold update in U. cbn [_updateMetrics negb] in U.
    repeat match type of U with
           | context [let '(_, _) := ?e in _] => destruct e
           end.
    injection U as <- _ _. eauto. }
  destruct R as [a ->].
  exists a, m', fs. split; [reflexivity|].
  pose proof (update_returned _ _ _ _ _ _ U) as (S & C & Qm & _).
  cbn [_updateMetrics fst] in Qm.
  assert (Z : overallQuality m' == 0) by (rewrite Qm; apply sum_zero_scores).
  split; [|split; [assumption|]].
  - rewrite S. now apply selectState_zero.
  - unfold update in U. cbn [_updateMetrics negb] in U.
    set (m1 := withFrame m _ _ _ _ _ _ _) in U.
    assert (L1 : selectState (cfg m1) (overallQuality m1) = LOST).
    { subst m1. cbn [cfg overallQuality withFrame].
      apply selectState_zero; [assumption|apply sum_zero_scores]. }
    pose proof (_updateState_lost_count m1 clk L1) as N1.
    destruct (_updateState m1 clk) as [m2 fired1].
    cbn [snd] in N1.
    set (m3 := if predictionEnabled (cfg m2) then _ else m2) in U.
    pose proof (_attemptRecovery_lost_count m3 (now_recovery clk)) as N2.
    destruct (recoveryEnabled (cfg m3) && trackingState_eqb (state m3) LOST).
    + destruct (_attemptRecovery m3 (now_recovery clk)) as [m4 fired2].
      cbn [snd] in N2. injection U as _ _ <-.
      rewrite map_app, countTrackingLost_app, N1, N2.
      subst m1. cbn [state withFrame]. lia.
    + injection U as _ _ <-.
      rewrite map_app, countTrackingLost_app, N1.
      subst m1. cbn [state withFrame map countTrackingLost filter length]. lia.
Qed.

Lemma runFrom_without_data (clks : list clock) (m : t) (log : list item) :
  positiveThresholds (cfg m) ->
  let r := runFrom m log (map (CallUpdate None) clks) in
  (clks <> [] -> state (fst r) = LOST)
  /\ countTrackingLost (snd r)
     = (countTrackingLost log
        + match clks with
          | [] => 0
          | _ => if trackingState_eqb (state m) LOST then 0 else 1
          end)%nat.
Proof.
  revert m log. induction clks as [|clk clks IH]; intros m log P.
  - cbn [map runFrom fst snd]. split; [congruence | lia].
  - cbn [map runFrom step].
    destruct (update_without_data m clk P) as (a & m' & fs & U & S & C & N).
    rewrite U. rewrite <- C in P.
    specialize (IH m' (rev (map Fired fs) ++ log) P).
    cbn zeta in IH. destruct IH as [IH1 IH2]. split.
    + intros _. destruct clks as [|c clks]; [exact S|].
      apply IH1. discriminate.
    + rewrite IH2, countTrackingLost_app, countTrackingLost_rev, N, S.
      cbn [trackingState_eqb]. destruct clks; lia.
Qed.

(** C7. From a monitor in [TRACKING_GOOD], ten consecutive [update] calls
    without tracking data end in [LOST], and [onTrackingLost] is triggered
    exactly once over the ten frames: in the first one, whose update
    already moves the state to [LOST]. (A trigger invokes the listener
    registered in the configuration, if there is one.) *)
Theorem tracking_lost_fires_once (m : t) (clks : list clock) :
  state m = TRACKING_GOOD ->
  positiveThresholds (cfg m) ->
  length clks = 10%nat ->
  let r := run m (map (CallUpdate None) clks) in
  let first := run m (map (CallUpdate None) (firstn 1 clks)) in
  state (fst r) = LOST
  /\ countTrackingLost (snd r) = 1%nat
  /\ state (fst first) = LOST
  /\ countTrackingLost (snd first) = 1%nat.
Proof.
  intros S P L r first.
  destruct clks as [|clk clks]; [discriminate|].
  pose proof (runFrom_without_data (clk :: clks) m [] P) as [A1 A2].
  pose proof (runFrom_without_data (firstn 1 (clk :: clks)) m [] P) as [B1 B2].
  cbn [firstn] in B1, B2. rewrite S in A2, B2. cbn in A2, B2.
  repeat split.
  - apply A1. discriminate.
  - exact A2.
  - apply B1. discriminate.
  - exact B2.
Qed.

End WithMath.

(** *** The guards of a recovery attempt *)

Lemma lostSince_stateChange (t0 : Q) (p n : trackingState) (older : list item) :
  n <> LOST ->
  lostSince (Fired (mkFiring t0 (OnStateChange p n)) :: older) = None.
Proof. destruct n; cbn; congruence. Qed.

Lemma consistent_new (o : options) : consistent (makeConfig o) (new o) [].
Proof. unfold consistent. cbn. repeat split. Qed.

Lemma consistent_withFrame (c : config) (m : t) (log : list item)
    ms q qh p n ft f :
  consistent c m log -> consistent c (withFrame m ms q qh p n ft f) log.
Proof. intros H. exact H. Qed.

(** [_updateState] keeps the invariant and triggers no recovery attempt. *)
Lemma _updateState_consistent (c : config) (m : t) (log : list item)
    (clk : clock) :
  consistent c m log ->
  consistent c (fst (_updateState m clk))
             (rev (map Fired (snd (_updateState m clk))) ++ log)
  /\ forallb (fun f => negb (isAttempt f)) (snd (_updateState m clk)) = true.
Proof.
  intros (C & L & N & D & A & R). unfold _updateState.
  generalize (selectState (cfg m) (overallQuality m)). intros next.
  destruct (trackingState_eqb (state m) next) eqn:E.
  - apply trackingState_eqb_eq in E. cbn [fst snd map rev app forallb].
    split; [|reflexivity].
    unfold consistent. cbn. rewrite <- E. repeat split; assumption.
  - apply trackingState_eqb_neq in E.
    unfold _handleStateChange. cbn [state overallQuality fst snd].
    destruct (trackingState_eqb next LOST) eqn:EN;
      destruct (trackingState_eqb (state m) LOST) eqn:EP;
      cbn [andb negb app map rev forallb isAttempt fired].
    + apply trackingState_eqb_eq in EN, EP. congruence.
    + apply trackingState_eqb_eq in EN. apply trackingState_eqb_neq in EP.
      split; [|reflexivity]. unfold consistent. cbn.
      rewrite EN. cbn. repeat split; try assumption.
      * intros H. exfalso. apply H. reflexivity.
      * intros _. apply D. rewrite (N EP). reflexivity.
    + apply trackingState_eqb_neq in EN.
      split; [|reflexivity]. unfold consistent. cbn.
      repeat split; try assumption;
        try (destruct next; try reflexivity; congruence).
    + apply trackingState_eqb_neq in EN, EP.
      split; [|reflexivity]. unfold consistent. cbn.
      assert (LN : lossStartTime m = None) by apply (N EP).
      rewrite LN in *.
      repeat split; try assumption;
        try (destruct next; try reflexivity; congruence).
Qed.

(** [_attemptRecovery] keeps the invariant, and an attempt it triggers has
    passed the three guards. *)
Lemma _attemptRecovery_guarded (c : config) (m : t) (log : list item) (now : Q) :
  consistent c m log ->
  state m = LOST ->
  0 < recoveryDelay c ->
  consistent c (fst (_attemptRecovery m now))
             (rev (map Fired (snd (_attemptRecovery m now))) ++ log)
  /\ (snd (_attemptRecovery m now) = []
      \/ exists n s,
           snd (_attemptRecovery m now) = [mkFiring now (OnRecoveryAttempt n s)]
           /\ dwelt c now log
           /\ belowMaximum true c log
           /\ cooledDown true c now log).
Proof.
  intros (C & L & N & D & A & R) S P. unfold _attemptRecovery.
  set (duration := match lossStartTime m with
                   | Some t0 => if truthy (Some t0) then now - t0
                                else lossDuration m
                   | None => lossDuration m
                   end).
  assert (Quiet : consistent c
            (withRecovery m duration (recoveryInProgress m)
                          (recoveryAttempts m) (lastRecoveryTime m)) log).
  { unfold consistent. cbn. repeat split; try assumption.
    intros T. subst duration.
    destruct (lossStartTime m) as [t0|]; [|now apply D].
    rewrite T. now apply D. }
  destruct (ltb duration (recoveryDelay (cfg m))) eqn:G1;
    [cbn [fst snd map rev app]; split; [exact Quiet | now left]|].
  destruct (recoveryInProgress m) eqn:G2;
    [cbn [fst snd map rev app]; split; [exact Quiet | now left]|].
  destruct (leb (maxRecoveryAttempts (cfg m)) (ofNat (recoveryAttempts m)))
    eqn:G3;
    [cbn [fst snd map rev app]; split; [exact Quiet | now left]|].
  destruct (ltb (now - lastRecoveryTime m) (recoveryCooldown (cfg m))) eqn:G4;
    [cbn [fst snd map rev app]; split; [exact Quiet | now left]|].
  apply ltb_false in G1, G4. apply leb_false in G3. rewrite C in G1, G3, G4.
  assert (Guards : dwelt c now log /\ belowMaximum true c log
                  /\ cooledDown true c now log).
  { split; [|split].
    - unfold dwelt. subst duration.
      destruct (lossStartTime m) as [t0|] eqn:EL.
      + destruct (truthy (Some t0)) eqn:T.
        * exists t0. split; [now rewrite <- L | exact G1].
        * rewrite (D eq_refl) in G1. exfalso. lra.
      + rewrite (D eq_refl) in G1. exfalso. lra.
    - unfold belowMaximum. rewrite <- A. exact G3.
    - unfold cooledDown. rewrite R in G4.
      destruct (lastAttempt true log); [exact G4 | exact I]. }
  match goal with
  | |- context [_determineRecoveryStrategy ?x] =>
    destruct (_determineRecoveryStrategy x) eqn:ES
  end;
    cbn [fst snd map rev app];
    try (split; [exact Quiet | now left]);
    (split;
     [ unfold consistent; cbn; rewrite <- A;
       repeat split; try assumption;
       intros T; subst duration;
       destruct (lossStartTime m) as [t0|]; [rewrite T|]; now apply D
     | right; eexists _, _; split; [reflexivity | exact Guards] ]).
Qed.

Lemma attemptsGuarded_quiet (r : bool) (c : config) (fs : list firing)
    (log : list item) :
  forallb (fun f => negb (isAttempt f)) fs = true ->
  attemptsGuarded r c log ->
  attemptsGuarded r c (rev (map Fired fs) ++ log).
Proof.
  revert log. induction fs as [|f fs IH]; intros log Q G; [exact G|].
  cbn [forallb] in Q. apply andb_true_iff in Q as [Qf Q].
  cbn [map rev]. rewrite <- app_assoc. apply IH; [exact Q|].
  cbn [app attemptsGuarded]. split; [|exact G].
  destruct f as [t0 cb]. destruct cb; try exact I. discriminate.
Qed.

Section WithMath.
Context {M : MathEnv}.

Lemma update_guarded (c : config) (m : t) (log : list item)
    (data : option trackingData) (clk : clock) :
  0 < recoveryDelay c ->
  consistent c m log ->
  attemptsGuarded true c log ->
  let '(_, m', fs) := update m data clk in
  consistent c m' (rev (map Fired fs) ++ log)
  /\ attemptsGuarded true c (rev (map Fired fs) ++ log).
Proof.
  intros P Inv G. unfold update.
  destruct (_updateMetrics (qualityHistory m) (metrics m) data) as [ms returned].
  destruct returned; cbn [negb];
    [|split; [now apply consistent_withFrame | exact G]].
  set (m1 := withFrame m ms _ _ _ _ _ _).
  assert (Inv1 : consistent c m1 log) by now apply consistent_withFrame.
  pose proof (_updateState_consistent c m1 log clk Inv1) as [Inv2 Q2].
  destruct (_updateState m1 clk) as [m2 fired1]. cbn [fst snd] in Inv2, Q2.
  set (log1 := rev (map Fired fired1) ++ log) in *.
  assert (G1 : attemptsGuarded true c log1)
    by (subst log1; now apply attemptsGuarded_quiet).
  set (m3 := if predictionEnabled (cfg m2) then _ else m2).
  assert (Inv3 : consistent c m3 log1).
  { subst m3. destruct (predictionEnabled (cfg m2)); [|exact Inv2].
    now apply consistent_withFrame. }
  destruct (recoveryEnabled (cfg m3) && trackingState_eqb (state m3) LOST)
    eqn:En.
  - apply andb_true_iff in En as [_ En]. apply trackingState_eqb_eq in En.
    pose proof (_attemptRecovery_guarded c m3 log1 (now_recovery clk) Inv3 En P)
      as [Inv4 F4].
    destruct (_attemptRecovery m3 (now_recovery clk)) as [m4 fired2].
    cbn [fst snd] in Inv4, F4.
    rewrite map_app, rev_app_distr, <- app_assoc. fold log1.
    split; [now apply consistent_withFrame|].
    destruct F4 as [->|(n & s & -> & Guards)]; [exact G1|].
    cbn [map rev app attemptsGuarded]. split; [exact Guards | exact G1].
  - rewrite app_nil_r. fold log1.
    split; [now apply consistent_withFrame | exact G1].
Qed.

Lemma step_guarded (c : config) (m : t) (log : list item) (k : call) :
  0 < recoveryDelay c ->
  consistent c m log ->
  attemptsGuarded true c log ->
  consistent c (fst (step m k)) (rev (snd (step m k)) ++ log)
  /\ attemptsGuarded true c (rev (snd (step m k)) ++ log).
Proof.
  intros P Inv G. destruct k as [data clk|success|]; cbn [step].
  - pose proof (update_guarded c m log data clk P Inv G) as H.
    destruct (update m data clk) as [[oa m'] fs]. exact H.
  - cbn [fst snd rev app attemptsGuarded]. split; [|split; [exact I | exact G]].
    destruct Inv as (C & L & N & D & A & R).
    unfold consistent. destruct success; cbn; repeat split; try assumption.
  - cbn [fst snd rev app attemptsGuarded]. split; [|split; [exact I | exact G]].
    destruct Inv as (C & _). unfold consistent. cbn. repeat split; assumption.
Qed.

Lemma runFrom_guarded (c : config) (ks : list call) (m : t) (log : list item) :
  0 < recoveryDelay c ->
  consistent c m log ->
  attemptsGuarded true c log ->
  consistent c (fst (runFrom m log ks)) (snd (runFrom m log ks))
  /\ attemptsGuarded true c (snd (runFrom m log ks)).
Proof.
  intros P. revert m log.
  induction ks as [|k ks IH]; intros m log Inv G; [now split|].
  cbn [runFrom].
  pose proof (step_guarded c m log k P Inv G) as [Inv' G'].
  destruct (step m k) as [m' added]. cbn [fst snd] in Inv', G'.
  now apply IH.
Qed.

(** Without a [reset()], counting from the latest reset changes
    nothing. *)
Lemma noReset_same (log : list item) :
  noReset log ->
  attemptsSince false log = attemptsSince true log
  /\ lastAttempt false log = lastAttempt true log.
Proof.
  unfold noReset. induction log as [|i log IH]; intros H; [now split|].
  cbn [forallb] in H. apply andb_true_iff in H as [Hi H].
  destruct (IH H) as [IH1 IH2].
  destruct i as [[t0 cb]|success|]; [| |discriminate].
  - destruct cb; cbn; split; congruence.
  - destruct success; cbn; split; congruence.
Qed.

Lemma attemptsGuarded_noReset (c : config) (log : list item) :
  noReset log -> attemptsGuarded true c log -> attemptsGuarded false c log.
Proof.
  induction log as [|i log IH]; intros N G; [exact I|].
  assert (N' : noReset log).
  { unfold noReset in *. cbn [forallb] in N. now apply andb_true_iff in N. }
  destruct G as [Gi G]. split; [|now apply IH].
  destruct i as [[now cb]|success|]; try exact I.
  destruct cb; try exact I.
  destruct (noReset_same log N') as [E1 E2].
  unfold belowMaximum, cooledDown in *. rewrite E1, E2. exact Gi.
Qed.

Lemma runFrom_noReset (ks : list call) (m : t) (log : list item) :
  resetFree ks -> noReset log -> noReset (snd (runFrom m log ks)).
Proof.
  unfold resetFree, noReset. revert m log.
  induction ks as [|k ks IH]; intros m log K N; [exact N|].
  cbn [forallb] in K. apply andb_true_iff in K as [Kk K].
  cbn [runFrom]. destruct (step m k) as [m' added] eqn:E.
  apply IH; [exact K|].
  rewrite forallb_app, N, andb_true_r.
  destruct k as [data clk|success|]; [| |discriminate]; cbn [step] in E.
  - destruct (update m data clk) as [[oa m1] fs]. injection E as _ <-.
    clear. induction fs as [|f fs IHf]; [reflexivity|].
    cbn [map rev]. rewrite forallb_app, IHf. reflexivity.
  - injection E as _ <-. reflexivity.
Qed.

(** C8, as the code has it. In every execution of a monitor (calls of
    [update], [recoveryComplete] and [reset] on a freshly constructed one,
    with a positive recovery delay), each recovery attempt is triggered
    only (1) when the state has been [LOST], without a change of state, a
    reset or a recovery reported successful, since an entry into [LOST]
    stamped at least the recovery delay earlier; (2) when fewer attempts
    than the maximum have been made since the latest recovery or
    [reset()]; and (3) at least the cooldown after the previous attempt
    made since the latest [reset()]. In an execution without [reset()]
    the count and the cooldown hold across the whole execution. *)
Theorem recovery_attempts_guarded (o : options) (ks : list call) :
  0 < recoveryDelay (makeConfig o) ->
  attemptsGuarded true (makeConfig o) (snd (run (new o) ks))
  /\ (resetFree ks ->
      attemptsGuarded false (makeConfig o) (snd (run (new o) ks))).
Proof.
  intros P. unfold run.
  assert (G : attemptsGuarded true (makeConfig o)
                              (snd (runFrom (new o) [] ks))).
  { apply (runFrom_guarded (makeConfig o) ks (new o) [] P).
    - apply consistent_new.
    - exact I. }
  split; [exact G|].
  intros F. apply attemptsGuarded_noReset; [|exact G].
  now apply runFrom_noReset.
Qed.

End WithMath.

Lemma recovery_attempts_guarded_witness :
  attemptsGuarded true (makeConfig listeningOptions)
                  (snd (run (new listeningOptions) resetRun)).
Proof.
  apply (proj1 (recovery_attempts_guarded listeningOptions resetRun eq_refl)).
Defined.

(** The run [resetRun] makes two attempts, at 3000 ms and at 3700 ms. *)
Example resetRun_attempts :
  attemptsOf (snd (run (new listeningOptions) resetRun))
  = [(3000, 1%nat); (3700, 1%nat)].
Proof. vm_compute. reflexivity. Qed.

(** C8, as stated, fails: without the allowance for [reset()], the second
    attempt of [resetRun] comes 700 ms after the first, and the cooldown
    is 2000 ms. *)
Lemma recovery_cooldown_broken_by_reset :
  ~ attemptsGuarded false (makeConfig listeningOptions)
                  (snd (run (new listeningOptions) resetRun)).
Proof.
  let l := eval vm_compute in (snd (run (new listeningOptions) resetRun)) in
  assert (E : snd (run (new listeningOptions) resetRun) = l)
    by (vm_compute; reflexivity).
  rewrite E. clear E.
  cbn [attemptsGuarded]. unfold cooledDown. cbn [lastAttempt].
  intros [(_ & _ & H) _]. cbn in H.
  apply H. reflexivity.
Qed.

Lemma update_state_is_threshold_function_witness :
  let m' := snd (fst (update (new listeningOptions) (Some boundaryFrame)
                             (at_ 1000))) in
  overallQuality m' == 75 # 100
  /\ state m' = stateOfQuality (overallQuality m')
  /\ state m' = TRACKING_GOOD.
Proof.
  let r := eval vm_compute in
        (update (new listeningOptions) (Some boundaryFrame) (at_ 1000)) in
  assert (E : update (new listeningOptions) (Some boundaryFrame) (at_ 1000) = r)
    by (vm_compute; reflexivity).
  pose proof (update_state_is_threshold_function _ _ _ _ _ _ E) as H.
  cbv zeta. rewrite E. cbn [fst snd].
  split; [vm_compute; reflexivity|].
  split; [|reflexivity].
  apply H. repeat split.
Defined.

Lemma tracking_lost_fires_once_witness :
  let m := snd (fst (update (new listeningOptions) (Some boundaryFrame)
                            (at_ 1000))) in
  let r := run m (map (fun k => CallUpdate None (at_ (ofNat k * 33 + 2000)))
                      (seq 0 10)) in
  state (fst r) = LOST /\ countTrackingLost (snd r) = 1%nat.
Proof.
  cbv zeta.
  pose proof (tracking_lost_fires_once
                (snd (fst (update (new listeningOptions) (Some boundaryFrame)
                                  (at_ 1000))))
                (map (fun k => at_ (ofNat k * 33 + 2000)) (seq 0 10))) as H.
  rewrite map_map in H.
  destruct H as (H1 & H2 & _).
  - vm_compute. reflexivity.
  - vm_compute. repeat split.
  - reflexivity.
  - split; assumption.
Defined.

End TrackingQualityMonitorSpec.

(** ** AdvancedPoseEstimator *)

Module AdvancedPoseEstimatorSpec.
Import JS JSFacts Three AdvancedPoseEstimator.

(** *** Projection *)

Lemma project_none (c : CameraIntrinsics) (p : Vector3) :
  project c p = None <-> v_z p <= 0.
Proof.
  unfold project. destruct (leb (v_z p) 0) eqn:E.
  - apply leb_true in E. tauto.
  - apply leb_false in E. split; [discriminate | lra].
Qed.

Lemma project_some (c : CameraIntrinsics) (p : Vector3) (uv : point2) :
  project c p = Some uv ->
  0 < v_z p
  /\ p_x uv = focalLength c * v_x p / v_z p + cx c
  /\ p_y uv = focalLength c * v_y p / v_z p + cy c.
Proof.
  unfold project. destruct (leb (v_z p) 0) eqn:E; [discriminate|].
  apply leb_false in E. intros H. injection H as <-. cbn. tauto.
Qed.

Section WithEnv.
Context {M : MathEnv} {T : ThreeEnv}.

Lemma project_inFront (c : CameraIntrinsics) (p : pose) (k : correspondence) :
  inFront p k = true
  <-> exists uv,
        project c (transform (quaternion p) (translation p) (model k)) = Some uv.
Proof.
  unfold inFront. rewrite ltb_true. split.
  - intros H.
    destruct (project c (transform (quaternion p) (translation p) (model k)))
      as [uv|] eqn:E; [eauto|].
    apply project_none in E. lra.
  - intros [uv E]. now apply project_some in E.
Qed.

Lemma project_behind (c : CameraIntrinsics) (p : pose) (k : correspondence) :
  inFront p k = false ->
  project c (transform (quaternion p) (translation p) (model k)) = None.
Proof.
  intros H.
  destruct (project c (transform (quaternion p) (translation p) (model k)))
    as [uv|] eqn:E; [|reflexivity].
  assert (F : inFront p k = true) by (apply (project_inFront c); eauto).
  congruence.
Qed.

(** The inlier scoring of [findInliers] keeps only points that project. *)
Lemma scoreLoop_projects (threshold : Q) (projectFn : Vector3 -> option point2)
    (cs : list correspondence) (i : nat) (inliers : list nat) (total : Q)
    (j : nat) :
  In j (fst (scoreLoop threshold projectFn i cs inliers total)) ->
  In j inliers
  \/ exists k uv,
       nth_error cs (j - i) = Some k /\ (i <= j)%nat
       /\ projectFn (model k) = Some uv.
Proof.
  revert i inliers total.
  induction cs as [|c cs IH]; intros i inliers total H; [now left|].
  cbn [scoreLoop] in H.
  assert (Rest : forall inl tot,
             In j (fst (scoreLoop threshold projectFn (S i) cs inl tot)) ->
             In j inl
             \/ exists k uv,
                  nth_error (c :: cs) (j - i) = Some k /\ (i <= j)%nat
                  /\ projectFn (model k) = Some uv).
  { intros inl tot Hj. destruct (IH _ _ _ Hj) as [?|(k & uv & N & L & P)];
      [now left|].
    right. exists k, uv. split; [|split; [lia | exact P]].
    replace (j - i)%nat with (S (j - S i)) by lia. exact N. }
  destruct (projectFn (model c)) as [uv|] eqn:P; [|now apply Rest in H].
  destruct (ltb _ threshold); [|now apply Rest in H].
  apply Rest in H. destruct H as [H|H]; [|now right].
  apply in_app_or in H as [H|[<-|[]]]; [now left|].
  right. exists c, uv. rewrite Nat.sub_diag. repeat split; [lia | exact P].
Qed.

(** The reprojection error ignores the points that do not project. *)
Lemma errorLoop_filter (c : CameraIntrinsics) (p : pose)
    (cs : list correspondence) (total : Q) (count : nat) :
  errorLoop c p cs total count
  = errorLoop c p (filter (inFront p) cs) total count.
Proof.
  revert total count. induction cs as [|k cs IH]; intros total count;
    [reflexivity|].
  cbn [filter]. destruct (inFront p k) eqn:F.
  - cbn [errorLoop].
    destruct (project c (transform (quaternion p) (translation p) (model k)));
      apply IH.
  - cbn [errorLoop]. rewrite (project_behind c p k F). apply IH.
Qed.

(** So does the Jacobian: it has one row per point that projects, and a
    row has two entries per pose parameter. *)
Lemma _computeJacobian_filter (c : CameraIntrinsics) (p : pose)
    (cs : list correspondence) :
  _computeJacobian c p cs = _computeJacobian c p (filter (inFront p) cs)
  /\ length (fst (_computeJacobian c p cs)) = length (filter (inFront p) cs)
  /\ length (snd (_computeJacobian c p cs))
     = (2 * length (filter (inFront p) cs))%nat
  /\ Forall (fun row => length row = 12%nat) (fst (_computeJacobian c p cs)).
Proof.
  induction cs as [|k cs (IH1 & IH2 & IH3 & IH4)];
    [cbn; repeat split; constructor|].
  cbn [filter]. destruct (inFront p k) eqn:F.
  - apply (project_inFront c) in F as [uv E].
    cbn [_computeJacobian]. rewrite <- IH1.
    destruct (_computeJacobian c p cs) as [J r]. rewrite E.
    cbn [fst snd length] in *. repeat split; try lia.
    constructor; [|exact IH4].
    unfold jacobianRow. cbn [seq flat_map].
    repeat match goal with
           | |- context [match ?x with Some _ => _ | None => _ end] =>
             destruct x
           end; reflexivity.
  - cbn [_computeJacobian]. rewrite (project_behind c p k F).
    destruct (_computeJacobian c p cs) as [J r]. cbn [fst snd] in *.
    repeat split; assumption.
Qed.

(** C10. [project] returns [null] exactly when the depth of the point is
    not positive; otherwise the depth it divides by is positive and the
    pixel is [f x / z + cx, f y / z + cy]. Its callers in the estimator
    skip a [null] projection: an index scored as an inlier belongs to a
    point that projects, the reprojection error and the Jacobian are those
    of the correspondences in front of the camera (one row of twelve
    entries each), so no result depends on a division by a depth that is
    not positive. *)
Theorem project_guards_depth
    (c : CameraIntrinsics) (v : Vector3) (p : pose) (cs : list correspondence)
    (threshold : Q) :
  (project c v = None <-> v_z v <= 0)
  /\ (forall uv, project c v = Some uv ->
        0 < v_z v
        /\ p_x uv = focalLength c * v_x v / v_z v + cx c
        /\ p_y uv = focalLength c * v_y v / v_z v + cy c)
  /\ (forall j, In j (fst (scoreInliers threshold (project c) cs)) ->
        exists k, nth_error cs j = Some k /\ 0 < v_z (model k))
  /\ _calculateReprojectionError c p cs
     = _calculateReprojectionError c p (filter (inFront p) cs)
  /\ _computeJacobian c p cs = _computeJacobian c p (filter (inFront p) cs)
  /\ length (fst (_computeJacobian c p cs)) = length (filter (inFront p) cs)
  /\ Forall (fun row => length row = 12%nat) (fst (_computeJacobian c p cs)).
Proof.
  split; [apply project_none|].
  split; [apply project_some|].
  split; [|split; [|split; [|split]]].
  - intros j H. unfold scoreInliers in H.
    apply scoreLoop_projects in H as [[]|(k & uv & N & _ & P)].
    rewrite Nat.sub_0_r in N. exists k. split; [exact N|].
    now apply project_some in P.
  - unfold _calculateReprojectionError. now rewrite errorLoop_filter.
  - apply _computeJacobian_filter.
  - apply _computeJacobian_filter.
  - apply _computeJacobian_filter.
Qed.

(** *** Correspondences and the guards of [estimate] *)




Lemma _solvePnP_too_few (c : CameraIntrinsics) (cs : list correspondence)
    (rand : randomSource) (d : nat) :
  (length cs < 4)%nat -> _solvePnP c cs rand d = (None, d).
Proof.
  intros H. unfold _solvePnP. apply Nat.ltb_lt in H. now rewrite H.
Qed.


(** *** Confidence *)





Lemma unitScore_zero (q : Q) : 50 <= q -> JS.max 0 (1 - q / 50) == 0.
Proof.
  intros H.
  destruct (max_cases 0 (1 - q / 50)) as [[L ->]|[_ ->]]; qlra.
Qed.

Context {Laws : MathLaws M}.




(** *** Outlier rejection *)

(** What the iterations of [findInliers] return is the best set they
    started from or the one set the scoring produces: the scoring does not
    depend on the sample drawn. *)
Lemma ransacLoop_result (r : RANSAC) (rand : randomSource)
    (projectFn : Vector3 -> option point2) (cs : list correspondence)
    (iterations d : nat) (best : list nat) (bestError : xnum) :
  fst (ransacLoop r rand projectFn cs iterations d best bestError) = best
  \/ fst (ransacLoop r rand projectFn cs iterations d best bestError)
     = fst (scoreInliers (inlierThreshold r) projectFn cs).
Proof.
  revert d best bestError.
  induction iterations as [|n IH]; intros d best bestError; [now left|].
  cbn [ransacLoop].
  destruct (_randomSample rand d (length cs) 4) as [sample d1].
  destruct (negb (_isValidSample cs sample)); [apply IH|].
  destruct (scoreInliers (inlierThreshold r) projectFn cs)
    as [inliers totalError] eqn:E.
  cbn [fst] in *.
  set (better := _ || _).
  destruct (leb _ _).
  - cbn [fst]. destruct better; [now right | now left].
  - destruct better.
    + destruct (IH d1 inliers (Fin totalError)) as [->| ->]; now right.
    + apply IH.
Qed.

(** When fewer points than [minInliers] lie within the threshold of the
    projection of their model point, all indices are returned, whatever
    the random draws. *)
Lemma findInliers_fallback (r : RANSAC) (rand : randomSource) (d : nat)
    (cs : list correspondence) (projectFn : Vector3 -> option point2) :
  (length (fst (scoreInliers (inlierThreshold r) projectFn cs))
   < minInliers r)%nat ->
  fst (findInliers r rand d cs projectFn) = seq 0 (length cs).
Proof.
  intros H. unfold findInliers.
  destruct (length cs <? minInliers r)%nat; [reflexivity|].
  pose proof (ransacLoop_result r rand projectFn cs (maxIterations r) d []
                                Infinity) as R.
  destruct (ransacLoop r rand projectFn cs (maxIterations r) d [] Infinity)
    as [best d1].
  cbn [fst] in *.
  assert (L : (length best < minInliers r)%nat).
  { destruct R as [->| ->]; [cbn; lia | exact H]. }
  apply Nat.leb_gt in L. now rewrite L.
Qed.

End WithEnv.

(** C2 fails on the code. Eight landmarks of a face 500 mm in front of
    the camera: seven are exactly the projections of their model points,
    the eighth (index 0 of the correspondences) is displaced by 320 pixels.
    [findInliers], called as [estimate] calls it, returns all eight
    indices, the outlier's included, whatever the random draws: it scores
    the points against the projection of the untransformed model, which
    none of them is near, and falls back to the full set. *)
Theorem ransac_keeps_injected_outlier (rand : randomSource) (d : nat) :
  let c := frameCamera defaultEstimator None None in
  let cs := frameCorrespondences defaultEstimator
              (withOutlier (eightPoints (0, 0, 500))) None None in
  length cs = 8%nat
  /\ forallb (seenAt c (0, 0, 500) 0) (tl cs) = true
  /\ forallb (seenAt c (0, 0, 500) 320) (firstn 1 cs) = true
  /\ fst (findInliers (ransac defaultEstimator) rand d cs (project c))
     = seq 0 8
  /\ In 0%nat (fst (findInliers (ransac defaultEstimator) rand d cs (project c))).
Proof.
  cbv zeta.
  assert (F : fst (findInliers (ransac defaultEstimator) rand d
                     (frameCorrespondences defaultEstimator
                        (withOutlier (eightPoints (0, 0, 500))) None None)
                     (project (frameCamera defaultEstimator None None)))
              = seq 0 8).
  { rewrite findInliers_fallback; [vm_compute; reflexivity|].
    vm_compute. lia. }
  split; [vm_compute; reflexivity|].
  split; [vm_compute; reflexivity|].
  split; [vm_compute; reflexivity|].
  split; [exact F|].
  rewrite F. cbn. tauto.
Qed.

(** In that frame the scoring finds every point more than 150 pixels
    from the projection of its untransformed model point: the seven clean
    ones too. *)
Example outlier_frame_scores :
  let c := frameCamera defaultEstimator None None in
  let cs := frameCorrespondences defaultEstimator
              (withOutlier (eightPoints (0, 0, 500))) None None in
  forallb
    (fun k =>
       match project c (model k) with
       | Some uv =>
         ltb 150 (hypot (p_x uv - p_x (image k)) (p_y uv - p_y (image k)))
       | None => true
       end)
    cs = true.
Proof. vm_compute. reflexivity. Qed.

(** With all the points near the projection of the untransformed model
    but the outlier, the same call does exclude it. *)
Example ransac_excludes_outlier_at_origin :
  let cs := frameCorrespondences defaultEstimator
              (withOutlier (eightPoints (0, 0, 0))) None None in
  fst (findInliers (ransac defaultEstimator) cycle 0 cs
                   (project (camera defaultEstimator)))
  = [1; 2; 3; 4; 5; 6; 7]%nat.
Proof. vm_compute. reflexivity. Qed.



End AdvancedPoseEstimatorSpec.

(** ** ProductionStabilizer *)

Module ProductionStabilizerSpec.
Import JS Three ProductionStabilizer.

Section WithEnv.
Context {M : MathEnv} {T : ThreeEnv}.

(** The first call on a stabilizer that is not initialized stores the
    measurement and returns it; no filter but the Kalman state, which
    records the measurement, is touched. *)
Lemma update_uninitialized (s : t) (pose : poseInput) (timestamp : option Q)
    (clk : clock) :
  initialized s = false ->
  let '(out, s') := update s pose timestamp clk in
  out_position out = in_position pose
  /\ out_quaternion out = in_quaternion pose
  /\ out_scale out
     = match in_scale pose with Some sc => sc | None => scale s end
  /\ out_velocity out = velocity s
  /\ positionFilters s' = positionFilters s
  /\ rotationFilters s' = rotationFilters s
  /\ scaleFilters s' = scaleFilters s
  /\ doubleExp s' = doubleExp s
  /\ jitterSuppressors s' = jitterSuppressors s
  /\ initialized s' = true.
Proof.
  intros H. unfold update. rewrite H. cbn [negb].
  repeat split; reflexivity.
Qed.

(** C3. The first [update] on a stabilizer fresh from the constructor, or
    fresh from [reset()], returns the input pose: the position and the
    quaternion of the measurement, and its scale (the unit scale when the
    measurement carries none), with zero velocity; the One-Euro filters,
    smoothers and jitter suppressors are left as they were. *)
Theorem first_update_returns_measurement
    (o : options) (s : t) (pose : poseInput) (timestamp : option Q)
    (clk : clock) :
  let snaps (start : t) :=
    let out := fst (update start pose timestamp clk) in
    let after := snd (update start pose timestamp clk) in
    out_position out = in_position pose
    /\ out_quaternion out = in_quaternion pose
    /\ (forall sc, in_scale pose = Some sc -> out_scale out = sc)
    /\ (in_scale pose = None -> out_scale out = mkVector3 1 1 1)
    /\ out_velocity out = mkVector3 0 0 0
    /\ positionFilters after = positionFilters start
    /\ rotationFilters after = rotationFilters start
    /\ scaleFilters after = scaleFilters start
    /\ doubleExp after = doubleExp start
    /\ jitterSuppressors after = jitterSuppressors start in
  snaps (new o) /\ snaps (reset s).
Proof.
  cbv zeta.
  assert (G : forall start,
             initialized start = false ->
             scale start = mkVector3 1 1 1 ->
             velocity start = mkVector3 0 0 0 ->
             let out := fst (update start pose timestamp clk) in
             let after := snd (update start pose timestamp clk) in
             out_position out = in_position pose
             /\ out_quaternion out = in_quaternion pose
             /\ (forall sc, in_scale pose = Some sc -> out_scale out = sc)
             /\ (in_scale pose = None -> out_scale out = mkVector3 1 1 1)
             /\ out_velocity out = mkVector3 0 0 0
             /\ positionFilters after = positionFilters start
             /\ rotationFilters after = rotationFilters start
             /\ scaleFilters after = scaleFilters start
             /\ doubleExp after = doubleExp start
             /\ jitterSuppressors after = jitterSuppressors start).
  { intros start I S V.
    pose proof (update_uninitialized start pose timestamp clk I) as H.
    destruct (update start pose timestamp clk) as [out after].
    cbn [fst snd].
    destruct H as (P & Qt & Sc & Ve & F1 & F2 & F3 & F4 & F5 & _).
    rewrite S in Sc. rewrite V in Ve.
    repeat split; try assumption.
    - intros sc E. now rewrite E in Sc.
    - intros E. now rewrite E in Sc. }
  split; apply G; reflexivity.
Qed.

End WithEnv.

(** On a fresh stabilizer the first measurement comes back as it is; a
    second, different one comes back filtered. *)
Example first_update_snaps_second_filters :
  let clk := mkClock 1000 1000 in
  let first := update (new noOptions) samplePose (Some 1) clk in
  let second := update (snd first) nextPose (Some (1033 # 1000)) clk in
  out_position (fst first) = in_position samplePose
  /\ out_quaternion (fst first) = in_quaternion samplePose
  /\ Some (out_scale (fst first)) = in_scale samplePose
  /\ v_x (out_position (fst second)) < v_x (in_position nextPose).
Proof. vm_compute. repeat split. Qed.

End ProductionStabilizerSpec.

(* ================================================================== *)
(** * Part III: further properties                                    *)
(* ================================================================== *)

(** ** Lists and sums *)

Module ListFacts.
Import JS JSFacts.

Lemma tl_skipn {A : Type} (k : nat) (xs : list A) :
  tl (skipn k xs) = skipn (S k) xs.
Proof.
  revert xs. induction k as [|k IH]; intros [|x xs]; try reflexivity.
  cbn [skipn]. rewrite IH. destruct xs; reflexivity.
Qed.

Lemma recent_length {A : Type} (k : nat) (xs : list A) :
  length (recent k xs) = Nat.min k (length xs).
Proof. unfold recent. rewrite length_skipn. lia. Qed.

Lemma recent_all {A : Type} (k : nat) (xs : list A) :
  (length xs <= k)%nat -> recent k xs = xs.
Proof.
  intros H. unfold recent. replace (length xs - k)%nat with 0%nat by lia.
  reflexivity.
Qed.

(** Pushing onto the last [k] elements and shifting when there are more
    than [k] leaves the last [k] elements of the longer list. *)
Lemma push_recent {A : Type} (k : nat) (acc : list A) (x : A) :
  (if (k <? length (recent k acc ++ [x]))%nat
   then tl (recent k acc ++ [x]) else recent k acc ++ [x])
  = recent k (acc ++ [x]).
Proof.
  rewrite length_app, recent_length. cbn [length].
  unfold recent. rewrite length_app. cbn [length].
  destruct (Nat.ltb_spec k (Nat.min k (length acc) + 1)) as [L|L].
  - assert (K : (k <= length acc)%nat) by lia.
    replace (length acc + 1 - k)%nat with (S (length acc - k)) by lia.
    rewrite <- tl_skipn. rewrite (skipn_app (length acc - k)).
    replace (length acc - k - length acc)%nat with 0%nat by lia.
    reflexivity.
  - assert (K : (length acc < k)%nat) by lia.
    replace (length acc - k)%nat with 0%nat by lia.
    replace (length acc + 1 - k)%nat with 0%nat by lia.
    reflexivity.
Qed.

Lemma fold_Qplus_shift (xs : list Q) (acc : Q) :
  fold_left Qplus xs acc == acc + fold_left Qplus xs 0.
Proof.
  revert acc. induction xs as [|x xs IH]; intros acc; cbn [fold_left].
  - ring.
  - rewrite IH, (IH (0 + x)). ring.
Qed.

Lemma sum_cons (x : Q) (xs : list Q) : sum (x :: xs) == x + sum xs.
Proof. unfold sum. cbn [fold_left]. rewrite fold_Qplus_shift. ring. Qed.

Lemma sum_app (xs ys : list Q) : sum (xs ++ ys) == sum xs + sum ys.
Proof.
  induction xs as [|x xs IH]; cbn [app].
  - unfold sum at 2. cbn. ring.
  - rewrite !sum_cons, IH. ring.
Qed.


Lemma ofNat_nonneg (n : nat) : 0 <= inject_Z (Z.of_nat n).
Proof. change 0 with (inject_Z 0). rewrite <- Zle_Qle. lia. Qed.

Lemma ofNat_pos (n : nat) : (0 < n)%nat -> 0 < inject_Z (Z.of_nat n).
Proof. intros H. change 0 with (inject_Z 0). rewrite <- Zlt_Qlt. lia. Qed.

Lemma ofNat_le (n m : nat) :
  (n <= m)%nat -> inject_Z (Z.of_nat n) <= inject_Z (Z.of_nat m).
Proof. intros H. rewrite <- Zle_Qle. lia. Qed.




Lemma square_nonneg (a : Q) : 0 <= a * a.
Proof.
  destruct (Qlt_le_dec a 0) as [N|P].
  - setoid_replace (a * a) with ((- a) * (- a)) by ring.
    apply Qmult_le_0_compat; lra.
  - now apply Qmult_le_0_compat.
Qed.

Lemma sum_nonneg (xs : list Q) : Forall (fun x => 0 <= x) xs -> 0 <= sum xs.
Proof.
  induction 1 as [|x xs H _ IH]; [unfold sum; cbn [fold_left]; lra|].
  rewrite sum_cons. lra.
Qed.

(** The mean square deviation from any number is not negative. *)
Lemma deviation_nonneg (mean : Q) (xs : list Q) :
  0 <= sum (map (fun b => (b - mean) * (b - mean)) xs)
       / inject_Z (Z.of_nat (length xs)).
Proof.
  assert (S : 0 <= sum (map (fun b => (b - mean) * (b - mean)) xs)).
  { apply sum_nonneg. apply Forall_forall. intros y Hy.
    apply in_map_iff in Hy as (b & <- & _). apply square_nonneg. }
  destruct xs as [|x xs];
    [cbn [map length Z.of_nat]; unfold sum, Qdiv; cbn [fold_left]; lra|].
  apply Qle_shift_div_l; [apply ofNat_pos; cbn; lia | lra].
Qed.



Lemma push_length {A : Type} (k : nat) (xs : list A) (x : A) :
  (length xs <= k)%nat ->
  (length (if (k <? length (xs ++ [x]))%nat then tl (xs ++ [x]) else xs ++ [x])
   <= k)%nat.
Proof.
  intros H. rewrite length_app. cbn [length].
  destruct (Nat.ltb_spec k (length xs + 1)) as [L|L].
  - destruct xs as [|y xs]; cbn [app tl length] in *; [lia|].
    rewrite length_app. cbn [length]. lia.
  - rewrite length_app. cbn [length]. lia.
Qed.

End ListFacts.

(** ** CameraCalibrator.js and the calibration step *)

Module CameraCalibratorProps.
Import JS JSFacts ListFacts CameraCalibrator CameraCalibratorSpec.

Section WithMath.
Context {M : MathEnv}.

(** *** The sample window *)

Lemma step_window (c : t) (acc : list sample) (k : call) :
  samples c = recent (maxSamples c) acc ->
  samples (step c k) = recent (maxSamples c) (acceptedStep acc k)
  /\ maxSamples (step c k) = maxSamples c.
Proof.
  intros H. destruct k as [f now|now|]; cbn [step acceptedStep].
  - unfold addSample. destruct (truthy f); cbn [negb snd samples maxSamples].
    + split; [|reflexivity]. rewrite H. apply push_recent.
    + now split.
  - destruct (getCalibratedFocalLength_cases c now)
      as [[E _]|(c' & E & _ & _ & S & _)]; rewrite E; cbn [snd].
    + now split.
    + split; [now rewrite S|].
      unfold getCalibratedFocalLength in E.
      repeat match type of E with
             | context [if ?b then _ else _] => destruct b
             end; try discriminate.
      injection E as <-. reflexivity.
  - now split.
Qed.

Lemma run_window (ks : list call) (c : t) (acc : list sample) :
  samples c = recent (maxSamples c) acc ->
  samples (run c ks) = recent (maxSamples c) (fold_left acceptedStep ks acc)
  /\ maxSamples (run c ks) = maxSamples c.
Proof.
  revert c acc. induction ks as [|k ks IH]; intros c acc H; [now split|].
  cbn [run fold_left]. destruct (step_window c acc k H) as [S Mx].
  rewrite <- Mx in S. destruct (IH _ _ S) as [S' Mx'].
  unfold run in *. rewrite S', Mx', Mx. now split.
Qed.

(** X1. After any run of calls on a fresh calibrator, the stored samples are
    the fifteen most recent of those accepted since the latest [reset()]
    (all of them, when there are fewer), in the order they were added:
    the window never holds more than [maxSamples] samples, and a full one
    drops its oldest sample for each new one. *)
Theorem samples_are_recent_accepted (ks : list call) :
  samples (run new ks) = recent 15 (acceptedSamples ks)
  /\ (length (samples (run new ks)) <= 15)%nat
  /\ length (samples (run new ks))
     = Nat.min 15 (length (acceptedSamples ks)).
Proof.
  destruct (run_window ks new [] eq_refl) as [S _].
  cbn [maxSamples new] in S. fold (acceptedSamples ks) in S.
  rewrite S, recent_length. repeat split. lia.
Qed.

(** *** The weighted average *)




(** *** The variance *)




(** *** A calibrator with the constructor's constants *)

Lemma step_constants (c : t) (k : call) :
  REAL_IPD_MM (step c k) = REAL_IPD_MM c
  /\ EYE_left (step c k) = EYE_left c /\ EYE_right (step c k) = EYE_right c.
Proof.
  destruct k as [f now|now|]; cbn [step].
  - unfold addSample. destruct (negb (truthy f)); cbn; repeat split.
  - unfold getCalibratedFocalLength.
    repeat match goal with
           | |- context [if ?b then _ else _] => destruct b
           end; cbn; repeat split.
  - cbn. repeat split.
Qed.

Lemma run_constants (ks : list call) (c : t) :
  REAL_IPD_MM (run c ks) = REAL_IPD_MM c
  /\ EYE_left (run c ks) = EYE_left c /\ EYE_right (run c ks) = EYE_right c.
Proof.
  revert c. induction ks as [|k ks IH]; intros c; [repeat split|].
  cbn [run fold_left]. destruct (IH (step c k)) as (A & B & C).
  destruct (step_constants c k) as (A' & B' & C').
  unfold run in *. rewrite A, B, C. now repeat split.
Qed.

Lemma estimateFocalLength_constants (c c' : t) (ls : option landmarks) (w : Q) :
  REAL_IPD_MM c = REAL_IPD_MM c' -> EYE_left c = EYE_left c' ->
  EYE_right c = EYE_right c' ->
  estimateFocalLength c ls w = estimateFocalLength c' ls w.
Proof.
  intros A B C. unfold estimateFocalLength, focalCandidate.
  now rewrite A, B, C.
Qed.

(** X4. No frame is ever accepted for calibration. Whatever calls the
    calibrator has served since its construction, and whatever the
    landmarks and the image width (finite numbers, as everywhere here),
    [estimateFocalLength] returns [null]; so
    the tracker's calibration step, which adds a sample only for a non-null
    estimate, changes nothing, and a tracker that starts in ['CALIBRATING']
    with a fresh calibrator stays there on every frame. *)
Theorem runtime_calibration_never_completes
    (ks : list call) (ls : option landmarks) (w : Q)
    (frames : list ProfessionalFaceTracker.frame) :
  estimateFocalLength (run new ks) ls w = None
  /\ (forall s h t1 t2,
        ProfessionalFaceTracker.calibrator s = run new ks ->
        ProfessionalFaceTracker._attemptCalibration s ls w h t1 t2 = s)
  /\ fold_left ProfessionalFaceTracker.calibrationStep frames
               ProfessionalFaceTracker.calibrating
     = ProfessionalFaceTracker.calibrating.
Proof.
  assert (A : forall ks' ls' w', estimateFocalLength (run new ks') ls' w' = None).
  { intros ks' ls' w'. destruct (run_constants ks' new) as (I & L & R).
    rewrite (estimateFocalLength_constants _ new ls' w' I L R).
    apply estimateFocalLength_new_none. }
  split; [apply A|]. split.
  - intros s h t1 t2 Hs. unfold ProfessionalFaceTracker._attemptCalibration.
    rewrite Hs, A. reflexivity.
  - induction frames as [|f frames IH]; [reflexivity|].
    cbn [fold_left]. rewrite <- IH at 2. f_equal.
    unfold ProfessionalFaceTracker.calibrationStep,
      ProfessionalFaceTracker._attemptCalibration.
    cbn [ProfessionalFaceTracker.calibration
         ProfessionalFaceTracker.calibrating
         ProfessionalFaceTracker.calibrator].
    rewrite estimateFocalLength_new_none. reflexivity.
Qed.

(** *** The status report *)

(** X5. In the status of a calibrator that has served any run of calls since
    its construction, [stable] implies [calibrated]: a stable status
    carries a focal length in [500, 3000] stored less than 10 seconds
    before, and a variance below 5000; the sample count it reports never
    exceeds [maxSamples]. *)
Theorem stable_status_is_calibrated (ks : list call) (now : Q) :
  let st := getStatus (run new ks) now in
  (st_samples st <= st_maxSamples st)%nat
  /\ (st_stable st = true ->
      st_calibrated st = true
      /\ (exists f, st_focalLength st = Some f /\ 500 <= f /\ f <= 3000)
      /\ st_variance st < 5000
      /\ now - lastCalibrationTime (run new ks) < 10000).
Proof.
  cbv zeta. unfold getStatus.
  cbn [st_samples st_maxSamples st_stable st_calibrated st_focalLength st_variance].
  destruct (run_window ks new [] eq_refl) as [S Mx].
  split.
  - rewrite S, Mx, recent_length. lia.
  - unfold isStable. intros H.
    pose proof (run_storedInRange ks new I) as R. unfold storedInRange in R.
    destruct (truthy (calibratedFocal (run new ks))) eqn:T;
      cbn [negb] in H; [|discriminate].
    apply andb_true_iff in H as [H1 H2]. apply ltb_true in H1, H2.
    split; [reflexivity|].
    destruct (calibratedFocal (run new ks)) as [f|]; [|discriminate].
    split; [exists f; tauto|]. now split.
Qed.

End WithMath.



End CameraCalibratorProps.

(** ** TrackingQualityMonitor.js *)

Module TrackingQualityMonitorProps.
Import JS JSFacts ListFacts TrackingQualityMonitor TrackingQualityMonitorSpec.

(** *** The steps of [update], one by one *)

Lemma _updateState_frame (m : t) (clk : clock) :
  let m' := fst (_updateState m clk) in
  metrics m' = metrics m /\ qualityHistory m' = qualityHistory m
  /\ frameCount m' = frameCount m.
Proof.
  unfold _updateState.
  destruct (trackingState_eqb (state m) (selectState (cfg m) (overallQuality m)));
    cbn; repeat split.
Qed.

Lemma _attemptRecovery_frame (m : t) (now : Q) :
  let m' := fst (_attemptRecovery m now) in
  metrics m' = metrics m /\ qualityHistory m' = qualityHistory m
  /\ frameCount m' = frameCount m.
Proof.
  unfold _attemptRecovery.
  repeat match goal with
         | |- context [if ?b then _ else _] => destruct b
         | |- context [match _determineRecoveryStrategy ?x with _ => _ end] =>
           destruct (_determineRecoveryStrategy x)
         end; cbn; repeat split.
Qed.

Section WithMath.
Context {M : MathEnv}.

(** An [update] that throws: only the frame counters and the metrics
    updated before the exception change. *)
Lemma update_thrown (m : t) (data : option trackingData) (clk : clock) :
  snd (_updateMetrics (qualityHistory m) (metrics m) data) = false ->
  exists fps',
    update m data clk
    = (None,
       withFrame m (fst (_updateMetrics (qualityHistory m) (metrics m) data))
                 (overallQuality m) (qualityHistory m) (predictedLoss m)
                 (S (frameCount m)) (now_update clk) fps',
       []).
Proof.
  intros H. unfold update.
  destruct (_updateMetrics (qualityHistory m) (metrics m) data) as [ms returned].
  cbn [fst snd] in *. subst returned. cbn [negb]. eexists. reflexivity.
Qed.

(** An [update] that returns: the metrics, the quality and the state
    transition, the prediction flag, the recovery attempt when the state is
    [LOST], and the push onto the quality history. *)
Lemma update_steps (m : t) (data : option trackingData) (clk : clock) :
  snd (_updateMetrics (qualityHistory m) (metrics m) data) = true ->
  exists fps' m2 fired1 predicted m4 fired2,
    let ms := fst (_updateMetrics (qualityHistory m) (metrics m) data) in
    let m3 := withFrame m2 (metrics m2) (overallQuality m2) (qualityHistory m2)
                        predicted (frameCount m2) (lastFrameTime m2) (fps m2) in
    let pushed := qualityHistory m4 ++ [overallQuality m4] in
    let m5 := withFrame m4 (metrics m4) (overallQuality m4)
                        (if (100 <? length pushed)%nat then tl pushed else pushed)
                        (predictedLoss m4) (frameCount m4) (lastFrameTime m4)
                        (fps m4) in
    _updateState
      (withFrame m ms (_calculateOverallQuality ms) (qualityHistory m)
                 (predictedLoss m) (S (frameCount m)) (now_update clk) fps')
      clk = (m2, fired1)
    /\ ((_attemptRecovery m3 (now_recovery clk) = (m4, fired2)
         /\ state m3 = LOST /\ recoveryEnabled (cfg m3) = true)
        \/ (m4 = m3 /\ fired2 = []))
    /\ update m data clk = (Some (_getAssessment m5), m5, fired1 ++ fired2).
Proof.
  intros H. unfold update.
  destruct (_updateMetrics (qualityHistory m) (metrics m) data) as [ms returned].
  cbn [fst snd] in *. subst returned. cbn [negb].
  match goal with
  | |- context [_updateState ?m1 clk] =>
      destruct (_updateState m1 clk) as [m2 fired1] eqn:E2
  end.
  set (m3 := if predictionEnabled (cfg m2) then _ else m2).
  assert (E3 : exists predicted,
             m3 = withFrame m2 (metrics m2) (overallQuality m2)
                            (qualityHistory m2) predicted (frameCount m2)
                            (lastFrameTime m2) (fps m2)).
  { subst m3. destruct (predictionEnabled (cfg m2)); [eexists; reflexivity|].
    exists (predictedLoss m2). destruct m2. reflexivity. }
  destruct E3 as [predicted E3].
  destruct (if recoveryEnabled (cfg m3) && trackingState_eqb (state m3) LOST
            then _attemptRecovery m3 (now_recovery clk) else (m3, []))
    as [m4 fired2] eqn:E4.
  eexists _, m2, fired1, predicted, m4, fired2. cbv zeta.
  split; [exact E2|]. rewrite <- E3. split; [|reflexivity].
  destruct (recoveryEnabled (cfg m3)) eqn:R; cbn [andb] in E4.
  - destruct (trackingState_eqb (state m3) LOST) eqn:L.
    + left. apply trackingState_eqb_eq in L. now repeat split.
    + right. now injection E4 as <- <-.
  - right. now injection E4 as <- <-.
Qed.

End WithMath.

(** *** Recovery attempts and their acknowledgement *)

Lemma _updateState_quiet (m : t) (clk : clock) :
  forallb (fun f => negb (isAttempt f)) (snd (_updateState m clk)) = true
  /\ recoveryInProgress (fst (_updateState m clk)) = recoveryInProgress m.
Proof.
  unfold _updateState.
  destruct (trackingState_eqb (state m) (selectState (cfg m) (overallQuality m)));
    [now split|].
  unfold _handleStateChange. cbn [fst snd recoveryInProgress].
  split; [|reflexivity].
  repeat match goal with
         | |- context [if ?b then _ else _] => destruct b
         end; reflexivity.
Qed.

Lemma pendingAttempt_quiet (fs : list firing) (log : list item) :
  forallb (fun f => negb (isAttempt f)) fs = true ->
  pendingAttempt (rev (map Fired fs) ++ log) = pendingAttempt log.
Proof.
  revert log. induction fs as [|f fs IH]; intros log Q; [reflexivity|].
  cbn [forallb] in Q. apply andb_true_iff in Q as [Qf Q].
  cbn [map rev]. rewrite <- app_assoc, (IH _ Q). cbn [app pendingAttempt].
  apply negb_true_iff in Qf. now rewrite Qf.
Qed.

Lemma attemptsAcknowledged_quiet (fs : list firing) (log : list item) :
  forallb (fun f => negb (isAttempt f)) fs = true ->
  attemptsAcknowledged log ->
  attemptsAcknowledged (rev (map Fired fs) ++ log).
Proof.
  revert log. induction fs as [|f fs IH]; intros log Q G; [exact G|].
  cbn [forallb] in Q. apply andb_true_iff in Q as [Qf Q].
  cbn [map rev]. rewrite <- app_assoc. apply IH; [exact Q|].
  cbn [app attemptsAcknowledged isAttemptItem]. split; [|exact G].
  apply negb_true_iff in Qf. rewrite Qf. discriminate.
Qed.

(** [_attemptRecovery] triggers at most one attempt, and only when none is
    in progress; it then marks one in progress. *)
Lemma _attemptRecovery_progress (m : t) (now : Q) :
  (snd (_attemptRecovery m now) = []
   /\ recoveryInProgress (fst (_attemptRecovery m now)) = recoveryInProgress m)
  \/ (exists n s,
        snd (_attemptRecovery m now) = [mkFiring now (OnRecoveryAttempt n s)]
        /\ recoveryInProgress m = false
        /\ recoveryInProgress (fst (_attemptRecovery m now)) = true).
Proof.
  unfold _attemptRecovery.
  destruct (ltb _ (recoveryDelay (cfg m))); [left; now split|].
  destruct (recoveryInProgress m) eqn:P; [left; now split|].
  destruct (leb _ _); [left; now split|].
  destruct (ltb _ (recoveryCooldown (cfg m))); [left; now split|].
  match goal with
  | |- context [_determineRecoveryStrategy ?x] =>
    destruct (_determineRecoveryStrategy x)
  end; try (left; now split); right; eexists _, _; now repeat split.
Qed.

Section WithMath.
Context {M : MathEnv}.

Lemma update_acknowledged (m : t) (log : list item)
    (data : option trackingData) (clk : clock) :
  recoveryInProgress m = pendingAttempt log ->
  attemptsAcknowledged log ->
  let '(_, m', fs) := update m data clk in
  recoveryInProgress m' = pendingAttempt (rev (map Fired fs) ++ log)
  /\ attemptsAcknowledged (rev (map Fired fs) ++ log).
Proof.
  intros P G.
  destruct (snd (_updateMetrics (qualityHistory m) (metrics m) data)) eqn:R.
  - destruct (update_steps m data clk R)
      as (fps' & m2 & fired1 & predicted & m4 & fired2 & E2 & E4 & ->).
    pose proof (_updateState_quiet
                  (withFrame m
                     (fst (_updateMetrics (qualityHistory m) (metrics m) data))
                     (_calculateOverallQuality
                        (fst (_updateMetrics (qualityHistory m) (metrics m) data)))
                     (qualityHistory m) (predictedLoss m) (S (frameCount m))
                     (now_update clk) fps') clk) as [Q2 P2].
    rewrite E2 in Q2, P2. cbn [fst snd recoveryInProgress withFrame] in Q2, P2.
    cbn [recoveryInProgress withFrame].
    rewrite map_app, rev_app_distr, <- app_assoc.
    set (log1 := rev (map Fired fired1) ++ log).
    assert (P1 : recoveryInProgress m2 = pendingAttempt log1).
    { subst log1. rewrite pendingAttempt_quiet by exact Q2. congruence. }
    assert (G1 : attemptsAcknowledged log1).
    { subst log1. now apply attemptsAcknowledged_quiet. }
    destruct E4 as [(E4 & _ & _)|[-> ->]]; [|now split].
    match type of E4 with
    | _attemptRecovery ?m3 ?now = _ =>
      pose proof (_attemptRecovery_progress m3 now) as A; rewrite E4 in A
    end.
    cbn [fst snd recoveryInProgress withFrame] in A.
    destruct A as [[-> A]|(n & s & -> & A1 & A2)].
    + cbn [map rev app]. rewrite A. now split.
    + cbn [map rev app pendingAttempt attemptsAcknowledged isAttemptItem
           isAttempt fired orb].
      rewrite A2. split; [reflexivity|]. split; [|exact G1].
      intros _. congruence.
  - destruct (update_thrown m data clk R) as [fps' ->].
    cbn [map rev app recoveryInProgress withFrame]. now split.
Qed.

Lemma runFrom_acknowledged (ks : list call) (m : t) (log : list item) :
  recoveryInProgress m = pendingAttempt log ->
  attemptsAcknowledged log ->
  recoveryInProgress (fst (runFrom m log ks))
  = pendingAttempt (snd (runFrom m log ks))
  /\ attemptsAcknowledged (snd (runFrom m log ks)).
Proof.
  revert m log. induction ks as [|k ks IH]; intros m log P G; [now split|].
  cbn [runFrom]. destruct k as [data clk|success|]; cbn [step].
  - pose proof (update_acknowledged m log data clk P G) as H.
    destruct (update m data clk) as [[oa m'] fs]. destruct H as [P' G'].
    now apply IH.
  - apply IH; cbn; [reflexivity|]. split; [discriminate | exact G].
  - apply IH; cbn; [reflexivity|]. split; [discriminate | exact G].
Qed.

Lemma forallb_weaken {A : Type} (p q : A -> bool) (l : list A) :
  (forall x, p x = true -> q x = true) ->
  forallb p l = true -> forallb q l = true.
Proof.
  intros H. rewrite !forallb_forall. intros F x Hx. apply H, F, Hx.
Qed.

Lemma countAttempts_bound (log : list item) :
  noReset log ->
  forallb (fun i => match i with Completed _ => false | _ => true end) log = true ->
  attemptsAcknowledged log ->
  countAttempts log = if pendingAttempt log then 1%nat else 0%nat.
Proof.
  unfold noReset, countAttempts.
  induction log as [|i log IH]; intros N C G; [reflexivity|].
  cbn [forallb] in N, C. apply andb_true_iff in N as [Ni N].
  apply andb_true_iff in C as [Ci C]. destruct G as [Gi G].
  specialize (IH N C G).
  destruct i as [f|success|]; try discriminate.
  cbn [filter isAttemptItem pendingAttempt] in *.
  destruct (isAttempt f); cbn [orb length].
  - rewrite IH, (Gi eq_refl). reflexivity.
  - exact IH.
Qed.

Lemma runFrom_updatesOnly (ks : list call) (m : t) (log : list item) :
  updatesOnly ks ->
  forallb (fun i => match i with Fired _ => true | _ => false end) log = true ->
  forallb (fun i => match i with Fired _ => true | _ => false end)
          (snd (runFrom m log ks)) = true.
Proof.
  unfold updatesOnly. revert m log.
  induction ks as [|k ks IH]; intros m log U L; [exact L|].
  cbn [forallb] in U. apply andb_true_iff in U as [Uk U].
  destruct k as [data clk|success|]; try discriminate.
  cbn [runFrom step]. destruct (update m data clk) as [[oa m'] fs].
  apply IH; [exact U|]. rewrite forallb_app, L, andb_true_r.
  clear. induction fs as [|f fs IHf]; [reflexivity|].
  cbn [map rev]. rewrite forallb_app, IHf. reflexivity.
Qed.

(** X6. A recovery attempt is never triggered while an earlier one is
    pending: in every execution of a monitor, between two
    [onRecoveryAttempt] triggers there is a call of [recoveryComplete] or
    of [reset], and [recoveryInProgress] is set exactly when an attempt has
    been triggered since the latest such call. A client that only calls
    [update] therefore sees at most one recovery attempt, however long
    tracking stays lost. *)
Theorem recovery_attempt_awaits_completion (o : options) (ks : list call) :
  let r := run (new o) ks in
  recoveryInProgress (fst r) = pendingAttempt (snd r)
  /\ attemptsAcknowledged (snd r)
  /\ (updatesOnly ks -> (countAttempts (snd r) <= 1)%nat).
Proof.
  cbv zeta. unfold run.
  destruct (runFrom_acknowledged ks (new o) [] eq_refl I) as [P G].
  split; [exact P|]. split; [exact G|].
  intros U.
  pose proof (runFrom_updatesOnly ks (new o) [] U eq_refl) as F.
  rewrite countAttempts_bound; try exact G.
  - destruct (pendingAttempt _); lia.
  - unfold noReset. revert F. apply forallb_weaken.
    intros [f|success|]; [reflexivity | discriminate | discriminate].
  - revert F. apply forallb_weaken.
    intros [f|success|]; [reflexivity | discriminate | discriminate].
Qed.

End WithMath.

(** *** Losses and recoveries alternate *)

Lemma lostOpen_attempts (fs : list firing) (log : list item) :
  forallb isAttempt fs = true ->
  lostOpen (rev (map Fired fs) ++ log) = lostOpen log
  /\ (alternating log -> alternating (rev (map Fired fs) ++ log)).
Proof.
  revert log. induction fs as [|f fs IH]; intros log Q; [now split|].
  cbn [forallb] in Q. apply andb_true_iff in Q as [Qf Q].
  cbn [map rev]. rewrite <- app_assoc.
  destruct f as [t0 cb]. destruct cb; try discriminate.
  destruct (IH (Fired (mkFiring t0 (OnRecoveryAttempt attempt s)) :: log) Q)
    as [L A].
  cbn [app] in *. split; [now rewrite L|].
  intros G. apply A. cbn. now split.
Qed.

Lemma _updateState_alternates (m : t) (clk : clock) (log : list item) :
  (state m = LOST <-> lostOpen log = true) ->
  alternating log ->
  let '(m', fs) := _updateState m clk in
  (state m' = LOST <-> lostOpen (rev (map Fired fs) ++ log) = true)
  /\ alternating (rev (map Fired fs) ++ log).
Proof.
  intros S A. unfold _updateState.
  generalize (selectState (cfg m) (overallQuality m)). intros next.
  destruct (trackingState_eqb (state m) next) eqn:E.
  - apply trackingState_eqb_eq in E. cbn [state map rev app]. rewrite <- E.
    now split.
  - apply trackingState_eqb_neq in E.
    unfold _handleStateChange. cbn [state overallQuality].
    destruct (trackingState_eqb next LOST) eqn:EN;
      destruct (trackingState_eqb (state m) LOST) eqn:EP;
      cbn [andb negb app map rev state].
    + apply trackingState_eqb_eq in EN, EP. congruence.
    + apply trackingState_eqb_eq in EN. apply trackingState_eqb_neq in EP.
      cbn [lostOpen alternating]. rewrite EN. repeat split; try assumption.
      destruct (lostOpen log); [exfalso; apply EP, S; reflexivity | reflexivity].
    + apply trackingState_eqb_neq in EN. apply trackingState_eqb_eq in EP.
      cbn [lostOpen alternating].
      repeat split; try assumption; try congruence; try discriminate.
      now apply S.
    + apply trackingState_eqb_neq in EN, EP.
      assert (NL : lostOpen log = false).
      { destruct (lostOpen log); [exfalso; apply EP, S; reflexivity | reflexivity]. }
      cbn [lostOpen alternating]. rewrite NL.
      repeat split; try assumption; try congruence; try discriminate.
Qed.

Lemma _attemptRecovery_attempts (m : t) (now : Q) :
  forallb isAttempt (snd (_attemptRecovery m now)) = true.
Proof.
  destruct (_attemptRecovery_progress m now) as [[-> _]|(n & s & -> & _)];
    reflexivity.
Qed.

Section WithMath.
Context {M : MathEnv}.

Lemma update_alternates (m : t) (log : list item)
    (data : option trackingData) (clk : clock) :
  (state m = LOST <-> lostOpen log = true) ->
  alternating log ->
  let '(_, m', fs) := update m data clk in
  (state m' = LOST <-> lostOpen (rev (map Fired fs) ++ log) = true)
  /\ alternating (rev (map Fired fs) ++ log).
Proof.
  intros S A.
  destruct (snd (_updateMetrics (qualityHistory m) (metrics m) data)) eqn:R.
  - destruct (update_steps m data clk R)
      as (fps' & m2 & fired1 & predicted & m4 & fired2 & E2 & E4 & ->).
    match type of E2 with
    | _updateState ?m1 clk = _ =>
      pose proof (_updateState_alternates m1 clk log S A) as H; rewrite E2 in H
    end.
    destruct H as [S2 A2]. cbn [state withFrame].
    rewrite map_app, rev_app_distr, <- app_assoc.
    destruct E4 as [(E4 & _ & _)|[-> ->]]; [|now split].
    match type of E4 with
    | _attemptRecovery ?m3 ?now = _ =>
      pose proof (_attemptRecovery_attempts m3 now) as Q;
        pose proof (_attemptRecovery_fields m3 now) as F;
        rewrite E4 in Q, F
    end.
    cbn [fst snd state withFrame] in Q, F. destruct F as (F & _).
    destruct (lostOpen_attempts fired2 (rev (map Fired fired1) ++ log) Q)
      as [L G].
    rewrite L, F. split; [exact S2 | now apply G].
  - destruct (update_thrown m data clk R) as [fps' ->].
    cbn [map rev app state withFrame]. now split.
Qed.

(** X7. The two loss triggers alternate. In every execution of a monitor,
    [onTrackingLost] is triggered only when no loss is open (none has been
    reported since the construction, the latest [reset()] or the latest
    [onTrackingRecovered]), [onTrackingRecovered] only when one is; and the
    state is [LOST] exactly when a loss is open. *)
Theorem loss_and_recovery_alternate (o : options) (ks : list call) :
  let r := run (new o) ks in
  (state (fst r) = LOST <-> lostOpen (snd r) = true)
  /\ alternating (snd r).
Proof.
  cbv zeta. unfold run.
  assert (G : forall ks m log,
             (state m = LOST <-> lostOpen log = true) ->
             alternating log ->
             (state (fst (runFrom m log ks)) = LOST
              <-> lostOpen (snd (runFrom m log ks)) = true)
             /\ alternating (snd (runFrom m log ks))).
  { clear ks. intros ks. induction ks as [|k ks IH]; intros m log S A;
      [now split|].
    cbn [runFrom]. destruct k as [data clk|success|]; cbn [step].
    - pose proof (update_alternates m log data clk S A) as H.
      destruct (update m data clk) as [[oa m'] fs]. destruct H as [S' A'].
      now apply IH.
    - apply IH; cbn [rev app lostOpen alternating state recoveryComplete];
        [exact S | now split].
    - apply IH; cbn [rev app lostOpen alternating state reset];
        [split; discriminate | now split]. }
  apply G; cbn; [split; discriminate | exact I].
Qed.

(** *** The assessment and the getters after an [update] *)

Lemma selectState_tracks (c : config) (q : Q) :
  selectState c q <> INITIALIZING /\ selectState c q <> ERROR.
Proof.
  unfold selectState.
  repeat match goal with
         | |- context [if ?b then _ else _] => destruct b
         end; split; discriminate.
Qed.

Lemma _determineRecoveryStrategy_some (m : t) :
  _determineRecoveryStrategy m <> NONE.
Proof.
  unfold _determineRecoveryStrategy.
  repeat match goal with
         | |- context [if ?b then _ else _] => destruct b
         end; discriminate.
Qed.

Lemma getRecommendedAction_recover (m : t) (s : strategy) :
  getRecommendedAction m = Recover s <->
  state m = LOST /\ s = _determineRecoveryStrategy m.
Proof.
  unfold getRecommendedAction.
  destruct (trackingState_eqb (state m) LOST) eqn:E.
  - apply trackingState_eqb_eq in E. split.
    + intros H. injection H as <-. now split.
    + intros [_ ->]. reflexivity.
  - apply trackingState_eqb_neq in E. split.
    + intros H. destruct (predictedLoss m); [discriminate|].
      destruct (trackingState_eqb (state m) TRACKING_POOR); discriminate.
    + intros [H _]. contradiction.
Qed.

(** X8. After an [update] that returns, the state is one of the six the
    quality selects, never [INITIALIZING] or [ERROR]; so in the assessment
    returned [isTracking] is the negation of [isLost], a recovery strategy
    is recommended (one other than ['none']) exactly when the state is
    [LOST], and [getRecommendedAction] names a recovery strategy exactly
    then, never ['none']. *)
Theorem assessment_reads_state
    (m : t) (data : option trackingData) (clk : clock)
    (a : assessment) (m' : t) (fs : list firing) :
  update m data clk = (Some a, m', fs) ->
  state m' <> INITIALIZING /\ state m' <> ERROR
  /\ a_isTracking a = negb (a_isLost a)
  /\ (a_isLost a = true <-> state m' = LOST)
  /\ (a_recommendedStrategy a = NONE <-> state m' <> LOST)
  /\ ((exists s, getRecommendedAction m' = Recover s) <-> state m' = LOST)
  /\ (forall s, getRecommendedAction m' = Recover s -> s <> NONE).
Proof.
  intros U. apply update_returned in U as (S & _ & _ & ->).
  destruct (selectState_tracks (cfg m) (overallQuality m')) as [N1 N2].
  rewrite <- S in N1, N2.
  pose proof (_determineRecoveryStrategy_some m') as D.
  split; [exact N1|]. split; [exact N2|].
  unfold _getAssessment.
  cbn [a_isTracking a_isLost a_recommendedStrategy].
  split; [|split; [|split; [|split]]].
  - destruct (state m'); try reflexivity; congruence.
  - apply trackingState_eqb_eq.
  - destruct (trackingState_eqb (state m') LOST) eqn:E.
    + apply trackingState_eqb_eq in E. split; [contradiction | congruence].
    + apply trackingState_eqb_neq in E. split; [now intros _ | reflexivity].
  - split.
    + intros [s H]. now apply getRecommendedAction_recover in H.
    + intros H. exists (_determineRecoveryStrategy m').
      now apply getRecommendedAction_recover.
  - intros s H. apply getRecommendedAction_recover in H as [_ ->]. exact D.
Qed.

(** X9. After an [update] that returns, with thresholds in their order
    (acceptable at most good, good at most excellent), the two quality
    getters agree with the state: [isTrackingGood] holds exactly in
    [TRACKING_EXCELLENT] and [TRACKING_GOOD], [isTrackingAcceptable]
    exactly in those and [TRACKING_ACCEPTABLE]. *)
Theorem quality_getters_agree_with_state
    (m : t) (data : option trackingData) (clk : clock)
    (a : assessment) (m' : t) (fs : list firing) :
  update m data clk = (Some a, m', fs) ->
  acceptableThreshold (cfg m) <= goodThreshold (cfg m) ->
  goodThreshold (cfg m) <= excellentThreshold (cfg m) ->
  (isTrackingGood m' = true
   <-> getState m' = TRACKING_EXCELLENT \/ getState m' = TRACKING_GOOD)
  /\ (isTrackingAcceptable m' = true
      <-> getState m' = TRACKING_EXCELLENT \/ getState m' = TRACKING_GOOD
          \/ getState m' = TRACKING_ACCEPTABLE)
  /\ getQuality m' = a_quality a.
Proof.
  intros U O1 O2. apply update_returned in U as (S & C & _ & ->).
  unfold isTrackingGood, isTrackingAcceptable, getState, getQuality.
  cbn [a_quality _getAssessment].
  assert (G : forall A B : Prop,
             A /\ B -> A /\ B /\ overallQuality m' = overallQuality m')
    by (intros A B [HA HB]; repeat split; assumption).
  apply G. clear G.
  rewrite S, C. unfold selectState.
  generalize (overallQuality m'). intros q.
  repeat match goal with
         | |- context [leb ?x q] =>
           let E := fresh "E" in
           destruct (leb x q) eqn:E;
           [apply leb_true in E | apply leb_false in E]
         end;
    split;
    (split;
     [ intros H; try discriminate H;
       first [ now left | now right | now (right; left)
             | now (right; right) | exfalso; lra ]
     | intros H; try reflexivity;
       repeat match goal with
              | D : _ \/ _ |- _ => destruct D
              end; try discriminate; exfalso; lra ]).
Qed.

End WithMath.

(** *** The quality is a score *)

Lemma weightedTotals_bounds (ms : list QualityMetric) (acc : Q * Q) :
  Forall (fun mt => unitInterval (current mt) /\ 0 <= weight mt) ms ->
  0 <= fst acc -> fst acc <= snd acc ->
  let r := fold_left
             (fun acc m => (fst acc + getWeightedScore m, snd acc + weight m))
             ms acc in
  0 <= fst r /\ fst r <= snd r.
Proof.
  intros F. revert acc.
  induction F as [|mt ms [[C0 C1] W] _ IH]; intros acc A B; [now split|].
  cbn [fold_left]. apply IH; cbn [fst snd]; unfold getWeightedScore.
  - assert (0 <= current mt * weight mt) by now apply Qmult_le_0_compat.
    lra.
  - assert (current mt * weight mt <= 1 * weight mt)
      by (apply Qmult_le_compat_r; assumption).
    lra.
Qed.

Lemma _calculateOverallQuality_unit (ms : metricSet) :
  unitMetrics ms -> unitInterval (_calculateOverallQuality ms).
Proof.
  intros U. unfold _calculateOverallQuality, weightedTotals.
  pose proof (weightedTotals_bounds (metricValues ms) (0, 0) U) as B.
  cbv zeta in B. cbn [fst snd] in B. specialize (B ltac:(lra) ltac:(lra)).
  destruct (fold_left _ (metricValues ms) (0, 0)) as [weightedSum totalWeight].
  cbn [fst snd] in B. destruct B as [B0 B1]. unfold unitInterval.
  destruct (ltb 0 totalWeight) eqn:E; [|lra].
  apply ltb_true in E. split.
  - apply Qle_shift_div_l; [exact E | lra].
  - apply Qle_shift_div_r; [exact E | lra].
Qed.

Lemma metricUpdate_unit (mt : QualityMetric) (v : Q) :
  unitInterval v -> 0 <= weight mt ->
  unitInterval (current (metricUpdate mt v)) /\ 0 <= weight (metricUpdate mt v).
Proof. intros V W. cbn. now split. Qed.

Lemma max0_unit (x : Q) : 0 <= x -> unitInterval (JS.max 0 (1 - x)).
Proof.
  intros H. unfold unitInterval. split; [apply max_l|].
  destruct (max_cases 0 (1 - x)) as [[_ ->]|[_ ->]]; lra.
Qed.

Lemma ratio_unit (k n : nat) :
  (k <= n)%nat -> (0 < n)%nat -> unitInterval (ofNat k / ofNat n).
Proof.
  intros K N. unfold unitInterval, ofNat.
  pose proof (ofNat_pos n N) as P. pose proof (ofNat_nonneg k) as A.
  pose proof (ofNat_le k n K) as B. split.
  - apply Qle_shift_div_l; [exact P | lra].
  - apply Qle_shift_div_r; [exact P | lra].
Qed.

Lemma countVisible_bound (ls : landmarks) (acc v : nat) :
  countVisible ls acc = Some v -> (v <= acc + length ls)%nat.
Proof.
  revert acc. induction ls as [|[l|] ls IH]; intros acc H; cbn in H.
  - injection H as <-. lia.
  - apply IH in H. cbn [length]. destruct (inFrame l); lia.
  - discriminate.
Qed.

Lemma array_variance_nonneg (arr : list Q) : 0 <= _calculateVariance arr.
Proof.
  unfold _calculateVariance. destruct arr as [|x arr]; [lra|].
  apply deviation_nonneg.
Qed.

Lemma _estimateMotionConsistency_unit (qh : list Q) :
  unitInterval (_estimateMotionConsistency qh).
Proof.
  unfold _estimateMotionConsistency.
  destruct (length qh <? 3)%nat; [unfold unitInterval; lra|].
  apply max0_unit.
  pose proof (array_variance_nonneg (lastN 5 qh)). lra.
Qed.

Lemma unitMetrics_intro (a b c d e f : QualityMetric) :
  (unitInterval (current a) /\ 0 <= weight a) ->
  (unitInterval (current b) /\ 0 <= weight b) ->
  (unitInterval (current c) /\ 0 <= weight c) ->
  (unitInterval (current d) /\ 0 <= weight d) ->
  (unitInterval (current e) /\ 0 <= weight e) ->
  (unitInterval (current f) /\ 0 <= weight f) ->
  unitMetrics (mkMetrics a b c d e f).
Proof.
  intros. unfold unitMetrics, metricValues.
  cbn [landmarkConfidence poseStability reprojectionError faceVisibility
       motionConsistency occlusionLevel].
  repeat (apply Forall_cons; [assumption|]). apply Forall_nil.
Qed.

Lemma unitMetrics_elim (ms : metricSet) :
  unitMetrics ms ->
  (unitInterval (current (landmarkConfidence ms))
   /\ 0 <= weight (landmarkConfidence ms))
  /\ (unitInterval (current (poseStability ms))
      /\ 0 <= weight (poseStability ms))
  /\ (unitInterval (current (reprojectionError ms))
      /\ 0 <= weight (reprojectionError ms))
  /\ (unitInterval (current (faceVisibility ms))
      /\ 0 <= weight (faceVisibility ms))
  /\ (unitInterval (current (motionConsistency ms))
      /\ 0 <= weight (motionConsistency ms))
  /\ (unitInterval (current (occlusionLevel ms))
      /\ 0 <= weight (occlusionLevel ms)).
Proof.
  unfold unitMetrics, metricValues. intros U.
  repeat match goal with
         | H : Forall _ (_ :: _) |- _ =>
           let A := fresh "U" in
           apply Forall_cons_iff in H as [A H]
         end.
  tauto.
Qed.

Section WithMath.
Context {M : MathEnv}.
Hypothesis hypot3_nonneg : forall a b c, 0 <= hypot3 a b c.

Lemma _estimatePoseStability_unit (d : trackingData) :
  unitInterval (_estimatePoseStability d).
Proof.
  unfold _estimatePoseStability.
  destruct (td_velocity d) as [[[vx vy] vz]|]; [|unfold unitInterval; lra].
  apply max0_unit. pose proof (hypot3_nonneg vx vy vz). qlra.
Qed.

Lemma _updateMetrics_unit (qh : list Q) (ms : metricSet)
    (data : option trackingData) :
  match data with Some d => plausible d | None => True end ->
  unitMetrics ms ->
  unitMetrics (fst (_updateMetrics qh ms data)).
Proof.
  intros P U.
  apply unitMetrics_elim in U as (U0 & U1 & U2 & U3 & U4 & U5).
  assert (Z : unitInterval 0) by (unfold unitInterval; lra).
  destruct data as [d|]; cbn [_updateMetrics].
  - destruct P as (Pc & Ps & Pe & Pv & Po & Pl).
    assert (LC : unitInterval (current (match td_confidence d with
                                        | Some c => metricUpdate (landmarkConfidence ms) c
                                        | None => landmarkConfidence ms
                                        end))
                 /\ 0 <= weight (match td_confidence d with
                                 | Some c => metricUpdate (landmarkConfidence ms) c
                                 | None => landmarkConfidence ms
                                 end)).
    { destruct (td_confidence d); [apply metricUpdate_unit; tauto | exact U0]. }
    assert (PS : unitInterval (current (match td_poseStability d with
                                        | Some v => metricUpdate (poseStability ms) v
                                        | None => metricUpdate (poseStability ms)
                                                    (_estimatePoseStability d)
                                        end))
                 /\ 0 <= weight (match td_poseStability d with
                                 | Some v => metricUpdate (poseStability ms) v
                                 | None => metricUpdate (poseStability ms)
                                             (_estimatePoseStability d)
                                 end)).
    { destruct (td_poseStability d); apply metricUpdate_unit; try tauto.
      apply _estimatePoseStability_unit. }
    assert (RE : unitInterval (current (match td_reprojectionError d with
                                        | Some e => metricUpdate (reprojectionError ms)
                                                      (unitScore e)
                                        | None => reprojectionError ms
                                        end))
                 /\ 0 <= weight (match td_reprojectionError d with
                                 | Some e => metricUpdate (reprojectionError ms)
                                               (unitScore e)
                                 | None => reprojectionError ms
                                 end)).
    { destruct (td_reprojectionError d) as [[e|]|]; [| |exact U2].
      - apply metricUpdate_unit; [|tauto]. cbn [unitScore].
        apply (max0_unit (e / 50)). qlra.
      - apply metricUpdate_unit; [exact Z | tauto]. }
    assert (V : match (match td_faceVisibility d with
                       | Some v => Some v
                       | None => _estimateFaceVisibility d
                       end) with
                | Some v => unitInterval v
                | None => True
                end).
    { destruct (td_faceVisibility d); [exact Pv|].
      unfold _estimateFaceVisibility.
      destruct (td_landmarks d) as [ls|]; [|exact Z].
      destruct (countVisible ls 0) as [v|] eqn:E; [|exact I].
      apply countVisible_bound in E. apply ratio_unit; [lia|].
      destruct ls; [exfalso; apply Pl; reflexivity | cbn; lia]. }
    destruct (match td_faceVisibility d with
              | Some v => Some v
              | None => _estimateFaceVisibility d
              end) as [v|]; cbn [fst].
    + assert (O : unitInterval
                    (1 - match td_occlusionLevel d with
                         | Some o => o
                         | None => _estimateOcclusion d
                         end)).
      { destruct (td_occlusionLevel d) as [o0|].
        - cbn [optUnit] in Po. unfold unitInterval in *. lra.
        - unfold _estimateOcclusion.
          destruct (td_landmarks d) as [ls|]; [|unfold unitInterval; lra].
          assert (R : unitInterval (ofNat (length (filter occluded ls))
                                    / ofNat (length ls))).
          { apply ratio_unit; [apply filter_length_le|].
            destruct ls; [exfalso; apply Pl; reflexivity | cbn; lia]. }
          unfold unitInterval in *. lra. }
      apply unitMetrics_intro; try assumption;
        apply metricUpdate_unit; try tauto.
      apply _estimateMotionConsistency_unit.
    + apply unitMetrics_intro; assumption.
  - cbn [fst]. unfold mapMetrics.
    apply unitMetrics_intro; apply metricUpdate_unit; tauto.
Qed.

Lemma update_unit (m : t) (data : option trackingData) (clk : clock) :
  match data with Some d => plausible d | None => True end ->
  unitMetrics (metrics m) -> unitInterval (overallQuality m) ->
  let m' := snd (fst (update m data clk)) in
  unitMetrics (metrics m') /\ unitInterval (overallQuality m').
Proof.
  intros P U Qm. cbv zeta.
  pose proof (_updateMetrics_unit (qualityHistory m) (metrics m) data P U) as U'.
  destruct (snd (_updateMetrics (qualityHistory m) (metrics m) data)) eqn:R.
  - destruct (update_steps m data clk R)
      as (fps' & m2 & fired1 & predicted & m4 & fired2 & E2 & E4 & ->).
    cbn [fst snd metrics overallQuality withFrame].
    match type of E2 with
    | _updateState ?m1 clk = _ =>
      pose proof (_updateState_frame m1 clk) as F2;
        pose proof (_updateState_fields m1 clk) as G2;
        rewrite E2 in F2, G2
    end.
    cbn [fst metrics overallQuality withFrame] in F2, G2.
    destruct F2 as (Hm2 & _). destruct G2 as (_ & _ & Hq2 & _).
    assert (H4 : metrics m4 = metrics m2 /\ overallQuality m4 = overallQuality m2).
    { destruct E4 as [(E4 & _ & _)|[-> _]]; [|now split].
      match type of E4 with
      | _attemptRecovery ?m3 ?now = _ =>
        pose proof (_attemptRecovery_frame m3 now) as F4;
          pose proof (_attemptRecovery_fields m3 now) as G4;
          rewrite E4 in F4, G4
      end.
      cbn [fst metrics overallQuality withFrame] in F4, G4.
      destruct F4 as (F4 & _). destruct G4 as (_ & _ & G4 & _). now split. }
    destruct H4 as [-> ->]. rewrite Hm2, Hq2.
    split; [exact U' | now apply _calculateOverallQuality_unit].
  - destruct (update_thrown m data clk R) as [fps' ->].
    cbn [fst snd metrics overallQuality withFrame]. now split.
Qed.

Lemma unitMetrics_new : unitMetrics newMetrics.
Proof.
  unfold newMetrics.
  apply unitMetrics_intro; unfold unitInterval; cbn [current newMetric];
    (split; [lra | vm_compute; discriminate]).
Qed.

Lemma unitMetrics_reset (ms : metricSet) :
  unitMetrics ms -> unitMetrics (mapMetrics metricReset ms).
Proof.
  intros U. apply unitMetrics_elim in U as (U0 & U1 & U2 & U3 & U4 & U5).
  unfold mapMetrics.
  apply unitMetrics_intro; unfold unitInterval;
    cbn [current weight metricReset]; (split; [lra | tauto]).
Qed.

(** X10. The overall quality is a score. In every execution of a monitor in
    which the tracking data given to [update] is plausible (the scores it
    carries lie in [0, 1], its reprojection error is not negative, its
    landmark array is not empty), the overall quality lies in [0, 1], and
    so does the current value of each of the six metrics: those read from
    the data and those estimated from the velocity, the landmarks and the
    quality history. *)
Theorem quality_is_a_score (o : options) (ks : list call) :
  Forall plausibleCall ks ->
  let m := fst (run (new o) ks) in
  unitInterval (overallQuality m) /\ unitMetrics (metrics m).
Proof.
  intros F. cbv zeta. unfold run.
  assert (G : forall ks m log,
             Forall plausibleCall ks ->
             unitMetrics (metrics m) -> unitInterval (overallQuality m) ->
             unitInterval (overallQuality (fst (runFrom m log ks)))
             /\ unitMetrics (metrics (fst (runFrom m log ks)))).
  { clear ks F. intros ks. induction ks as [|k ks IH]; intros m log F U Qm;
      [now split|].
    apply Forall_cons_iff in F as [Fk F].
    cbn [runFrom]. destruct k as [data clk|success|]; cbn [step].
    - assert (P : match data with Some d => plausible d | None => True end)
        by (destruct data; exact Fk).
      pose proof (update_unit m data clk P U Qm) as H.
      destruct (update m data clk) as [[oa m'] fs]. cbn [fst snd] in H.
      apply IH; tauto.
    - apply IH; assumption.
    - apply IH; [exact F | now apply unitMetrics_reset|].
      cbn. unfold unitInterval. lra. }
  apply G; [exact F | apply unitMetrics_new|].
  cbn. unfold unitInterval. lra.
Qed.

End WithMath.

(** *** Histories and the frame count *)

Lemma metricUpdate_bounded (mt : QualityMetric) (v : Q) :
  (length (history mt) <= historySize mt)%nat ->
  (length (history (metricUpdate mt v)) <= historySize (metricUpdate mt v))%nat.
Proof. intros H. cbn [history historySize metricUpdate]. now apply push_length. Qed.

Lemma boundedMetrics_intro (a b c d e f : QualityMetric) :
  (length (history a) <= historySize a)%nat ->
  (length (history b) <= historySize b)%nat ->
  (length (history c) <= historySize c)%nat ->
  (length (history d) <= historySize d)%nat ->
  (length (history e) <= historySize e)%nat ->
  (length (history f) <= historySize f)%nat ->
  Forall (fun mt => (length (history mt) <= historySize mt)%nat)
         (metricValues (mkMetrics a b c d e f)).
Proof.
  intros. unfold metricValues.
  cbn [landmarkConfidence poseStability reprojectionError faceVisibility
       motionConsistency occlusionLevel].
  repeat (apply Forall_cons; [assumption|]). apply Forall_nil.
Qed.

Lemma boundedMetrics_elim (ms : metricSet) :
  Forall (fun mt => (length (history mt) <= historySize mt)%nat)
         (metricValues ms) ->
  (length (history (landmarkConfidence ms))
   <= historySize (landmarkConfidence ms))%nat
  /\ (length (history (poseStability ms)) <= historySize (poseStability ms))%nat
  /\ (length (history (reprojectionError ms))
      <= historySize (reprojectionError ms))%nat
  /\ (length (history (faceVisibility ms)) <= historySize (faceVisibility ms))%nat
  /\ (length (history (motionConsistency ms))
      <= historySize (motionConsistency ms))%nat
  /\ (length (history (occlusionLevel ms)) <= historySize (occlusionLevel ms))%nat.
Proof.
  unfold metricValues. intros U.
  repeat match goal with
         | H : Forall _ (_ :: _) |- _ =>
           let A := fresh "U" in
           apply Forall_cons_iff in H as [A H]
         end.
  tauto.
Qed.

Lemma sizes_intro (a b c d e f : QualityMetric) (n : nat) :
  historySize a = n -> historySize b = n -> historySize c = n ->
  historySize d = n -> historySize e = n -> historySize f = n ->
  Forall (fun mt => historySize mt = n) (metricValues (mkMetrics a b c d e f)).
Proof.
  intros. unfold metricValues.
  cbn [landmarkConfidence poseStability reprojectionError faceVisibility
       motionConsistency occlusionLevel].
  repeat (apply Forall_cons; [assumption|]). apply Forall_nil.
Qed.

Lemma sizes_elim (ms : metricSet) (n : nat) :
  Forall (fun mt => historySize mt = n) (metricValues ms) ->
  historySize (landmarkConfidence ms) = n /\ historySize (poseStability ms) = n
  /\ historySize (reprojectionError ms) = n
  /\ historySize (faceVisibility ms) = n
  /\ historySize (motionConsistency ms) = n
  /\ historySize (occlusionLevel ms) = n.
Proof.
  unfold metricValues. intros U.
  repeat match goal with
         | H : Forall _ (_ :: _) |- _ =>
           let A := fresh "U" in
           apply Forall_cons_iff in H as [A H]
         end.
  tauto.
Qed.

Section WithMath.
Context {M : MathEnv}.

Lemma _updateMetrics_bounded (qh : list Q) (ms : metricSet)
    (data : option trackingData) (n : nat) :
  Forall (fun mt => (length (history mt) <= historySize mt)%nat)
         (metricValues ms) ->
  Forall (fun mt => historySize mt = n) (metricValues ms) ->
  Forall (fun mt => (length (history mt) <= historySize mt)%nat)
         (metricValues (fst (_updateMetrics qh ms data)))
  /\ Forall (fun mt => historySize mt = n)
            (metricValues (fst (_updateMetrics qh ms data))).
Proof.
  intros B S.
  apply boundedMetrics_elim in B as (B0 & B1 & B2 & B3 & B4 & B5).
  apply sizes_elim in S as (S0 & S1 & S2 & S3 & S4 & S5).
  destruct data as [d|]; cbn [_updateMetrics].
  - destruct (match td_faceVisibility d with
              | Some v => Some v
              | None => _estimateFaceVisibility d
              end) as [v|]; cbn [fst];
      (split; [apply boundedMetrics_intro | apply sizes_intro]);
      repeat match goal with
             | |- context [match ?x with Some _ => _ | None => _ end] =>
               destruct x
             end;
      try assumption; try (now apply metricUpdate_bounded).
  - cbn [fst]. unfold mapMetrics.
    split; [apply boundedMetrics_intro | apply sizes_intro];
      try assumption; now apply metricUpdate_bounded.
Qed.

Lemma update_bounded (m : t) (data : option trackingData) (clk : clock)
    (n : nat) :
  Forall (fun mt => (length (history mt) <= historySize mt)%nat)
         (metricValues (metrics m)) ->
  Forall (fun mt => historySize mt = n) (metricValues (metrics m)) ->
  (length (qualityHistory m) <= 100)%nat ->
  let m' := snd (fst (update m data clk)) in
  Forall (fun mt => (length (history mt) <= historySize mt)%nat)
         (metricValues (metrics m'))
  /\ Forall (fun mt => historySize mt = n) (metricValues (metrics m'))
  /\ (length (qualityHistory m') <= 100)%nat
  /\ frameCount m' = S (frameCount m).
Proof.
  intros B S H. cbv zeta.
  pose proof (_updateMetrics_bounded (qualityHistory m) (metrics m) data n B S)
    as [B' S'].
  destruct (snd (_updateMetrics (qualityHistory m) (metrics m) data)) eqn:R.
  - destruct (update_steps m data clk R)
      as (fps' & m2 & fired1 & predicted & m4 & fired2 & E2 & E4 & ->).
    cbn [fst snd metrics qualityHistory frameCount withFrame].
    match type of E2 with
    | _updateState ?m1 clk = _ =>
      pose proof (_updateState_frame m1 clk) as F2; rewrite E2 in F2
    end.
    cbn [fst metrics qualityHistory frameCount withFrame] in F2.
    destruct F2 as (Hm2 & Hq2 & Hf2).
    assert (H4 : metrics m4 = metrics m2 /\ qualityHistory m4 = qualityHistory m2
                 /\ frameCount m4 = frameCount m2).
    { destruct E4 as [(E4 & _ & _)|[-> _]]; [|now repeat split].
      match type of E4 with
      | _attemptRecovery ?m3 ?now = _ =>
        pose proof (_attemptRecovery_frame m3 now) as F4; rewrite E4 in F4
      end.
      exact F4. }
    destruct H4 as (-> & -> & ->). rewrite Hm2, Hq2, Hf2.
    repeat split; try assumption. now apply push_length.
  - destruct (update_thrown m data clk R) as [fps' ->].
    cbn [fst snd metrics qualityHistory frameCount withFrame].
    now repeat split.
Qed.

(** X11. The histories a monitor keeps are bounded, in every execution:
    the quality history never holds more than 100 values and the history
    of each metric never more than 30; and [frameCount] is the number of
    [update] calls made since the construction or the latest [reset()],
    those that threw included. *)
Theorem histories_are_bounded (o : options) (ks : list call) :
  let m := fst (run (new o) ks) in
  (length (qualityHistory m) <= 100)%nat
  /\ Forall (fun mt => (length (history mt) <= 30)%nat) (metricValues (metrics m))
  /\ (length (getQualityHistory m None) <= 30)%nat
  /\ frameCount m = framesSinceReset ks.
Proof.
  cbv zeta. unfold run, framesSinceReset.
  assert (G : forall ks m log c,
             Forall (fun mt => (length (history mt) <= historySize mt)%nat)
                    (metricValues (metrics m)) ->
             Forall (fun mt => historySize mt = 30%nat) (metricValues (metrics m)) ->
             (length (qualityHistory m) <= 100)%nat ->
             frameCount m = c ->
             let m' := fst (runFrom m log ks) in
             Forall (fun mt => (length (history mt) <= historySize mt)%nat)
                    (metricValues (metrics m'))
             /\ Forall (fun mt => historySize mt = 30%nat)
                       (metricValues (metrics m'))
             /\ (length (qualityHistory m') <= 100)%nat
             /\ frameCount m' = fold_left framesStep ks c).
  { clear ks. intros ks. induction ks as [|k ks IH]; intros m log c B S H C;
      [now repeat split|].
    cbn [runFrom fold_left]. destruct k as [data clk|success|]; cbn [step framesStep].
    - pose proof (update_bounded m data clk 30 B S H) as U.
      destruct (update m data clk) as [[oa m'] fs]. cbn [fst snd] in U.
      destruct U as (B' & S' & H' & C'). apply IH; try assumption. congruence.
    - apply IH; assumption.
    - apply sizes_elim in S as (S0 & S1 & S2 & S3 & S4 & S5).
      apply IH; cbn [metrics qualityHistory frameCount reset length];
        try lia; try reflexivity; unfold mapMetrics.
      + apply boundedMetrics_intro; cbn; lia.
      + apply sizes_intro; assumption. }
  destruct (G ks (new o) [] 0%nat) as (B & S & H & C).
  - apply boundedMetrics_intro; cbn; lia.
  - apply sizes_intro; reflexivity.
  - cbn. lia.
  - reflexivity.
  - cbv zeta in *. repeat split; try assumption.
    + rewrite Forall_forall in *. intros mt Hm.
      specialize (B mt Hm). specialize (S mt Hm). lia.
    + unfold getQualityHistory, sliceFrom. cbn [Z.opp Z.ltb Z.compare].
      rewrite length_skipn. cbn [Z.to_nat Pos.to_nat]. lia.
Qed.

End WithMath.

(** X12. [getQualityHistory(count)] returns the [count] most recent
    qualities, oldest first, for a positive count (all of them when there
    are fewer, 30 by default). A count of 0 does not return an empty list
    but the whole history, and a negative count [-k] returns the history
    without its [k] oldest entries. *)
Theorem getQualityHistory_counts (m : t) (count : Z) :
  getQualityHistory m (Some 0%Z) = qualityHistory m
  /\ getQualityHistory m None = recent 30 (qualityHistory m)
  /\ ((0 < count)%Z ->
      getQualityHistory m (Some count)
      = recent (Z.to_nat count) (qualityHistory m)
      /\ length (getQualityHistory m (Some count))
         = Nat.min (Z.to_nat count) (length (qualityHistory m)))
  /\ ((count < 0)%Z ->
      getQualityHistory m (Some count)
      = skipn (Z.to_nat (- count)) (qualityHistory m)).
Proof.
  unfold getQualityHistory, sliceFrom.
  split; [reflexivity|]. split; [reflexivity|]. split.
  - intros H. destruct (Z.ltb_spec (- count) 0) as [L|L]; [|lia].
    rewrite Z.opp_involutive. split; [reflexivity|]. apply recent_length.
  - intros H. destruct (Z.ltb_spec (- count) 0) as [L|L]; [lia|]. reflexivity.
Qed.

(** *** The trend of a metric *)









Lemma assessment_reads_state_witness :
  let m' := snd (fst (update (new listeningOptions) None (at_ 1000))) in
  state m' <> INITIALIZING /\ state m' <> ERROR.
Proof.
  cbv zeta.
  let v := eval vm_compute in (update (new listeningOptions) None (at_ 1000)) in
  match v with
  | (Some ?a, ?m', ?fs) =>
      assert (E : update (new listeningOptions) None (at_ 1000)
                  = (Some a, m', fs)) by (vm_compute; reflexivity)
  end.
  pose proof (assessment_reads_state _ _ _ _ _ _ E) as (H1 & H2 & _).
  rewrite E. cbn [fst snd]. split; assumption.
Defined.

Lemma quality_getters_agree_with_state_witness :
  let m' := snd (fst (update (new listeningOptions) (Some boundaryFrame)
                             (at_ 1000))) in
  isTrackingGood m' = true
  <-> getState m' = TRACKING_EXCELLENT \/ getState m' = TRACKING_GOOD.
Proof.
  cbv zeta.
  let v := eval vm_compute in
        (update (new listeningOptions) (Some boundaryFrame) (at_ 1000)) in
  match v with
  | (Some ?a, ?m', ?fs) =>
      assert (E : update (new listeningOptions) (Some boundaryFrame) (at_ 1000)
                  = (Some a, m', fs)) by (vm_compute; reflexivity)
  end.
  pose proof (quality_getters_agree_with_state _ _ _ _ _ _ E) as H.
  rewrite E. cbn [fst snd]. apply H; vm_compute; discriminate.
Defined.

Lemma quality_is_a_score_witness :
  let m := fst (run (M := approxMath) (new listeningOptions)
                    [CallUpdate (Some goodFrame) (at_ 1000);
                     CallUpdate None (at_ 1033)]) in
  unitInterval (overallQuality m) /\ unitMetrics (metrics m).
Proof.
  apply (quality_is_a_score (M := approxMath)).
  - intros a b c. apply sqrt_down_nonneg.
  - repeat constructor; vm_compute; try discriminate; reflexivity.
Defined.


End TrackingQualityMonitorProps.

(** ** AdvancedPoseEstimator.js *)

Module AdvancedPoseEstimatorProps.
Import JS JSFacts ListFacts Three AdvancedPoseEstimator AdvancedPoseEstimatorSpec.

(** *** Projection and its inverse *)


(** *** The inlier indices *)

Lemma StronglySorted_snoc (l : list nat) (i : nat) :
  StronglySorted lt l -> Forall (fun j => (j < i)%nat) l ->
  StronglySorted lt (l ++ [i]).
Proof.
  induction 1 as [|x l Srt IH Hx]; intros F; cbn [app].
  - constructor; constructor.
  - apply Forall_cons_iff in F as [Fx F]. constructor; [now apply IH|].
    apply Forall_app. split; [exact Hx | now constructor].
Qed.

Lemma StronglySorted_seq (k n : nat) : StronglySorted lt (seq k n).
Proof.
  revert k. induction n as [|n IH]; intros k; cbn [seq]; constructor.
  - apply IH.
  - apply Forall_forall. intros j Hj. apply in_seq in Hj. lia.
Qed.

Section WithMath.
Context {M : MathEnv}.

Lemma scoreLoop_indices (threshold : Q) (projectFn : Vector3 -> option point2)
    (cs : list correspondence) (i : nat) (inliers : list nat) (total : Q) :
  StronglySorted lt inliers ->
  Forall (fun j => (j < i)%nat) inliers ->
  let r := fst (scoreLoop threshold projectFn i cs inliers total) in
  StronglySorted lt r
  /\ Forall (fun j => (j < i + length cs)%nat) r
  /\ (length r <= length inliers + length cs)%nat.
Proof.
  revert i inliers total.
  induction cs as [|c cs IH]; intros i inliers total Srt F; cbv zeta.
  - cbn [scoreLoop fst length]. repeat split; [exact Srt | | lia].
    rewrite Forall_forall in *. intros j Hj. specialize (F j Hj). lia.
  - cbn [scoreLoop length].
    assert (Skip : forall tot,
               let r := fst (scoreLoop threshold projectFn (S i) cs inliers tot) in
               StronglySorted lt r
               /\ Forall (fun j => (j < i + S (length cs))%nat) r
               /\ (length r <= length inliers + S (length cs))%nat).
    { intros tot. cbv zeta.
      destruct (IH (S i) inliers tot Srt) as (A & B & C).
      - rewrite Forall_forall in *. intros j Hj. specialize (F j Hj). lia.
      - repeat split; [exact A | | lia].
        rewrite Forall_forall in *. intros j Hj. specialize (B j Hj). lia. }
    destruct (projectFn (model c)) as [uv|]; [|apply Skip].
    destruct (ltb _ threshold); [|apply Skip].
    destruct (IH (S i) (inliers ++ [i]) (total + hypot (p_x uv - p_x (image c))
                                                   (p_y uv - p_y (image c))))
      as (A & B & C).
    + now apply StronglySorted_snoc.
    + apply Forall_app. split; [|constructor; [lia | constructor]].
      rewrite Forall_forall in *. intros j Hj. specialize (F j Hj). lia.
    + rewrite length_app in C. cbn [length] in C.
      repeat split; [exact A | | lia].
      rewrite Forall_forall in *. intros j Hj. specialize (B j Hj). lia.
Qed.

(** The indices [findInliers] returns are increasing and below the number
    of correspondences. *)
Lemma findInliers_within (r : RANSAC) (rand : randomSource)
    (d : nat) (cs : list correspondence)
    (projectFn : Vector3 -> option point2) :
  let inliers := fst (findInliers r rand d cs projectFn) in
  StronglySorted lt inliers
  /\ Forall (fun j => (j < length cs)%nat) inliers
  /\ (length inliers <= length cs)%nat.
Proof.
  cbv zeta.
  assert (All : StronglySorted lt (seq 0 (length cs))
                /\ Forall (fun j => (j < length cs)%nat) (seq 0 (length cs))
                /\ (length (seq 0 (length cs)) <= length cs)%nat).
  { split; [apply StronglySorted_seq|]. rewrite length_seq. split; [|lia].
    apply Forall_forall. intros j Hj. apply in_seq in Hj. lia. }
  unfold findInliers.
  destruct (length cs <? minInliers r)%nat; cbn [fst]; [exact All|].
  pose proof (ransacLoop_result r rand projectFn cs (maxIterations r) d []
                                Infinity) as R.
  destruct (ransacLoop r rand projectFn cs (maxIterations r) d [] Infinity)
    as [best d1].
  cbn [fst] in *.
  destruct (minInliers r <=? length best)%nat; [|exact All].
  destruct R as [->| ->].
  - cbn [length]. split; [constructor | split; [constructor | lia]].
  - destruct (scoreLoop_indices (inlierThreshold r) projectFn cs 0 [] 0
                                (SSorted_nil lt) (Forall_nil _))
      as (A & B & C).
    unfold scoreInliers in *. cbn [length Nat.add] in *.
    repeat split; assumption.
Qed.

(** X15. The inlier set [findInliers] returns is a set of indices into the
    correspondences: strictly increasing (so without repetition), each
    below the number of correspondences, hence at most as many as there
    are correspondences; and it has at least [minInliers] members, or all
    the indices when there are fewer correspondences than that, whatever
    the random draws. *)
Theorem findInliers_returns_indices (r : RANSAC) (rand : randomSource)
    (d : nat) (cs : list correspondence)
    (projectFn : Vector3 -> option point2) :
  let inliers := fst (findInliers r rand d cs projectFn) in
  StronglySorted lt inliers
  /\ Forall (fun j => (j < length cs)%nat) inliers
  /\ (length inliers <= length cs)%nat
  /\ (Nat.min (length cs) (minInliers r) <= length inliers)%nat.
Proof.
  cbv zeta.
  destruct (findInliers_within r rand d cs projectFn) as (A & B & C).
  split; [exact A|]. split; [exact B|]. split; [exact C|].
  unfold findInliers.
  destruct (Nat.ltb_spec (length cs) (minInliers r)) as [L|L]; cbn [fst].
  - rewrite length_seq. lia.
  - destruct (ransacLoop r rand projectFn cs (maxIterations r) d [] Infinity)
      as [best d1].
    cbn [fst].
    destruct (Nat.leb_spec (minInliers r) (length best)) as [K|K]; [lia|].
    rewrite length_seq. lia.
Qed.

End WithMath.

(** *** Random samples *)

Lemma removeAt_permutation {A : Type} (d : A) (idx : nat) (xs : list A) :
  (idx < length xs)%nat ->
  Permutation (nth idx xs d :: removeAt idx xs) xs.
Proof.
  revert idx. induction xs as [|x xs IH]; intros idx H; [cbn in H; lia|].
  destruct idx as [|idx]; cbn [nth removeAt]; [reflexivity|].
  cbn [length] in H. rewrite perm_swap. constructor. apply IH. lia.
Qed.

Lemma removeAt_length {A : Type} (idx : nat) (xs : list A) :
  (idx < length xs)%nat -> length (removeAt idx xs) = (length xs - 1)%nat.
Proof.
  revert idx. induction xs as [|x xs IH]; intros idx H; [cbn in H; lia|].
  destruct idx as [|idx]; cbn [removeAt length]; [lia|].
  cbn [length] in H. rewrite IH by lia. lia.
Qed.

(** A draw in [0, 1) scaled by a length gives an index within it. *)
Lemma draw_in_range (q : Q) (len : nat) :
  0 <= q -> q < 1 -> (0 < len)%nat ->
  (Z.to_nat (Qfloor (q * ofNatQ len)) < len)%nat.
Proof.
  intros Q0 Q1 L. unfold ofNatQ.
  pose proof (ofNat_pos len L) as P.
  assert (U : q * inject_Z (Z.of_nat len) < inject_Z (Z.of_nat len)).
  { setoid_replace (inject_Z (Z.of_nat len))
      with (1 * inject_Z (Z.of_nat len)) at 2 by ring.
    apply Qmult_lt_compat_r; assumption. }
  assert (N : 0 <= q * inject_Z (Z.of_nat len))
    by (apply Qmult_le_0_compat; lra).
  pose proof (Qfloor_le (q * inject_Z (Z.of_nat len))) as F.
  assert (F0 : (0 <= Qfloor (q * inject_Z (Z.of_nat len)))%Z).
  { change 0%Z with (Qfloor 0). now apply Qfloor_resp_le. }
  assert (F1 : (Qfloor (q * inject_Z (Z.of_nat len)) < Z.of_nat len)%Z).
  { rewrite Zlt_Qlt. lra. }
  lia.
Qed.

Lemma sampleLoop_spec (rand : randomSource) (k d : nat)
    (indices sample : list nat) :
  (forall i, 0 <= rand i /\ rand i < 1) ->
  let r := sampleLoop rand d k indices sample in
  (exists rest, Permutation (fst r ++ rest) (sample ++ indices))
  /\ length (fst r) = (length sample + Nat.min k (length indices))%nat
  /\ snd r = (d + Nat.min k (length indices))%nat.
Proof.
  intros R. revert d indices sample.
  induction k as [|k IH]; intros d indices sample; cbv zeta.
  - cbn [sampleLoop fst snd]. repeat split; [now exists indices | lia | lia].
  - cbn [sampleLoop]. destruct indices as [|x xs] eqn:E.
    + cbn [fst snd length]. repeat split; [now exists [] | lia | lia].
    + rewrite <- E. set (idx := Z.to_nat _).
      assert (I : (idx < length indices)%nat).
      { subst idx. destruct (R d). apply draw_in_range; try assumption.
        subst indices. cbn. lia. }
      specialize (IH (S d) (removeAt idx indices)
                     (sample ++ [nth idx indices 0%nat])).
      cbv zeta in IH. destruct IH as ([rest P] & L & D).
      rewrite removeAt_length in L, D by exact I.
      rewrite length_app in L. cbn [length] in L.
      repeat split; [|lia|lia].
      exists rest. rewrite P, <- app_assoc. cbn [app].
      apply Permutation_app_head. now apply removeAt_permutation.
Qed.

(** X16. With draws in [0, 1), which is what [Math.random()] returns,
    [_randomSample(n, k)] returns [min(k, n)] indices below [n], all
    different, and makes exactly that many draws. *)
Theorem randomSample_draws_distinct_indices (rand : randomSource)
    (d n k : nat) :
  (forall i, 0 <= rand i /\ rand i < 1) ->
  let '(sample, d') := _randomSample rand d n k in
  NoDup sample
  /\ Forall (fun j => (j < n)%nat) sample
  /\ length sample = Nat.min k n
  /\ d' = (d + Nat.min k n)%nat.
Proof.
  intros R. unfold _randomSample.
  pose proof (sampleLoop_spec rand k d (seq 0 n) [] R) as H. cbv zeta in H.
  destruct (sampleLoop rand d k (seq 0 n) []) as [sample d'].
  cbn [fst snd app length] in H. rewrite length_seq in H.
  destruct H as ([rest P] & L & D).
  assert (N : NoDup (sample ++ rest)).
  { eapply Permutation_NoDup; [symmetry; exact P | apply seq_NoDup]. }
  repeat split; try assumption.
  - now apply NoDup_app_remove_r in N.
  - apply Forall_forall. intros j Hj.
    assert (Hs : In j (seq 0 n)).
    { eapply Permutation_in; [exact P|]. apply in_or_app. now left. }
    apply in_seq in Hs. lia.
Qed.

(** *** The correspondences *)






(** *** What [estimate] does to the estimator *)

Lemma newest_push {A : Type} (k : nat) (xs : list A) (r : A) :
  (1 <= k)%nat ->
  newest (if (k <? length (xs ++ [r]))%nat then tl (xs ++ [r]) else xs ++ [r])
  = Some r.
Proof.
  intros K. assert (N : forall ys, newest (ys ++ [r]) = Some r).
  { intros ys. unfold newest. now rewrite rev_app_distr. }
  destruct (Nat.ltb_spec k (length (xs ++ [r]))) as [L|L]; [|apply N].
  rewrite length_app in L. cbn [length] in L.
  destruct xs as [|x xs]; [cbn in L; lia|]. cbn [app tl]. apply N.
Qed.

Lemma frameCamera_keeps (e : t) (optWidth optHeight : option Q) :
  focalLength (frameCamera e optWidth optHeight) = focalLength (camera e)
  /\ (centred (camera e) -> centred (frameCamera e optWidth optHeight)).
Proof.
  unfold frameCamera.
  destruct (negb _ || negb _); [|now split].
  cbn. split; [reflexivity|]. intros _. unfold centred. cbn. now split.
Qed.

Section WithEnv.
Context {M : MathEnv} {T : ThreeEnv}.

Lemma estimate_effect (e : t) (ls : option landmarks)
    (optWidth optHeight : option Q) (now : Q) (rand : randomSource) (d : nat) :
  let '(o, e', d') := estimate e ls optWidth optHeight now rand d in
  maxHistoryLength e' = maxHistoryLength e
  /\ (camera e' = camera e \/ camera e' = frameCamera e optWidth optHeight)
  /\ match o with
     | Some r =>
       previousPose e' = Some r
       /\ poseHistory e'
          = (if (maxHistoryLength e <? length (poseHistory e ++ [r]))%nat
             then tl (poseHistory e ++ [r]) else poseHistory e ++ [r])
     | None =>
       previousPose e' = previousPose e /\ poseHistory e' = poseHistory e
     end.
Proof.
  unfold estimate. destruct ls as [[|x l]|]; try (now repeat split; left).
  destruct (length _ <? 6)%nat; [cbn; repeat split; now right|].
  destruct (if useRANSAC e then _ else _) as [inlierIndices d1].
  destruct (_solvePnP _ _ rand d1) as [[p|] d2];
    cbn; repeat split; now right.
Qed.

(** X18. The pose history is a bounded record of the results returned. An
    [estimate] that returns a result stores it as [previousPose] and as the
    newest entry of [poseHistory]; one that returns [null] leaves both as
    they were. So in every execution of an estimator the history holds at
    most ten results, [previousPose] is its newest entry, and the history
    is empty exactly when [previousPose] is [null] (as after
    [reset()]). *)
Theorem pose_history_records_results
    (optRANSAC optRefine : option bool) (r0 : RANSAC) (rand : randomSource)
    (ks : list call) :
  let e := fst (run rand (new optRANSAC optRefine r0) ks) in
  (length (poseHistory e) <= 10)%nat
  /\ previousPose e = newest (poseHistory e)
  /\ (poseHistory e = [] <-> previousPose e = None)
  /\ (forall ls optWidth optHeight now d,
        let '(o, e', _) := estimate e ls optWidth optHeight now rand d in
        match o with
        | Some r => previousPose e' = Some r /\ newest (poseHistory e') = Some r
        | None =>
          previousPose e' = previousPose e /\ poseHistory e' = poseHistory e
        end).
Proof.
  cbv zeta. unfold run.
  assert (G : forall ks s,
             maxHistoryLength (fst s) = 10%nat ->
             (length (poseHistory (fst s)) <= 10)%nat ->
             previousPose (fst s) = newest (poseHistory (fst s)) ->
             let e := fst (fold_left (step rand) ks s) in
             maxHistoryLength e = 10%nat
             /\ (length (poseHistory e) <= 10)%nat
             /\ previousPose e = newest (poseHistory e)).
  { clear ks. intros ks. induction ks as [|k ks IH]; intros [e d] Mx L P;
      [now repeat split|].
    cbn [fold_left fst] in *.
    assert (St : maxHistoryLength (fst (step rand (e, d) k)) = 10%nat
                 /\ (length (poseHistory (fst (step rand (e, d) k))) <= 10)%nat
                 /\ previousPose (fst (step rand (e, d) k))
                    = newest (poseHistory (fst (step rand (e, d) k)))).
    { destruct k as [ls w h now|w h f|]; cbn [step fst].
      - pose proof (estimate_effect e ls w h now rand d) as H.
        destruct (estimate e ls w h now rand d) as [[o e'] d']. cbn [fst].
        destruct H as (H1 & _ & H). split; [congruence|].
        destruct o as [r|].
        + destruct H as [-> ->]. rewrite Mx. split.
          * destruct (Nat.ltb_spec 10 (length (poseHistory e ++ [r]))) as [K|K];
              [|exact K].
            rewrite length_app in K. cbn [length] in K.
            destruct (poseHistory e) as [|x xs]; cbn [app tl length] in *; [lia|].
            rewrite length_app. cbn [length]. lia.
          * symmetry. apply newest_push. lia.
        + destruct H as [-> ->]. now split.
      - cbn. now repeat split.
      - cbn. repeat split; [exact Mx | lia]. }
    destruct St as (Mx' & L' & P'). now apply IH. }
  destruct (G ks (new optRANSAC optRefine r0, 0%nat) eq_refl
              ltac:(cbn; lia) eq_refl) as (Mx & L & P).
  cbv zeta in *.
  set (e := fst (fold_left (step rand) ks (new optRANSAC optRefine r0, 0%nat)))
    in *.
  split; [exact L|]. split; [exact P|]. split.
  - rewrite P. unfold newest. split.
    + intros ->. reflexivity.
    + intros H. destruct (rev (poseHistory e)) as [|x xs] eqn:E; [|discriminate].
      apply (f_equal (@rev _)) in E. now rewrite rev_involutive in E.
  - intros ls w h now d.
    pose proof (estimate_effect e ls w h now rand d) as H.
    destruct (estimate e ls w h now rand d) as [[o e'] d'].
    destruct H as (_ & _ & H). destruct o as [r|]; [|exact H].
    destruct H as [-> ->]. split; [reflexivity|]. apply newest_push. lia.
Qed.

(** X19. The estimator's camera stays centred on its image, and resizing
    keeps its focal length. In every execution the principal point is the
    centre of the image the camera is set to; an [estimate] on a frame of
    another size, and [setCameraIntrinsics] called without a focal length,
    change the size and the centre only. So without a call of
    [setCameraIntrinsics] that gives a focal length the camera keeps the
    640 pixels it was constructed with, whatever the frame sizes. *)
Theorem camera_stays_centred
    (optRANSAC optRefine : option bool) (r0 : RANSAC) (rand : randomSource)
    (ks : list call) :
  let e := fst (run rand (new optRANSAC optRefine r0) ks) in
  centred (camera e)
  /\ (forallb (fun k => negb (setsFocalLength k)) ks = true ->
      focalLength (camera e) = 640)
  /\ (forall w h, focalLength (camera (setCameraIntrinsics e w h None))
                  = focalLength (camera e))
  /\ (forall optWidth optHeight,
        focalLength (frameCamera e optWidth optHeight) = focalLength (camera e)).
Proof.
  cbv zeta. unfold run.
  assert (G : forall ks s f0,
             centred (camera (fst s)) ->
             focalLength (camera (fst s)) = f0 ->
             let e := fst (fold_left (step rand) ks s) in
             centred (camera e)
             /\ (forallb (fun k => negb (setsFocalLength k)) ks = true ->
                 focalLength (camera e) = f0)).
  { clear ks. intros ks. induction ks as [|k ks IH]; intros [e d] f0 C F;
      [now split|].
    cbn [fold_left fst forallb] in *.
    assert (St : centred (camera (fst (step rand (e, d) k)))
                 /\ (negb (setsFocalLength k) = true ->
                     focalLength (camera (fst (step rand (e, d) k))) = f0)).
    { destruct k as [ls w h now|w h f|]; cbn [step fst setsFocalLength].
      - pose proof (estimate_effect e ls w h now rand d) as H.
        destruct (estimate e ls w h now rand d) as [[o e'] d']. cbn [fst].
        destruct H as (_ & [-> | ->] & _); [now split|].
        destruct (frameCamera_keeps e w h) as [K1 K2].
        split; [now apply K2 | intros _; congruence].
      - unfold setCameraIntrinsics, centred. cbn. split; [now split|].
        intros H. apply negb_true_iff in H.
        destruct f as [v|]; cbn in *; [|exact F].
        apply negb_false_iff in H. now rewrite H.
      - cbn. now split. }
    destruct St as [C' F'].
    destruct (negb (setsFocalLength k)) eqn:N.
    + destruct (IH (step rand (e, d) k) f0 C' (F' eq_refl)) as [A B].
      split; [exact A|]. cbn [andb]. exact B.
    + destruct (IH (step rand (e, d) k) _ C' eq_refl) as [A _].
      split; [exact A|]. cbn [andb]. discriminate. }
  destruct (G ks (new optRANSAC optRefine r0, 0%nat) 640) as [A B].
  - unfold centred. cbn. split; reflexivity.
  - vm_compute. reflexivity.
  - cbv zeta in *. split; [exact A|]. split; [exact B|]. split.
    + intros w h. reflexivity.
    + intros w h. apply frameCamera_keeps.
Qed.

(** X20. The inlier ratio of a result is a ratio: at least four of the
    frame's correspondences, and at most all of them, were used for the
    pose, so the ratio lies in (0, 1]; it is 1 when RANSAC is switched
    off. *)
Theorem inlier_ratio_is_a_ratio (e : t) (ls : option landmarks)
    (optWidth optHeight : option Q) (now : Q) (rand : randomSource) (d : nat)
    (r : result) (e' : t) (d' : nat) :
  estimate e ls optWidth optHeight now rand d = (Some r, e', d') ->
  0 < r_inlierRatio r /\ r_inlierRatio r <= 1
  /\ (useRANSAC e = false -> r_inlierRatio r == 1).
Proof.
  unfold estimate. destruct ls as [[|x l]|]; try discriminate.
  set (cs := frameCorrespondences e (x :: l) optWidth optHeight).
  destruct (length cs <? 6)%nat eqn:L; [discriminate|].
  apply Nat.ltb_ge in L.
  destruct (if useRANSAC e then _ else _) as [inlierIndices d1] eqn:EI.
  assert (B : (length inlierIndices <= length cs)%nat
              /\ (useRANSAC e = false -> length inlierIndices = length cs)).
  { destruct (useRANSAC e).
    - pose proof (findInliers_within (ransac e) rand d cs
                    (project (frameCamera e optWidth optHeight)))
        as (_ & _ & H).
      rewrite EI in H. cbn [fst] in H. split; [exact H | discriminate].
    - injection EI as <- _. rewrite length_seq. split; [lia | reflexivity]. }
  destruct B as [B1 B2].
  destruct (_solvePnP _ _ rand d1) as [[p|] d2] eqn:EP; [|discriminate].
  assert (K : (4 <= length inlierIndices)%nat).
  { destruct (Nat.lt_ge_cases (length inlierIndices) 4) as [Lt|Ge]; [|exact Ge].
    rewrite _solvePnP_too_few in EP; [discriminate|]. now rewrite length_map. }
  intros H. injection H as <- _ _. cbn [r_inlierRatio]. unfold ofNatQ.
  pose proof (ofNat_pos (length cs) ltac:(lia)) as Pc.
  pose proof (ofNat_pos (length inlierIndices) ltac:(lia)) as Pi.
  pose proof (ofNat_le _ _ B1) as Le.
  split; [|split].
  - apply Qlt_shift_div_l; [exact Pc | lra].
  - apply Qle_shift_div_r; [exact Pc | lra].
  - intros U. rewrite (B2 U). field. lra.
Qed.

Hypothesis hypot3_nonneg : forall a b c, 0 <= hypot3 a b c.


End WithEnv.


(** The draws of [cycle] are in [0, 1). *)
Lemma cycle_in_range (i : nat) : 0 <= cycle i /\ cycle i < 1.
Proof.
  unfold cycle, ofNatQ.
  pose proof (Nat.mod_upper_bound (i * 7 + 3) 16 ltac:(lia)) as U.
  set (n := ((i * 7 + 3) mod 16)%nat) in *.
  assert (L : 0 <= inject_Z (Z.of_nat n)).
  { change 0 with (inject_Z 0). rewrite <- Zle_Qle. lia. }
  assert (H : inject_Z (Z.of_nat n) < 16).
  { change 16 with (inject_Z 16). rewrite <- Zlt_Qlt. lia. }
  split.
  - apply Qle_shift_div_l; lra.
  - apply Qlt_shift_div_r; lra.
Qed.

Lemma randomSample_draws_distinct_indices_witness :
  NoDup (fst (_randomSample cycle 0 8 4))
  /\ length (fst (_randomSample cycle 0 8 4)) = 4%nat.
Proof.
  pose proof (randomSample_draws_distinct_indices cycle 0 8 4 cycle_in_range)
    as H.
  destruct (_randomSample cycle 0 8 4) as [sample d'].
  destruct H as (N & _ & L & _). split; assumption.
Defined.

Lemma inlier_ratio_is_a_ratio_witness :
  exists r,
    fst (fst (estimate defaultEstimator (Some sixPoints) None None 1000 cycle 0))
    = Some r
    /\ 0 < r_inlierRatio r /\ r_inlierRatio r <= 1.
Proof.
  let v := eval vm_compute in
        (estimate defaultEstimator (Some sixPoints) None None 1000 cycle 0) in
  assert (E : estimate defaultEstimator (Some sixPoints) None None 1000 cycle 0
              = v) by (vm_compute; reflexivity).
  pose proof (inlier_ratio_is_a_ratio _ _ _ _ _ _ _ _ _ _ E) as (H1 & H2 & _).
  eexists. rewrite E. cbn [fst].
  split; [reflexivity | split; [exact H1 | exact H2]].
Defined.


End AdvancedPoseEstimatorProps.

(** ** ProductionStabilizer.js *)

Module ProductionStabilizerProps.
Import JS JSFacts ListFacts Three ProductionStabilizer.

(** [a || 0] is [a]. *)
Lemma or_default_eq (v d : Q) : d == 0 -> or_default (Some v) d == v.
Proof.
  intros D. unfold or_default. destruct (Qeq_bool v 0) eqn:E; [|reflexivity].
  apply Qeq_bool_iff in E. now rewrite E, D.
Qed.

(** *** The low-pass filter and the One-Euro filter *)



Section WithMath.
Context {M : MathEnv}.
Hypothesis PI_pos : 0 < PI.




(** X23. A One-Euro filter starts smoothing at its third value: the first
    two values given to a filter fresh from the constructor, or fresh from
    [reset()], come back as they are, whatever the timestamps and the
    parameters; and the second call already sets the speed estimate. *)
Theorem oneEuro_passes_first_two (cutoff b : Q) (f : OneEuroFilter)
    (x1 t1 x2 t2 : Q) :
  fst (oneEuroRun (newOneEuro cutoff b) [(x1, t1); (x2, t2)]) = [x1; x2]
  /\ fst (oneEuroRun (oneEuroReset f) [(x1, t1); (x2, t2)]) = [x1; x2]
  /\ oe_dx (snd (oneEuroRun (oneEuroReset f) [(x1, t1); (x2, t2)]))
     == (x2 - x1) / JS.max (t2 - t1) (1 # 1000).
Proof.
  split; [reflexivity|]. split; [reflexivity|].
  change (oe_dx _)
    with ((x2 - or_default (Some x1) 0) / JS.max (t2 - t1) (1 # 1000)).
  rewrite or_default_eq by reflexivity. reflexivity.
Qed.

End WithMath.

(** *** The double exponential smoother *)



(** *** The jitter suppressor *)




Section WithEnv.
Context {M : MathEnv} {T : ThreeEnv}.

(** *** What the steps of [update] leave alone *)

Lemma _adaptSmoothing_keeps (s : t) (confidence : Q) :
  let s' := _adaptSmoothing s confidence in
  cfg s' = cfg s /\ scale s' = scale s /\ scaleFilters s' = scaleFilters s
  /\ lastConfidence s' = lastConfidence s
  /\ jitterSuppressors s' = jitterSuppressors s
  /\ initialized s' = initialized s.
Proof.
  unfold _adaptSmoothing. destruct (negb (adaptiveSmoothing (cfg s)));
    cbn; repeat split.
Qed.

Lemma _processPosition_keeps (s : t) (p : Vector3) (timestamp dt : Q) :
  let s' := _processPosition s p timestamp dt in
  cfg s' = cfg s /\ scale s' = scale s /\ scaleFilters s' = scaleFilters s
  /\ lastConfidence s' = lastConfidence s
  /\ initialized s' = initialized s.
Proof.
  unfold _processPosition.
  repeat match goal with
         | |- context [let '(_, _) := ?e in _] => destruct e
         | |- context [if ?b then _ else _] => destruct b
         end; cbn; repeat split.
Qed.

Lemma _processRotation_keeps (s : t) (q : Quaternion) (timestamp : Q) :
  let s' := _processRotation s q timestamp in
  cfg s' = cfg s /\ scale s' = scale s /\ scaleFilters s' = scaleFilters s
  /\ lastConfidence s' = lastConfidence s
  /\ jitterSuppressors s' = jitterSuppressors s
  /\ initialized s' = initialized s.
Proof.
  unfold _processRotation.
  repeat match goal with
         | |- context [let '(_, _) := ?e in _] => destruct e
         end; cbn; repeat split.
Qed.

Lemma _processScale_keeps (s : t) (sc : option Vector3) (timestamp : Q) :
  let s' := _processScale s sc timestamp in
  cfg s' = cfg s /\ lastConfidence s' = lastConfidence s
  /\ jitterSuppressors s' = jitterSuppressors s
  /\ initialized s' = initialized s.
Proof.
  unfold _processScale. destruct sc as [sc|]; [|repeat split].
  repeat match goal with
         | |- context [let '(_, _) := ?e in _] => destruct e
         end; cbn; repeat split.
Qed.

Lemma kalmanStep_keeps (s : t) (dt : Q) :
  let s' := kalmanStep s dt in
  cfg s' = cfg s /\ scale s' = scale s /\ scaleFilters s' = scaleFilters s
  /\ lastConfidence s' = lastConfidence s
  /\ jitterSuppressors s' = jitterSuppressors s
  /\ initialized s' = initialized s.
Proof.
  unfold kalmanStep. destruct (negb (useKalman (cfg s))); cbn; repeat split.
Qed.

(** The result of an [update] on an initialized stabilizer, step by
    step. *)
Lemma update_initialized_steps (s : t) (pose : poseInput)
    (timestamp : option Q) (clk : clock) :
  initialized s = true ->
  exists ts dt,
    let s1 := withClock s true (Some ts) (or_default (in_confidence pose) 1)
                        (stats s) in
    let s5 := _processScale
                (_processRotation
                   (_processPosition (_adaptSmoothing s1 (lastConfidence s1))
                                     (in_position pose) ts dt)
                   (in_quaternion pose) ts)
                (in_scale pose) ts in
    update s pose timestamp clk
    = (_getResult (_updateMetrics (kalmanStep s5 dt)),
       _updateMetrics (kalmanStep s5 dt)).
Proof.
  intros I. unfold update. rewrite I. cbn [negb].
  eexists _, _. reflexivity.
Qed.

(** What an [update] on an initialized stabilizer returns, as far as the
    confidence, the scale and the metrics go. *)
Lemma update_initialized_result (s : t) (pose : poseInput)
    (timestamp : option Q) (clk : clock) :
  initialized s = true ->
  let r := update s pose timestamp clk in
  out_confidence (fst r) = or_default (in_confidence pose) 1
  /\ cfg (snd r) = cfg s
  /\ initialized (snd r) = true
  /\ (in_scale pose = None ->
      out_scale (fst r) = scale s /\ scaleFilters (snd r) = scaleFilters s)
  /\ exists js : perAxis JitterSuppressor,
       out_metrics (fst r)
       = mkMetrics ((sqrt (js_variance (on_x js)) + sqrt (js_variance (on_y js))
                     + sqrt (js_variance (on_z js))) / 3)
                   (JS.max 0 (1 - (sqrt (js_variance (on_x js))
                                   + sqrt (js_variance (on_y js))
                                   + sqrt (js_variance (on_z js))) / 3 * 10))
                   (predictionSteps (cfg s) * (1667 # 100)).
Proof.
  intros I. cbv zeta.
  destruct (update_initialized_steps s pose timestamp clk I)
    as (ts & dt & E).
  cbv zeta in E. rewrite E. clear E.
  set (s1 := withClock s true (Some ts) (or_default (in_confidence pose) 1)
                       (stats s)).
  pose proof (_adaptSmoothing_keeps s1 (lastConfidence s1)) as K1.
  set (s2 := _adaptSmoothing s1 (lastConfidence s1)) in *.
  pose proof (_processPosition_keeps s2 (in_position pose) ts dt) as K2.
  set (s3 := _processPosition s2 (in_position pose) ts dt) in *.
  pose proof (_processRotation_keeps s3 (in_quaternion pose) ts) as K3.
  set (s4 := _processRotation s3 (in_quaternion pose) ts) in *.
  pose proof (_processScale_keeps s4 (in_scale pose) ts) as K4.
  set (s5 := _processScale s4 (in_scale pose) ts) in *.
  pose proof (kalmanStep_keeps s5 dt) as K5.
  set (s6 := kalmanStep s5 dt) in *.
  cbv zeta in *.
  destruct K1 as (C1 & S1 & F1 & L1 & _ & I1).
  destruct K2 as (C2 & S2 & F2 & L2 & I2).
  destruct K3 as (C3 & S3 & F3 & L3 & _ & I3).
  destruct K4 as (C4 & L4 & _ & I4).
  destruct K5 as (C5 & S5 & F5 & L5 & _ & I5).
  unfold _updateMetrics, _getResult.
  cbn [fst snd out_confidence out_scale out_metrics cfg scale scaleFilters
       lastConfidence initialized stats withClock].
  split; [now rewrite L5, L4, L3, L2, L1|].
  split; [now rewrite C5, C4, C3, C2, C1|].
  split; [now rewrite I5, I4, I3, I2, I1|].
  split.
  - intros N. subst s5. rewrite N in *. cbn [_processScale] in *.
    now rewrite S5, S3, S2, S1, F5, F3, F2, F1.
  - exists (jitterSuppressors s6). now rewrite C5, C4, C3, C2, C1.
Qed.

(** X26. The stabilizer never works with a confidence of zero. On an
    initialized stabilizer the confidence [update] stores and returns is
    the pose's, except that a missing confidence and a confidence of 0
    both count as 1: a pose reported with confidence 0, such as the
    estimator's for a mean reprojection error of 50 pixels or more, is
    stabilized exactly as a pose without confidence is, that is, as one of
    full confidence. *)
Theorem zero_confidence_counts_as_full (s : t) (pose : poseInput)
    (timestamp : option Q) (clk : clock) :
  initialized s = true ->
  out_confidence (fst (update s pose timestamp clk))
  = or_default (in_confidence pose) 1
  /\ ~ out_confidence (fst (update s pose timestamp clk)) == 0
  /\ (forall c, in_confidence pose = Some c -> c == 0 ->
        update s pose timestamp clk
        = update s (withoutConfidence pose) timestamp clk
        /\ out_confidence (fst (update s pose timestamp clk)) = 1)
  /\ (forall e, 50 <= e -> in_confidence pose = Some (unitScore (Fin e)) ->
        out_confidence (fst (update s pose timestamp clk)) = 1).
Proof.
  intros I.
  destruct (update_initialized_result s pose timestamp clk I) as (A & _).
  assert (Z : forall c, in_confidence pose = Some c -> c == 0 ->
                        or_default (in_confidence pose) 1 = 1).
  { intros c Hc Hz. rewrite Hc. unfold or_default.
    apply Qeq_bool_iff in Hz. now rewrite Hz. }
  split; [exact A|]. split; [|split].
  - rewrite A. unfold or_default.
    destruct (in_confidence pose) as [c|]; [|discriminate].
    destruct (Qeq_bool c 0) eqn:E; [discriminate|].
    intros H. apply Qeq_bool_iff in H. congruence.
  - intros c Hc Hz. split; [|now rewrite A; apply (Z c)].
    unfold update. rewrite I. cbn [negb].
    cbn [withoutConfidence in_position in_quaternion in_scale in_confidence].
    rewrite (Z c Hc Hz). reflexivity.
  - intros e He Hc. rewrite A. apply (Z _ Hc). cbn [unitScore].
    now apply AdvancedPoseEstimatorSpec.unitScore_zero.
Qed.

(** X27. A pose without scale leaves the scale alone: on an initialized
    stabilizer, [update] with a pose that carries no scale returns the
    scale the stabilizer had, and does not touch the scale filters. *)
Theorem scale_kept_without_measurement (s : t) (pose : poseInput)
    (timestamp : option Q) (clk : clock) :
  initialized s = true ->
  in_scale pose = None ->
  out_scale (fst (update s pose timestamp clk)) = scale s
  /\ scaleFilters (snd (update s pose timestamp clk)) = scaleFilters s
  /\ initialized (snd (update s pose timestamp clk)) = true.
Proof.
  intros I N.
  destruct (update_initialized_result s pose timestamp clk I)
    as (_ & _ & In & S & _).
  destruct (S N) as [S1 S2]. now repeat split.
Qed.

Hypothesis sqrt_nonneg : forall q, 0 <= sqrt q.

(** X28. The metrics reported with a stabilized pose are in range: on an
    initialized stabilizer the jitter level is not negative, the smoothness
    lies in [0, 1], and the latency is the configured number of prediction
    steps times 16.67 ms. *)
Theorem reported_metrics_in_range (s : t) (pose : poseInput)
    (timestamp : option Q) (clk : clock) :
  initialized s = true ->
  let m := out_metrics (fst (update s pose timestamp clk)) in
  0 <= jitterLevel m
  /\ 0 <= smoothness m /\ smoothness m <= 1
  /\ latency m = predictionSteps (cfg s) * (1667 # 100).
Proof.
  intros I. cbv zeta.
  destruct (update_initialized_result s pose timestamp clk I)
    as (_ & _ & _ & _ & js & ->).
  cbn [jitterLevel smoothness latency].
  set (level := (_ + _ + _) / 3).
  assert (L : 0 <= level).
  { subst level.
    pose proof (sqrt_nonneg (js_variance (on_x js))).
    pose proof (sqrt_nonneg (js_variance (on_y js))).
    pose proof (sqrt_nonneg (js_variance (on_z js))).
    qlra. }
  repeat split; [exact L | apply max_l |].
  destruct (max_cases 0 (1 - level * 10)) as [[_ ->]|[_ ->]]; lra.
Qed.

End WithEnv.




Lemma zero_confidence_counts_as_full_witness :
  let s := snd (update (M := approxMath) (T := approxThree) (new noOptions)
                       samplePose (Some 1) (mkClock 1000 1000)) in
  out_confidence (fst (update s nextPose (Some (1033 # 1000))
                              (mkClock 1033 1033)))
  = 9 # 10.
Proof.
  cbv zeta.
  apply (zero_confidence_counts_as_full (M := approxMath) (T := approxThree)).
  vm_compute. reflexivity.
Defined.

Lemma scale_kept_without_measurement_witness :
  let s := snd (update (M := approxMath) (T := approxThree) (new noOptions)
                       samplePose (Some 1) (mkClock 1000 1000)) in
  let pose := mkPoseInput (in_position nextPose) (in_quaternion nextPose)
                          None (Some (9 # 10)) in
  out_scale (fst (update s pose (Some (1033 # 1000)) (mkClock 1033 1033)))
  = scale s.
Proof.
  cbv zeta.
  apply (scale_kept_without_measurement (M := approxMath) (T := approxThree)).
  - vm_compute. reflexivity.
  - reflexivity.
Defined.

Lemma reported_metrics_in_range_witness :
  let s := snd (update (M := approxMath) (T := approxThree) (new noOptions)
                       samplePose (Some 1) (mkClock 1000 1000)) in
  let m := out_metrics (fst (update s nextPose (Some (1033 # 1000))
                                    (mkClock 1033 1033))) in
  0 <= smoothness m /\ smoothness m <= 1.
Proof.
  cbv zeta.
  pose proof (reported_metrics_in_range (M := approxMath) (T := approxThree)
                sqrt_down_nonneg
                (snd (update (new noOptions) samplePose (Some 1)
                             (mkClock 1000 1000)))
                nextPose (Some (1033 # 1000)) (mkClock 1033 1033)) as H.
  cbv zeta in H. destruct H as (_ & H1 & H2 & _).
  - vm_compute. reflexivity.
  - split; assumption.
Defined.

End ProductionStabilizerProps.
